(** * Planning Center synchronisation pipeline: a shallow embedding

    This development embeds the synchronisation core of the repository
    (backend/app/etl/data_processor.py, backend/app/etl/pco_client.py and
    backend/app/services/data_sync_service.py) and proves properties of it.

    Conventions of the embedding.

    - A Python value is a [pyval]: None, booleans, integers, the float NaN
      (the missing-value marker of pandas), strings, lists and dictionaries
      with string keys.  Finite floating-point numbers are not represented.
    - A Python string is a [string]; every character is read as the code
      point of the same number (0 to 255).
    - A Python dictionary keeps insertion order: it is an association list
      whose keys are pairwise distinct, read with [dict_get] and written with
      [dict_set].
    - Code that may raise returns a [result]; a try/except block is a match on
      that result. *)

From Stdlib Require Import ZArith NArith String Ascii Bool Lia Arith List.
From Stdlib Require Import DecimalN DecimalPos DecimalFacts.
Import ListNotations.

Set Warnings "-register-all".
Local Open Scope list_scope.

(** ** Exceptions and results *)

Inductive exn_class :=
| AttributeError | TypeError | KeyError | ValueError | SyntaxError
| RequestException | UnknownTimeZoneError | PlainException.

Record exn := Exn { exn_kind : exn_class; exn_msg : string }.

Inductive result (A : Type) :=
| Ok (a : A)
| Raise (e : exn).

Arguments Ok {A} a.
Arguments Raise {A} e.

Definition bind {A B : Type} (r : result A) (k : A -> result B) : result B :=
  match r with
  | Ok a => k a
  | Raise e => Raise e
  end.

Notation "x <- r ;; k" := (bind r (fun x => k))
  (at level 61, r at next level, right associativity).
Notation "' p <- r ;; k" := (bind r (fun x => match x with p => k end))
  (at level 61, p pattern, r at next level, right associativity).

(** [try: body except: handler] with a bare or catch-all except clause. *)
Definition try_except {A : Type} (body handler : result A) : result A :=
  match body with
  | Ok a => Ok a
  | Raise _ => handler
  end.

Fixpoint foldM {A B : Type} (f : B -> A -> result B) (l : list A) (b : B)
  : result B :=
  match l with
  | [] => Ok b
  | a :: l' => b' <- f b a ;; foldM f l' b'
  end.

Fixpoint mapM {A B : Type} (f : A -> result B) (l : list A) : result (list B) :=
  match l with
  | [] => Ok []
  | a :: l' => b <- f a ;; bs <- mapM f l' ;; Ok (b :: bs)
  end.

Definition raise_of {A : Type} (k : exn_class) : result A := Raise (Exn k "").

(** ** Python values *)

Inductive pyval :=
| PNone
| PBool (b : bool)
| PInt (n : Z)
| PNaN
| PStr (s : string)
| PList (l : list pyval)
| PDict (d : list (string * pyval)).

Definition dict := list (string * pyval).

(** Structural induction that reaches inside lists and dictionaries. *)
Section PyvalInduction.
Variable P : pyval -> Prop.
Hypothesis HNone : P PNone.
Hypothesis HBool : forall b, P (PBool b).
Hypothesis HInt : forall n, P (PInt n).
Hypothesis HNaN : P PNaN.
Hypothesis HStr : forall s, P (PStr s).
Hypothesis HList : forall l, Forall P l -> P (PList l).
Hypothesis HDict : forall d, Forall (fun kv => P (snd kv)) d -> P (PDict d).

Fixpoint pyval_nested_ind (v : pyval) : P v :=
  match v with
  | PNone => HNone
  | PBool b => HBool b
  | PInt n => HInt n
  | PNaN => HNaN
  | PStr s => HStr s
  | PList l =>
      HList l ((fix go (l : list pyval) : Forall P l :=
                  match l with
                  | [] => Forall_nil P
                  | x :: r => Forall_cons x (pyval_nested_ind x) (go r)
                  end) l)
  | PDict d =>
      HDict d ((fix go (d : dict) : Forall (fun kv => P (snd kv)) d :=
                  match d with
                  | [] => Forall_nil _
                  | kv :: r => Forall_cons kv (pyval_nested_ind (snd kv)) (go r)
                  end) d)
  end.
End PyvalInduction.

(** Python truthiness ([bool(v)]). *)
Definition truthy (v : pyval) : bool :=
  match v with
  | PNone => false
  | PBool b => b
  | PInt n => negb (Z.eqb n 0)
  | PNaN => true
  | PStr s => negb (String.eqb s "")
  | PList l => match l with [] => false | _ => true end
  | PDict d => match d with [] => false | _ => true end
  end.

(** [isinstance(v, (list, dict))] *)
Definition is_complex (v : pyval) : bool :=
  match v with
  | PList _ | PDict _ => true
  | _ => false
  end.

(** ** Ordered dictionaries *)

Fixpoint dict_get (d : dict) (k : string) : option pyval :=
  match d with
  | [] => None
  | (k', v) :: r => if String.eqb k' k then Some v else dict_get r k
  end.

(** [d[k] = v]: an existing key keeps its position, a new key goes last. *)
Fixpoint dict_set (k : string) (v : pyval) (d : dict) : dict :=
  match d with
  | [] => [(k, v)]
  | (k', v') :: r =>
      if String.eqb k' k then (k, v) :: r else (k', v') :: dict_set k v r
  end.

Definition dict_keys (d : dict) : list string := map fst d.

(** ** Characters and strings *)

Definition chars (s : string) : list ascii := list_ascii_of_string s.
Definition text (l : list ascii) : string := string_of_list_ascii l.

Definition code (c : ascii) : N := N_of_ascii c.

Definition char_quote : ascii := ascii_of_nat 34.
Definition char_apostrophe : ascii := ascii_of_nat 39.
Definition char_backslash : ascii := ascii_of_nat 92.

Fixpoint is_prefix (p l : list ascii) : bool :=
  match p, l with
  | [], _ => true
  | _ :: _, [] => false
  | a :: p', b :: l' => Ascii.eqb a b && is_prefix p' l'
  end.

(** [s.startswith(p)] and [s.endswith(p)] *)
Definition startswith (s p : string) : bool := is_prefix (chars p) (chars s).
Definition endswith (s p : string) : bool :=
  is_prefix (rev (chars p)) (rev (chars s)).

(** [sub in s] for strings. *)
Fixpoint contains_chars (sub l : list ascii) : bool :=
  is_prefix sub l ||
  match l with
  | [] => false
  | _ :: l' => contains_chars sub l'
  end.

Definition str_contains (sub s : string) : bool :=
  contains_chars (chars sub) (chars s).

(** [s.count(c)] for a one-character [c]. *)
Definition count_char (c : ascii) (s : string) : nat :=
  length (filter (Ascii.eqb c) (chars s)).

(** [str.isspace] on the code points 0 to 255. *)
Definition is_space (c : ascii) : bool :=
  let n := code c in
  ((9 <=? n) && (n <=? 13) || (28 <=? n) && (n <=? 32) ||
   (n =? 133) || (n =? 160))%N.

Fixpoint lstrip_chars (l : list ascii) : list ascii :=
  match l with
  | c :: l' => if is_space c then lstrip_chars l' else l
  | [] => []
  end.

(** [s.strip()] *)
Definition strip (s : string) : string :=
  text (rev (lstrip_chars (rev (lstrip_chars (chars s))))).

(** [str.lower] on the code points 0 to 255. *)
Definition lower_char (c : ascii) : ascii :=
  let n := code c in
  if ((65 <=? n) && (n <=? 90) ||
      (192 <=? n) && (n <=? 222) && negb (n =? 215))%N
  then ascii_of_N (n + 32) else c.

Definition lower (s : string) : string := text (map lower_char (chars s)).

Definition is_ascii_digit (c : ascii) : bool :=
  let n := code c in ((48 <=? n) && (n <=? 57))%N.

(** [str.isdigit] on the code points 0 to 255: the ASCII digits and the
    superscripts two, three and one. *)
Definition is_digit_char (c : ascii) : bool :=
  let n := code c in
  is_ascii_digit c || (n =? 178)%N || (n =? 179)%N || (n =? 185)%N.

Definition isdigit (s : string) : bool :=
  match chars s with
  | [] => false
  | l => forallb is_digit_char l
  end.

(** ** Decimal and hexadecimal digits *)

Fixpoint uint_chars (d : Decimal.uint) : list ascii :=
  match d with
  | Decimal.Nil => []
  | Decimal.D0 r => "0"%char :: uint_chars r
  | Decimal.D1 r => "1"%char :: uint_chars r
  | Decimal.D2 r => "2"%char :: uint_chars r
  | Decimal.D3 r => "3"%char :: uint_chars r
  | Decimal.D4 r => "4"%char :: uint_chars r
  | Decimal.D5 r => "5"%char :: uint_chars r
  | Decimal.D6 r => "6"%char :: uint_chars r
  | Decimal.D7 r => "7"%char :: uint_chars r
  | Decimal.D8 r => "8"%char :: uint_chars r
  | Decimal.D9 r => "9"%char :: uint_chars r
  end.

(** The digits of a list of ASCII digits; any other character reads as 0
    (callers only pass digits). *)
Fixpoint chars_uint (l : list ascii) : Decimal.uint :=
  match l with
  | [] => Decimal.Nil
  | c :: r =>
      let d := chars_uint r in
      match (code c - 48)%N with
      | 1 => Decimal.D1 d | 2 => Decimal.D2 d | 3 => Decimal.D3 d
      | 4 => Decimal.D4 d | 5 => Decimal.D5 d | 6 => Decimal.D6 d
      | 7 => Decimal.D7 d | 8 => Decimal.D8 d | 9 => Decimal.D9 d
      | _ => Decimal.D0 d
      end%N
  end.

Definition N_digits (n : N) : list ascii := uint_chars (N.to_uint n).
Definition digits_N (l : list ascii) : N := N.of_uint (chars_uint l).

(** [str(n)] for an integer. *)
Definition Z_digits (z : Z) : list ascii :=
  match z with
  | Z0 => ["0"%char]
  | Zpos p => N_digits (Npos p)
  | Zneg p => "-"%char :: N_digits (Npos p)
  end.

Definition hex_digit (n : N) : ascii :=
  if (n <? 10)%N then ascii_of_N (48 + n) else ascii_of_N (87 + n).

Definition hex2 (c : ascii) : list ascii :=
  [hex_digit (code c / 16); hex_digit (code c mod 16)].

Fixpoint join_chars (sep : list ascii) (parts : list (list ascii)) : list ascii :=
  match parts with
  | [] => []
  | [p] => p
  | p :: rest => p ++ sep ++ join_chars sep rest
  end.

(** ** [repr] and [str] *)

(** [str.isprintable] on the code points 0 to 255. *)
Definition is_printable (c : ascii) : bool :=
  let n := code c in
  ((32 <=? n) && (n <=? 126) || (161 <=? n) && negb (n =? 173))%N.

Definition repr_quote (l : list ascii) : ascii :=
  if existsb (Ascii.eqb char_apostrophe) l && negb (existsb (Ascii.eqb char_quote) l)
  then char_quote else char_apostrophe.

Definition repr_char (q c : ascii) : list ascii :=
  if Ascii.eqb c q || Ascii.eqb c char_backslash then [char_backslash; c]
  else if (code c =? 9)%N then [char_backslash; "t"%char]
  else if (code c =? 10)%N then [char_backslash; "n"%char]
  else if (code c =? 13)%N then [char_backslash; "r"%char]
  else if is_printable c then [c]
  else char_backslash :: "x"%char :: hex2 c.

Definition repr_str (s : string) : list ascii :=
  let l := chars s in
  let q := repr_quote l in
  q :: flat_map (repr_char q) l ++ [q].

Fixpoint py_repr_chars (v : pyval) : list ascii :=
  match v with
  | PNone => chars "None"
  | PBool true => chars "True"
  | PBool false => chars "False"
  | PInt n => Z_digits n
  | PNaN => chars "nan"
  | PStr s => repr_str s
  | PList l => chars "[" ++ join_chars (chars ", ") (map py_repr_chars l) ++ chars "]"
  | PDict d =>
      chars "{" ++
      join_chars (chars ", ")
        (map (fun kv => repr_str (fst kv) ++ chars ": " ++ py_repr_chars (snd kv)) d)
      ++ chars "}"
  end.

(** [str(v)], which is also what an f-string placeholder inserts. *)
Definition py_str (v : pyval) : string :=
  match v with
  | PStr s => s
  | _ => text (py_repr_chars v)
  end.

(** ** [json.dumps] with its default options *)

Definition json_escape_char (c : ascii) : list ascii :=
  if Ascii.eqb c char_quote then [char_backslash; char_quote]
  else if Ascii.eqb c char_backslash then [char_backslash; char_backslash]
  else if (code c =? 10)%N then [char_backslash; "n"%char]
  else if (code c =? 13)%N then [char_backslash; "r"%char]
  else if (code c =? 9)%N then [char_backslash; "t"%char]
  else if (code c =? 8)%N then [char_backslash; "b"%char]
  else if (code c =? 12)%N then [char_backslash; "f"%char]
  else if ((32 <=? code c) && (code c <=? 126))%N then [c]
  else char_backslash :: "u"%char :: "0"%char :: "0"%char :: hex2 c.

Definition json_string (s : string) : list ascii :=
  char_quote :: flat_map json_escape_char (chars s) ++ [char_quote].

Fixpoint json_encode (v : pyval) : list ascii :=
  match v with
  | PNone => chars "null"
  | PBool true => chars "true"
  | PBool false => chars "false"
  | PInt n => Z_digits n
  | PNaN => chars "NaN"
  | PStr s => json_string s
  | PList l => "["%char :: join_chars (chars ", ") (map json_encode l) ++ ["]"%char]
  | PDict d =>
      "{"%char ::
      join_chars (chars ", ")
        (map (fun kv => json_string (fst kv) ++ chars ": " ++ json_encode (snd kv)) d)
      ++ ["}"%char]
  end.

Definition json_dumps (v : pyval) : string := text (json_encode v).

(** ** [json.loads]

    The decoder follows CPython's scanner: whitespace is space, tab, newline
    and carriage return; a string may not hold a raw control character; an
    integer has no leading zero.  It returns [None] where [json.loads] raises,
    and also for the texts whose value a [pyval] cannot hold: numbers with a
    fraction or an exponent, [Infinity], and escapes of code points above
    255.  [json_encode] produces none of these. *)

Definition is_json_ws (c : ascii) : bool :=
  let n := code c in ((n =? 32) || (n =? 9) || (n =? 10) || (n =? 13))%N.

Fixpoint skip_ws (l : list ascii) : list ascii :=
  match l with
  | c :: r => if is_json_ws c then skip_ws r else l
  | [] => []
  end.

Definition hex_value (c : ascii) : option N :=
  let n := code c in
  if ((48 <=? n) && (n <=? 57))%N then Some (n - 48)%N
  else if ((97 <=? n) && (n <=? 102))%N then Some (n - 87)%N
  else if ((65 <=? n) && (n <=? 70))%N then Some (n - 55)%N
  else None.

Definition hex4 (a b c d : ascii) : option N :=
  match hex_value a, hex_value b, hex_value c, hex_value d with
  | Some x, Some y, Some z, Some w => Some (((x * 16 + y) * 16 + z) * 16 + w)%N
  | _, _, _, _ => None
  end.

(** The character a one-letter escape stands for. *)
Definition json_unescape (e : ascii) : option ascii :=
  if Ascii.eqb e char_quote then Some char_quote
  else if Ascii.eqb e char_backslash then Some char_backslash
  else if Ascii.eqb e "/"%char then Some "/"%char
  else if Ascii.eqb e "b"%char then Some (ascii_of_nat 8)
  else if Ascii.eqb e "f"%char then Some (ascii_of_nat 12)
  else if Ascii.eqb e "n"%char then Some (ascii_of_nat 10)
  else if Ascii.eqb e "r"%char then Some (ascii_of_nat 13)
  else if Ascii.eqb e "t"%char then Some (ascii_of_nat 9)
  else None.

(** The text after an opening quote, up to the closing one. *)
Fixpoint scan_string (l acc : list ascii) : option (string * list ascii) :=
  match l with
  | [] => None
  | c :: r =>
      if Ascii.eqb c char_quote then Some (text (rev acc), r)
      else if Ascii.eqb c char_backslash then
        match r with
        | [] => None
        | e :: r1 =>
            if Ascii.eqb e "u"%char then
              match r1 with
              | h1 :: h2 :: h3 :: h4 :: r2 =>
                  match hex4 h1 h2 h3 h4 with
                  | Some n =>
                      if (n <? 256)%N then scan_string r2 (ascii_of_N n :: acc)
                      else None
                  | None => None
                  end
              | _ => None
              end
            else
              match json_unescape e with
              | Some ch => scan_string r1 (ch :: acc)
              | None => None
              end
        end
      else if (code c <? 32)%N then None
      else scan_string r (c :: acc)
  end.

Fixpoint span_digits (l : list ascii) : list ascii * list ascii :=
  match l with
  | c :: r =>
      if is_ascii_digit c
      then let '(ds, rest) := span_digits r in (c :: ds, rest)
      else ([], l)
  | [] => ([], [])
  end.

(** What the number pattern reads after the integer part when the number is a
    float: a dot and a digit, or an exponent mark, an optional sign and a digit. *)
Definition float_tail (l : list ascii) : bool :=
  match l with
  | c :: d :: r =>
      if Ascii.eqb c "."%char then is_ascii_digit d
      else if Ascii.eqb c "e"%char || Ascii.eqb c "E"%char then
        is_ascii_digit d ||
        ((Ascii.eqb d "+"%char || Ascii.eqb d "-"%char) &&
         match r with x :: _ => is_ascii_digit x | [] => false end)
      else false
  | _ => false
  end.

(** The integer part: a lone zero, or a nonzero digit and the digits after it. *)
Definition scan_natural (l : list ascii) : option (N * list ascii) :=
  match l with
  | c :: r =>
      if Ascii.eqb c "0"%char then Some (0%N, r)
      else if is_ascii_digit c
      then let '(ds, rest) := span_digits l in Some (digits_N ds, rest)
      else None
  | [] => None
  end.

Definition scan_number (l : list ascii) : option (pyval * list ascii) :=
  match l with
  | c :: r =>
      if Ascii.eqb c "-"%char then
        match scan_natural r with
        | Some (n, rest) =>
            if float_tail rest then None else Some (PInt (- Z.of_N n), rest)
        | None => None
        end
      else
        match scan_natural l with
        | Some (n, rest) =>
            if float_tail rest then None else Some (PInt (Z.of_N n), rest)
        | None => None
        end
  | [] => None
  end.

Definition scan_literal (l : list ascii) : option (pyval * list ascii) :=
  match l with
  | "n"%char :: "u"%char :: "l"%char :: "l"%char :: r => Some (PNone, r)
  | "t"%char :: "r"%char :: "u"%char :: "e"%char :: r => Some (PBool true, r)
  | "f"%char :: "a"%char :: "l"%char :: "s"%char :: "e"%char :: r =>
      Some (PBool false, r)
  | "N"%char :: "a"%char :: "N"%char :: r => Some (PNaN, r)
  | _ => scan_number l
  end.

Fixpoint parse_value (fuel : nat) (l : list ascii) {struct fuel}
  : option (pyval * list ascii) :=
  match fuel with
  | O => None
  | S fuel' =>
      match l with
      | [] => None
      | c :: r =>
          if Ascii.eqb c char_quote then
            match scan_string r [] with
            | Some (s, rest) => Some (PStr s, rest)
            | None => None
            end
          else if Ascii.eqb c "["%char then
            match skip_ws r with
            | [] => None
            | c1 :: r1 =>
                if Ascii.eqb c1 "]"%char then Some (PList [], r1)
                else
                  match parse_elements fuel' (c1 :: r1) [] with
                  | Some (vs, rest) => Some (PList vs, rest)
                  | None => None
                  end
            end
          else if Ascii.eqb c "{"%char then
            match skip_ws r with
            | [] => None
            | c1 :: r1 =>
                if Ascii.eqb c1 "}"%char then Some (PDict [], r1)
                else if Ascii.eqb c1 char_quote then
                  match parse_members fuel' r1 [] with
                  | Some (d, rest) => Some (PDict d, rest)
                  | None => None
                  end
                else None
            end
          else scan_literal l
      end
  end

(** The elements of an array, from the first character of an element; [acc]
    holds the elements read so far, last first. *)
with parse_elements (fuel : nat) (l : list ascii) (acc : list pyval) {struct fuel}
  : option (list pyval * list ascii) :=
  match fuel with
  | O => None
  | S fuel' =>
      match parse_value fuel' l with
      | None => None
      | Some (v, rest) =>
          match skip_ws rest with
          | [] => None
          | c :: r =>
              if Ascii.eqb c "]"%char then Some (rev (v :: acc), r)
              else if Ascii.eqb c ","%char
              then parse_elements fuel' (skip_ws r) (v :: acc)
              else None
          end
      end
  end

(** The members of an object, from the character after the opening quote of
    a key; [acc] is the dictionary built so far. *)
with parse_members (fuel : nat) (l : list ascii) (acc : dict) {struct fuel}
  : option (dict * list ascii) :=
  match fuel with
  | O => None
  | S fuel' =>
      match scan_string l [] with
      | None => None
      | Some (key, rest) =>
          match skip_ws rest with
          | [] => None
          | c :: r =>
              if Ascii.eqb c ":"%char then
                match parse_value fuel' (skip_ws r) with
                | None => None
                | Some (v, rest1) =>
                    let acc := dict_set key v acc in
                    match skip_ws rest1 with
                    | [] => None
                    | c1 :: r1 =>
                        if Ascii.eqb c1 "}"%char then Some (acc, r1)
                        else if Ascii.eqb c1 ","%char then
                          match skip_ws r1 with
                          | [] => None
                          | c2 :: r2 =>
                              if Ascii.eqb c2 char_quote
                              then parse_members fuel' r2 acc
                              else None
                          end
                        else None
                    end
                end
              else None
          end
      end
  end.

Definition json_decode (l : list ascii) : option pyval :=
  let l := skip_ws l in
  match parse_value (List.length l) l with
  | Some (v, rest) =>
      match skip_ws rest with
      | [] => Some v
      | _ :: _ => None
      end
  | None => None
  end.

(** [json.loads(s)]; a failure is the [ValueError] the decoder raises. *)
Definition json_loads (s : string) : result pyval :=
  match json_decode (chars s) with
  | Some v => Ok v
  | None => raise_of ValueError
  end.

(** ** Operations on values that may raise *)

(** [v.get(k, default)]: only dictionaries have the method. *)
Definition py_get (v : pyval) (k : string) (default : pyval) : result pyval :=
  match v with
  | PDict d =>
      Ok (match dict_get d k with Some x => x | None => default end)
  | _ => raise_of AttributeError
  end.

(** [v.items()] *)
Definition py_items (v : pyval) : result (list (string * pyval)) :=
  match v with
  | PDict d => Ok d
  | _ => raise_of AttributeError
  end.

(** The values a [for x in v] loop visits. *)
Definition py_iter (v : pyval) : result (list pyval) :=
  match v with
  | PList l => Ok l
  | PDict d => Ok (map (fun kv => PStr (fst kv)) d)
  | PStr s => Ok (map (fun c => PStr (String c "")) (chars s))
  | _ => raise_of TypeError
  end.

Definition pyval_is_str (k : string) (v : pyval) : bool :=
  match v with
  | PStr s => String.eqb s k
  | _ => false
  end.

(** [k in v] for a string [k]. *)
Definition py_contains (k : string) (v : pyval) : result bool :=
  match v with
  | PDict d => Ok (match dict_get d k with Some _ => true | None => false end)
  | PList l => Ok (existsb (pyval_is_str k) l)
  | PStr s => Ok (str_contains k s)
  | _ => raise_of TypeError
  end.

(** [v[k]] for a string [k]. *)
Definition py_getitem (v : pyval) (k : string) : result pyval :=
  match v with
  | PDict d =>
      match dict_get d k with
      | Some x => Ok x
      | None => raise_of KeyError
      end
  | _ => raise_of TypeError
  end.

(** * backend/app/etl/data_processor.py *)

(** [convert_complex_type_to_json]: every [pyval] is serialisable, so the
    except branch of the source (which returns None) is never taken here. *)
Definition convert_complex_type_to_json (value : pyval) : pyval :=
  if is_complex value then PStr (json_dumps value) else value.

(** The assignment both attribute loops perform:
    [data_dict[col] = convert_complex_type_to_json(v)] for a list or
    dictionary, [data_dict[col] = v] otherwise. *)
Definition store_attribute (col : string) (attr_value : pyval) (data_dict : dict)
  : dict :=
  if is_complex attr_value
  then dict_set col (convert_complex_type_to_json attr_value) data_dict
  else dict_set col attr_value data_dict.

Definition underscore (a b : string) : string := (a ++ "_" ++ b)%string.

(** Lines 53 to 58: the lookup of included items, keyed by the f-string
    [{item_id}_{item_type}]. *)
Definition add_included (included_lookup : dict) (item : pyval) : result dict :=
  item_id <- py_get item "id" PNone ;;
  item_type <- py_get item "type" (PStr "") ;;
  if truthy item_id && truthy item_type
  then Ok (dict_set (underscore (py_str item_id) (py_str item_type)) item
             included_lookup)
  else Ok included_lookup.

Definition build_included_lookup (included_items : list pyval) : result dict :=
  foldM add_included included_items [].

(** Lines 104 to 110: inlining the attributes of one included item. *)
Definition inline_attributes (rel_type : pyval) (included_attrs : list (string * pyval))
    (data_dict : dict) : dict :=
  fold_left
    (fun dd kv => store_attribute (underscore (py_str rel_type) (fst kv)) (snd kv) dd)
    included_attrs data_dict.

(** Lines 90 to 110: one iteration of the loop over [rel_items]; the state is
    the row under construction and the ids collected so far. *)
Definition process_rel_item (included_lookup : dict) (st : dict * list pyval)
    (rel_item : pyval) : result (dict * list pyval) :=
  let '(data_dict, rel_ids) := st in
  match rel_item with
  | PDict _ =>
      rel_id <- py_get rel_item "id" PNone ;;
      rel_type <- py_get rel_item "type" (PStr "") ;;
      if truthy rel_id then
        let rel_ids := rel_ids ++ [rel_id] in
        let lookup_key := underscore (py_str rel_id) (py_str rel_type) in
        match dict_get included_lookup lookup_key with
        | Some included_data =>
            if truthy included_data then
              included_attrs <- py_get included_data "attributes" (PDict []) ;;
              attrs <- py_items included_attrs ;;
              Ok (inline_attributes rel_type attrs data_dict, rel_ids)
            else Ok (data_dict, rel_ids)
        | None => Ok (data_dict, rel_ids)
        end
      else Ok (data_dict, rel_ids)
  | _ => Ok (data_dict, rel_ids)
  end.

(** Lines 112 to 117: storing the ids of one relationship. *)
Definition store_rel_ids (rel_name : string) (rel_ids : list pyval) (data_dict : dict)
  : dict :=
  match rel_ids with
  | [] => data_dict
  | first :: _ =>
      let data_dict :=
        if Nat.eqb (List.length rel_ids) 1
        then dict_set (rel_name ++ "_id")%string first data_dict
        else data_dict in
      dict_set (rel_name ++ "_ids")%string
        (convert_complex_type_to_json (PList rel_ids)) data_dict
  end.

(** Lines 84 to 86: [rel_items], made a list when it is not one. *)
Definition as_rel_items (rel_items : pyval) : list pyval :=
  match rel_items with
  | PList l => l
  | _ => if truthy rel_items then [rel_items] else []
  end.

(** Lines 80 to 117: one iteration of the loop over the relationships. *)
Definition process_relationship (included_lookup : dict) (data_dict : dict)
    (rel : string * pyval) : result dict :=
  let '(rel_name, rel_data) := rel in
  if negb (truthy rel_data) then Ok data_dict else
  has_data <- py_contains "data" rel_data ;;
  if negb has_data then Ok data_dict else
  rel_items <- py_getitem rel_data "data" ;;
  '(data_dict, rel_ids) <-
     foldM (process_rel_item included_lookup) (as_rel_items rel_items) (data_dict, []) ;;
  Ok (store_rel_ids rel_name rel_ids data_dict).

(** Lines 62 to 119: the row of one data item. *)
Definition process_item (included_lookup : dict) (item : pyval) : result dict :=
  item_id <- py_get item "id" PNone ;;
  item_type <- py_get item "type" (PStr "") ;;
  attributes <- py_get item "attributes" (PDict []) ;;
  relationships <- py_get item "relationships" (PDict []) ;;
  let data_dict := [((py_str item_type ++ "_id")%string, item_id)] in
  attrs <- py_items attributes ;;
  let data_dict :=
    fold_left (fun dd kv => store_attribute (fst kv) (snd kv) dd) attrs data_dict in
  rels <- py_items relationships ;;
  foldM (process_relationship included_lookup) rels data_dict.

(** The body of the try block, lines 49 to 121.  The dictionary
    [detected_types] of the source is written and never read; it is left out. *)
Definition process_jsonapi_response_body (response : pyval) : result (list dict) :=
  data_items <- py_get response "data" (PList []) ;;
  included_items <- py_get response "included" (PList []) ;;
  included <- py_iter included_items ;;
  included_lookup <- build_included_lookup included ;;
  items <- py_iter data_items ;;
  mapM (process_item included_lookup) items.

(** [process_jsonapi_response]: any exception of the body is logged and the
    page yields the empty list. *)
Definition process_jsonapi_response (response : pyval) (endpoint : string)
  : list dict :=
  match process_jsonapi_response_body response with
  | Ok processed_data => processed_data
  | Raise _ => []
  end.

(** ** Notions used to state that decoding inverts encoding *)

(** What may follow a value inside the text [json_encode] writes. *)
Definition delimited (rest : list ascii) : Prop :=
  match rest with
  | [] => True
  | c :: _ => c = ","%char \/ c = "]"%char \/ c = "}"%char
  end.

Fixpoint distinct_keys (ks : list string) : bool :=
  match ks with
  | [] => true
  | k :: r => negb (existsb (String.eqb k) r) && distinct_keys r
  end.

(** The values whose dictionaries, at every depth, have distinct keys: what a
    Python dictionary guarantees by construction. *)
Fixpoint well_formed (v : pyval) : bool :=
  match v with
  | PList l => forallb well_formed l
  | PDict d =>
      distinct_keys (map fst d) && forallb (fun kv => well_formed (snd kv)) d
  | _ => true
  end.

(** The first character of an encoded value starts a value: it is neither
    whitespace nor a closing bracket. *)
Definition value_start (c : ascii) : Prop :=
  is_json_ws c = false /\ Ascii.eqb c "]"%char = false /\
  Ascii.eqb c "}"%char = false.

(** The statement proved for every value by induction on its structure. *)
Definition decodes (v : pyval) : Prop :=
  well_formed v = true ->
  forall fuel rest,
    List.length (json_encode v) <= fuel -> delimited rest ->
    parse_value fuel (json_encode v ++ rest) = Some (v, rest).

Definition item_sep : list ascii := chars ", ".

Definition encode_member (kv : string * pyval) : list ascii :=
  json_string (fst kv) ++ chars ": " ++ json_encode (snd kv).

(** ** Notions used to state the properties of the flattener *)

Definition has_column (row : dict) (col : string) : Prop :=
  dict_get row col <> None.

(** The data items of a response, as the loop of line 62 visits them. *)
Definition data_items_of (response : pyval) : result (list pyval) :=
  data_items <- py_get response "data" (PList []) ;;
  py_iter data_items.

(** A reference that carries an id: an object whose [id] is truthy. *)
Definition reference_id (rel_item : pyval) : option pyval :=
  match rel_item with
  | PDict d =>
      match dict_get d "id" with
      | Some rel_id => if truthy rel_id then Some rel_id else None
      | None => None
      end
  | _ => None
  end.

(** The references of a relationship when every one of them carries an id:
    [rel_data] is an object whose [data] is one reference or a list of
    references. *)
Definition references_of (rel_data : pyval) : option (list pyval) :=
  match rel_data with
  | PDict d =>
      match dict_get d "data" with
      | Some rel_items => Some (as_rel_items rel_items)
      | None => None
      end
  | _ => None
  end.

Fixpoint reference_ids (rel_items : list pyval) : option (list pyval) :=
  match rel_items with
  | [] => Some []
  | r :: rest =>
      match reference_id r, reference_ids rest with
      | Some i, Some ids => Some (i :: ids)
      | _, _ => None
      end
  end.

(** The columns one reference inlines from the included lookup (lines 97 to
    110): one column [{rel_type}_{attr}] per attribute of the included item
    found under the key [{rel_id}_{rel_type}]. *)
Definition inlined_by_reference (included_lookup : dict) (rel_item : pyval)
  : list string :=
  match rel_item with
  | PDict d =>
      let rel_id := match dict_get d "id" with Some x => x | None => PNone end in
      let rel_type :=
        match dict_get d "type" with Some x => x | None => PStr "" end in
      if truthy rel_id then
        match dict_get included_lookup (underscore (py_str rel_id) (py_str rel_type)) with
        | Some (PDict inc) =>
            match dict_get inc "attributes" with
            | Some (PDict attrs) =>
                map (fun kv => underscore (py_str rel_type) (fst kv)) attrs
            | _ => []
            end
        | _ => []
        end
      else []
  | _ => []
  end.

(** The columns a relationship inlines from the included lookup. *)
Definition inlined_columns (included_lookup : dict) (rel_data : pyval)
  : list string :=
  match references_of rel_data with
  | Some rel_items => flat_map (inlined_by_reference included_lookup) rel_items
  | None => []
  end.

(** The included lookup of a response, as lines 50 to 58 build it. *)
Definition included_lookup_of (response : pyval) : result dict :=
  included_items <- py_get response "included" (PList []) ;;
  included <- py_iter included_items ;;
  build_included_lookup included.

(** ** The responses used as examples *)

Local Open Scope string_scope.

(** Two relationships, the second of which inlines an attribute named [ids]
    of an included resource of type [owner]. *)
Definition response_with_collision : pyval :=
  PDict
    [("data",
      PList
        [PDict
           [("id", PStr "7"); ("type", PStr "CheckIn");
            ("relationships",
             PDict
               [("owner",
                 PDict [("data", PDict [("type", PStr "Person"); ("id", PStr "1")])]);
                ("pet",
                 PDict [("data", PDict [("type", PStr "owner"); ("id", PStr "2")])])])]]);
     ("included",
      PList
        [PDict
           [("type", PStr "owner"); ("id", PStr "2");
            ("attributes", PDict [("ids", PStr "zzz")])]])].

(** A page whose first item has no id and whose second has no type. *)
Definition response_with_malformed_items : pyval :=
  PDict
    [("data",
      PList
        [PDict [("type", PStr "Person"); ("attributes", PDict [("name", PStr "Ann")])];
         PDict [("id", PStr "9"); ("attributes", PDict [("name", PStr "Bob")])];
         PDict [("id", PStr "3"); ("type", PStr "Person");
                ("attributes", PDict [("name", PStr "Cy")])]])].

(** Two included resources whose id and type differ and whose lookup keys
    coincide, and a data item that refers to the first. *)
Definition included_first : pyval :=
  PDict [("id", PStr "1_a"); ("type", PStr "b");
         ("attributes", PDict [("name", PStr "first")])].

Definition included_second : pyval :=
  PDict [("id", PStr "1"); ("type", PStr "a_b");
         ("attributes", PDict [("name", PStr "second")])].

Definition response_with_conflation : pyval :=
  PDict
    [("data",
      PList
        [PDict
           [("id", PStr "5"); ("type", PStr "CheckIn");
            ("relationships",
             PDict
               [("thing",
                 PDict [("data", PDict [("type", PStr "b"); ("id", PStr "1_a")])])])]]);
     ("included", PList [included_first; included_second])].

(** A check-in linked to two event times and to one person. *)
Definition check_in_relationships : list (string * pyval) :=
  [("event_times",
    PDict
      [("data",
        PList
          [PDict [("type", PStr "EventTime"); ("id", PStr "12")];
           PDict [("type", PStr "EventTime"); ("id", PStr "34")]])]);
   ("person",
    PDict [("data", PDict [("type", PStr "Person"); ("id", PStr "56")])])].

Definition check_in_item : pyval :=
  PDict
    [("id", PStr "1001"); ("type", PStr "CheckIn");
     ("attributes", PDict [("kind", PStr "Regular")]);
     ("relationships", PDict check_in_relationships)].

Definition response_with_links : pyval :=
  PDict
    [("data", PList [check_in_item]);
     ("included",
      PList
        [PDict
           [("type", PStr "Person"); ("id", PStr "56");
            ("attributes", PDict [("first_name", PStr "Ann")])]])].

Local Close Scope string_scope.

(** * pandas tables

    A table is column-major, as pandas stores it: a list of named series, all
    of one length.  A series of dtype [object] holds Python values; a
    datetime series holds instants (nanoseconds since the epoch, [None] for
    NaT) and its time zone, if any; a series of any other dtype holds its
    values and the dtype. *)

Inductive dtype :=
| BoolDtype          (* bool *)
| Int64Dtype         (* int64 *)
| NullableInt64Dtype (* Int64 *)
| Float64Dtype       (* float64 *)
| NullableFloat64Dtype (* Float64 *)
| OtherDtype.        (* category, timedelta, ... *)

Inductive Series :=
| ObjectSeries (vals : list pyval)
| DatetimeSeries (tz : option string) (vals : list (option Z))
| TypedSeries (dt : dtype) (vals : list pyval).

Definition DataFrame := list (string * Series).

Definition series_length (s : Series) : nat :=
  match s with
  | ObjectSeries vals => List.length vals
  | DatetimeSeries _ vals => List.length vals
  | TypedSeries _ vals => List.length vals
  end.

(** [len(df)] *)
Definition df_length (df : DataFrame) : nat :=
  match df with
  | [] => O
  | (_, s) :: _ => series_length s
  end.

(** [df.empty]: no column or no row. *)
Definition df_empty (df : DataFrame) : bool := Nat.eqb (df_length df) 0.

(** [df.columns] and [df[col]] *)
Definition df_columns (df : DataFrame) : list string := map fst df.

Fixpoint df_get (df : DataFrame) (col : string) : option Series :=
  match df with
  | [] => None
  | (name, s) :: rest => if String.eqb name col then Some s else df_get rest col
  end.

Definition in_columns (col : string) (df : DataFrame) : bool :=
  existsb (String.eqb col) (df_columns df).

(** [pd.isna(v)] for a scalar. *)
Definition isna (v : pyval) : bool :=
  match v with
  | PNone | PNaN => true
  | _ => false
  end.

Fixpoint select {A : Type} (mask : list bool) (l : list A) : list A :=
  match mask, l with
  | b :: mask', x :: l' => if b then x :: select mask' l' else select mask' l'
  | _, _ => []
  end.

(** [s[mask]] for a boolean mask. *)
Definition series_select (mask : list bool) (s : Series) : Series :=
  match s with
  | ObjectSeries vals => ObjectSeries (select mask vals)
  | DatetimeSeries tz vals => DatetimeSeries tz (select mask vals)
  | TypedSeries dt vals => TypedSeries dt (select mask vals)
  end.

(** [df[mask]] *)
Definition df_select (mask : list bool) (df : DataFrame) : DataFrame :=
  map (fun col => (fst col, series_select mask (snd col))) df.

Fixpoint repeat_each {A : Type} (counts : list nat) (l : list A) : list A :=
  match counts, l with
  | n :: counts', x :: l' => repeat x n ++ repeat_each counts' l'
  | _, _ => []
  end.

(** The values of a row repeated once per exploded element. *)
Definition series_repeat (counts : list nat) (s : Series) : Series :=
  match s with
  | ObjectSeries vals => ObjectSeries (repeat_each counts vals)
  | DatetimeSeries tz vals => DatetimeSeries tz (repeat_each counts vals)
  | TypedSeries dt vals => TypedSeries dt (repeat_each counts vals)
  end.

(** * backend/app/services/data_sync_service.py *)

Section ParseEventTimeIds.

(** The two library parsers [parse_event_time_ids] calls.  Nothing is assumed
    of them here: each may return any value or raise on any text. *)
Variable json_loads_py : string -> result pyval.
Variable literal_eval : string -> result pyval.

(** [parsed if isinstance(parsed, list) else [parsed] if parsed else []] *)
Definition as_id_list (parsed : pyval) : list pyval :=
  match parsed with
  | PList l => l
  | _ => if truthy parsed then [parsed] else []
  end.

(** [int(s)] for a text that satisfies [isdigit]: the ASCII digits convert,
    unless there are more than 4300 of them, the limit of the conversion of
    a text to an integer; the superscript digits raise. *)
Definition py_int (s : string) : result Z :=
  match chars s with
  | [] => raise_of ValueError
  | l =>
      if forallb is_ascii_digit l then
        if (4300 <? List.length l)%nat then raise_of ValueError
        else Ok (Z.of_N (digits_N l))
      else raise_of ValueError
  end.

(** Lines 47 to 57: the literal parse and its fallbacks. *)
Definition parse_literal_or_scalar (val_stripped : string) : result (list pyval) :=
  try_except
    (parsed <- literal_eval val_stripped ;; Ok (as_id_list parsed))
    (try_except
       (if isdigit val_stripped
        then n <- py_int val_stripped ;; Ok [PInt n]
        else Ok [PStr val_stripped])
       (Ok [])).

Definition parse_event_time_ids (val : pyval) : result (list pyval) :=
  match val with
  | PList l => Ok l
  | PNone | PNaN => Ok []
  | PStr s =>
      let val_stripped := strip s in
      if String.eqb val_stripped "" then Ok [] else
      if (startswith val_stripped "[" && endswith val_stripped "]") ||
         (startswith val_stripped (String char_quote "") &&
          endswith val_stripped (String char_quote ""))
      then
        match (parsed <- json_loads_py val_stripped ;; Ok (as_id_list parsed)) with
        | Ok ids => Ok ids
        | Raise _ => parse_literal_or_scalar val_stripped
        end
      else parse_literal_or_scalar val_stripped
  | _ => try_except (Ok [val]) (Ok [])
  end.

(** ** [_explode_checkins] *)

(** What [Series.explode] makes of one cell that holds a list: its elements,
    or a single NaN when the list is empty. *)
Definition explode_cell (ids : list pyval) : list pyval :=
  match ids with
  | [] => [PNaN]
  | _ => ids
  end.

Definition explode_count (ids : list pyval) : nat := List.length (explode_cell ids).

(** [v != ''] *)
Definition not_empty_string (v : pyval) : bool :=
  match v with
  | PStr s => negb (String.eqb s "")
  | _ => true
  end.

(** Lines 262 to 271 for a column of Python values: parse every cell, explode,
    drop the missing values, then the empty strings. *)
Definition explode_by (col : string) (vals : list pyval) (df : DataFrame)
  : result DataFrame :=
  parsed <- mapM parse_event_time_ids vals ;;
  let counts := map explode_count parsed in
  let exploded := flat_map explode_cell parsed in
  let df_exploded :=
    map (fun c => if String.eqb (fst c) col
                  then (fst c, ObjectSeries exploded)
                  else (fst c, series_repeat counts (snd c))) df in
  let df_exploded := df_select (map (fun v => negb (isna v)) exploded) df_exploded in
  let kept := select (map (fun v => negb (isna v)) exploded) exploded in
  Ok (df_select (map not_empty_string kept) df_exploded).

(** Lines 248 to 252: the first accepted spelling of the column name. *)
Definition find_event_time_ids_col (df : DataFrame) : option string :=
  find (fun col_name => in_columns col_name df)
    ["event_time_ids"; "EventTime_ids"; "event_times_ids"]%string.

(** The table [_explode_checkins] stores back for the table [df].  A column
    of instants has no list to explode: each cell is its own single element,
    and only the NaT rows are dropped. *)
Definition explode_checkins_frame (df : DataFrame) : result DataFrame :=
  if df_empty df then Ok df else
  match find_event_time_ids_col df with
  | None => Ok df
  | Some col =>
      match df_get df col with
      | Some (ObjectSeries vals) => explode_by col vals df
      | Some (TypedSeries _ vals) => explode_by col vals df
      | Some (DatetimeSeries _ vals) =>
          Ok (df_select (map (fun v => match v with Some _ => true | None => false end) vals) df)
      | None => Ok df
      end
  end.

(** [_explode_checkins] on the dictionary of tables. *)
Definition _explode_checkins (dataframes : list (string * DataFrame))
  : result (list (string * DataFrame)) :=
  match find (fun t => String.eqb (fst t) "PC_CHECKINS") dataframes with
  | None => Ok dataframes
  | Some (_, df) =>
      df' <- explode_checkins_frame df ;;
      Ok (map (fun t => if String.eqb (fst t) "PC_CHECKINS" then (fst t, df') else t)
            dataframes)
  end.

End ParseEventTimeIds.

(** ** A model of [ast.literal_eval] on the texts the examples use

    Decimal integer literals, double- or single-quoted strings without
    escapes, and lists of these; every other text is treated as a syntax
    error, which is right only within that fragment. *)

(** A decimal integer literal: a nonzero digit followed by digits, or zeros
    only; other digit strings (a leading zero before a nonzero digit) are
    syntax errors. *)
Definition decimal_literal (s : string) : result pyval :=
  match chars s with
  | [] => raise_of SyntaxError
  | c :: r =>
      if forallb is_ascii_digit (c :: r) then
        if Ascii.eqb c "0"%char then
          if forallb (Ascii.eqb "0"%char) r then Ok (PInt 0)
          else raise_of SyntaxError
        else Ok (PInt (Z.of_N (digits_N (c :: r))))
      else raise_of SyntaxError
  end.

(** The text of a quoted string without escapes, after its opening quote. *)
Fixpoint scan_plain_string (q : ascii) (l acc : list ascii)
  : option (string * list ascii) :=
  match l with
  | [] => None
  | c :: r =>
      if Ascii.eqb c q then Some (text (rev acc), r)
      else if Ascii.eqb c char_backslash || (code c <? 32)%N then None
      else scan_plain_string q r (c :: acc)
  end.

Fixpoint skip_spaces (l : list ascii) : list ascii :=
  match l with
  | c :: r => if Ascii.eqb c " "%char then skip_spaces r else l
  | [] => []
  end.

Definition literal_scalar (l : list ascii) : option (pyval * list ascii) :=
  match l with
  | [] => None
  | c :: r =>
      if Ascii.eqb c char_quote || Ascii.eqb c char_apostrophe then
        match scan_plain_string c r [] with
        | Some (s, rest) => Some (PStr s, rest)
        | None => None
        end
      else
        let '(ds, rest) := span_digits l in
        match decimal_literal (text ds) with
        | Ok v => Some (v, rest)
        | Raise _ => None
        end
  end.

Fixpoint literal_elements (fuel : nat) (l : list ascii) (acc : list pyval)
  : option (list pyval) :=
  match fuel with
  | O => None
  | S fuel' =>
      match literal_scalar l with
      | None => None
      | Some (v, rest) =>
          match skip_spaces rest with
          | c :: r =>
              if Ascii.eqb c "]"%char then
                match r with [] => Some (rev (v :: acc)) | _ => None end
              else if Ascii.eqb c ","%char
              then literal_elements fuel' (skip_spaces r) (v :: acc)
              else None
          | [] => None
          end
      end
  end.

Definition literal_eval_fragment (s : string) : result pyval :=
  let l := chars s in
  match l with
  | [] => raise_of SyntaxError
  | c :: r =>
      if Ascii.eqb c "["%char then
        match skip_spaces r with
        | ["]"%char] => Ok (PList [])
        | r' =>
            match literal_elements (List.length l) r' [] with
            | Some vs => Ok (PList vs)
            | None => raise_of SyntaxError
            end
        end
      else
        match literal_scalar l with
        | Some (v, []) => Ok v
        | _ => raise_of SyntaxError
        end
  end.

(** The three-row check-ins table of the explode example. *)
Definition three_checkins : DataFrame :=
  [("check_in_id"%string, ObjectSeries [PStr "a"; PStr "b"; PStr "c"]);
   ("event_times_ids"%string,
    ObjectSeries [PList [PStr "12"; PStr "34"]; PList []; PStr "56"]);
   ("created_at"%string, DatetimeSeries (Some "US/Central"%string) [Some 10%Z; Some 20%Z; None])].

(** The same table with the link ids as the flattener and the storage step
    leave them: JSON text, Python literal text, and a missing value. *)
Definition three_checkins_text : DataFrame :=
  [("check_in_id"%string, ObjectSeries [PStr "a"; PStr "b"; PStr "c"; PStr "d"]);
   ("event_times_ids"%string,
    ObjectSeries
      [PStr (json_dumps (PList [PStr "12"; PStr "34"]));
       PStr "['78', 90]"; PNaN; PStr " 56 "])].

(** ** Notions used to state the properties of the explode step *)

(** The elements of a parsed cell that survive the two filters of lines 268
    and 271: neither missing nor the empty string. *)
Definition is_linked_id (v : pyval) : bool := negb (isna v) && not_empty_string v.

Definition linked_ids (ids : list pyval) : list pyval := filter is_linked_id ids.

(** Every column of the table has the length of the table. *)
Definition aligned (df : DataFrame) : Prop :=
  forall name s, df_get df name = Some s -> series_length s = df_length df.

Definition alignedb (df : DataFrame) : bool :=
  forallb (fun c => Nat.eqb (series_length (snd c)) (df_length df)) df.

(** What the three steps of lines 265 to 271 make of one column. *)
Definition exploded_column (col : string) (parsed : list (list pyval))
    (name : string) (s : Series) : Series :=
  let exploded := flat_map explode_cell parsed in
  let mask := map (fun v => negb (isna v)) exploded in
  series_select (map not_empty_string (select mask exploded))
    (series_select mask
       (if String.eqb name col then ObjectSeries exploded
        else series_repeat (map explode_count parsed) s)).

(** A nonempty text of ASCII digits. *)
Definition ascii_digits (s : string) : bool :=
  match chars s with
  | [] => false
  | l => forallb is_ascii_digit l
  end.

(** The number a text of ASCII digits denotes. *)
Definition digits_value (s : string) : Z := Z.of_N (digits_N (chars s)).

(** * backend/app/etl/data_processor.py, the table preparer *)

(** [s.dropna()], [s.head(n)] and [s.unique()] on the values of an object
    series. *)
Definition dropna (vals : list pyval) : list pyval :=
  filter (fun v => negb (isna v)) vals.

Definition head_n {A : Type} (n : nat) (l : list A) : list A := firstn n l.

(** Whether two values are one entry of a hash table: they are equal and
    hash alike.  [True] is 1 and [False] is 0. *)
Definition same_entry (a b : pyval) : bool :=
  match a, b with
  | PNone, PNone | PNaN, PNaN => true
  | PBool x, PBool y => Bool.eqb x y
  | PInt x, PInt y => Z.eqb x y
  | PBool x, PInt y | PInt y, PBool x => Z.eqb y (if x then 1 else 0)
  | PStr x, PStr y => String.eqb x y
  | _, _ => false
  end.

(** The first occurrence of every entry, in order. *)
Fixpoint first_occurrences (seen vals : list pyval) : list pyval :=
  match vals with
  | [] => []
  | v :: rest =>
      if existsb (same_entry v) seen then first_occurrences seen rest
      else v :: first_occurrences (v :: seen) rest
  end.

(** [Series.unique] hashes its values: a list or a dictionary among them
    raises [TypeError]; otherwise it keeps the first occurrence of each. *)
Definition series_unique (vals : list pyval) : result (list pyval) :=
  if existsb is_complex vals then raise_of TypeError
  else Ok (first_occurrences [] vals).

(** The distinct members of a list of texts: the size of [set(...)]. *)
Fixpoint distinct (l : list string) : list string :=
  match l with
  | [] => []
  | x :: r => if existsb (String.eqb x) r then distinct r else x :: distinct r
  end.

Definition is_object (s : Series) : bool :=
  match s with ObjectSeries _ => true | _ => false end.

(** [dtype in ['int64', 'Int64']], [dtype in ['float64', 'Float64']] and
    [dtype == 'bool'] *)
Definition is_int_dtype (s : Series) : bool :=
  match s with
  | TypedSeries Int64Dtype _ | TypedSeries NullableInt64Dtype _ => true
  | _ => false
  end.

Definition is_float_dtype (s : Series) : bool :=
  match s with
  | TypedSeries Float64Dtype _ | TypedSeries NullableFloat64Dtype _ => true
  | _ => false
  end.

Definition is_bool_dtype (s : Series) : bool :=
  match s with TypedSeries BoolDtype _ => true | _ => false end.

Definition object_values (s : Series) : list pyval :=
  match s with ObjectSeries vals => vals | _ => [] end.

(** ** [generate_dtype_mapping] *)

Inductive sqltype :=
| Boolean | Text | Integer | Date | String255 | Float | DateTimeTz.

Local Open Scope string_scope.

Definition bool_words : list string :=
  ["true"; "false"; "1"; "0"; "yes"; "no"; "t"; "f"; "y"; "n"; ""].

Definition bool_patterns : list string :=
  ["is_"; "has_"; "can_"; "primary"; "blocked"; "verified"; "opened"].

Definition numeric_patterns : list string :=
  ["count"; "total"; "min"; "max"; "grade"; "year"].

Definition any_in (patterns : list string) (s : string) : bool :=
  existsb (fun x => str_contains x s) patterns.

Definition max_length (texts : list string) : nat :=
  fold_right Nat.max 0 (map String.length texts).

(** Lines 355 to 368: a column with a boolean-looking name. *)
Definition boolean_column_type (s : Series) : result sqltype :=
  if negb (is_object s) then Ok Boolean else
  let sample := head_n 20 (dropna (object_values s)) in
  match sample with
  | [] => Ok Boolean
  | _ =>
      uniq <- series_unique sample ;;
      let unique_vals := distinct (map (fun v => strip (lower (py_str v))) uniq) in
      let bool_like :=
        forallb (fun u => existsb (String.eqb u) bool_words) unique_vals in
      if bool_like && (List.length unique_vals <=? 3)%nat then Ok Boolean
      else
        let max_len := max_length (map py_str sample) in
        Ok (if (255 <? max_len)%nat then Text else String255)
  end.

(** Lines 372 to 375 *)
Definition date_column_type (col_lower : string) : sqltype :=
  if str_contains "date" col_lower && negb (str_contains "time" col_lower)
  then Date else DateTimeTz.

(** Lines 379 to 384 *)
Definition numeric_column_type (s : Series) : sqltype :=
  if is_int_dtype s then Integer
  else if is_float_dtype s then Float
  else String255.

(** Lines 388 to 398 *)
Definition object_column_type (col_lower : string) (s : Series) : sqltype :=
  match head_n 10 (dropna (object_values s)) with
  | [] => String255
  | first :: _ =>
      let first_val := py_str first in
      if startswith first_val "[" || startswith first_val "{" then Text
      else if str_contains "notes" col_lower || str_contains "description" col_lower
              || (255 <? String.length first_val)%nat
      then Text
      else String255
  end.

(** The body of the loop of [generate_dtype_mapping] for the column [col]. *)
Definition column_type (col : string) (s : Series) : result sqltype :=
  let col_lower := lower col in
  if endswith col "_id" || endswith col "_ids" then
    Ok (if negb (endswith col "_ids") then Integer else Text)
  else if any_in bool_patterns col_lower then boolean_column_type s
  else if str_contains "date" col_lower || endswith col "_at" then
    Ok (date_column_type col_lower)
  else if any_in numeric_patterns col_lower then Ok (numeric_column_type s)
  else if is_object s then Ok (object_column_type col_lower s)
  else if is_bool_dtype s then Ok Boolean
  else if is_int_dtype s then Ok Integer
  else if is_float_dtype s then Ok Float
  else Ok String255.

Definition generate_dtype_mapping (df : DataFrame)
  : result (list (string * sqltype)) :=
  mapM (fun c => t <- column_type (fst c) (snd c) ;; Ok (fst c, t)) df.

(** *** The rules as an ordered list

    The tests of [generate_dtype_mapping] read as the numbered rules of the
    specification: each rule has a guard and an outcome, and the type of a
    column is the outcome of the first rule, in this order, whose guard
    holds; a column no rule claims is a short text. *)

Record rule := {
  guard : string -> Series -> bool;
  outcome : string -> Series -> result sqltype
}.

(** The text of the first value of an object column, among the first ten
    that are not missing: what rules 5 and 6 look at. *)
Definition first_text (s : Series) : option string :=
  match head_n 10 (dropna (object_values s)) with
  | [] => None
  | first :: _ => Some (py_str first)
  end.

Definition holds_serialized_structure (s : Series) : bool :=
  is_object s &&
  match first_text s with
  | Some t => startswith t "[" || startswith t "{"
  | None => false
  end.

Definition holds_long_text (col : string) (s : Series) : bool :=
  is_object s &&
  match first_text s with
  | Some t =>
      str_contains "notes" (lower col) || str_contains "description" (lower col)
      || (255 <? String.length t)%nat
  | None => false
  end.

Definition inference_rules : list rule :=
  [ (* 1 *)
    {| guard := fun col _ => endswith col "_id";
       outcome := fun _ _ => Ok Integer |};
    {| guard := fun col _ => endswith col "_ids";
       outcome := fun _ _ => Ok Text |};
    (* 2 *)
    {| guard := fun col _ => any_in bool_patterns (lower col);
       outcome := fun _ s => boolean_column_type s |};
    (* 3 *)
    {| guard := fun col _ => str_contains "date" (lower col) || endswith col "_at";
       outcome := fun col _ => Ok (date_column_type (lower col)) |};
    (* 4 *)
    {| guard := fun col _ => any_in numeric_patterns (lower col);
       outcome := fun _ s => Ok (numeric_column_type s) |};
    (* 5 *)
    {| guard := fun _ s => holds_serialized_structure s;
       outcome := fun _ _ => Ok Text |};
    (* 6 *)
    {| guard := fun col s => holds_long_text col s;
       outcome := fun _ _ => Ok Text |};
    (* 7 *)
    {| guard := fun _ s => is_object s; outcome := fun _ _ => Ok String255 |};
    {| guard := fun _ s => is_bool_dtype s; outcome := fun _ _ => Ok Boolean |};
    {| guard := fun _ s => is_int_dtype s; outcome := fun _ _ => Ok Integer |};
    {| guard := fun _ s => is_float_dtype s; outcome := fun _ _ => Ok Float |} ].

Fixpoint first_match (rules : list rule) (col : string) (s : Series)
  : result sqltype :=
  match rules with
  | [] => Ok String255
  | r :: rest =>
      if guard r col s then outcome r col s else first_match rest col s
  end.

(** The two texts of the boolean example, and a note of 300 characters. *)
Definition true_or_false (v : pyval) : Prop :=
  v = PStr "true" \/ v = PStr "false".

Definition long_note : string := text (repeat "x"%char 300).

(** ** [convert_timestamps_to_timezone] *)

Section ConvertTimestamps.

(** Whether [pytz.timezone(name)] knows the zone, and
    [pd.to_datetime(values, errors='coerce', utc=True)]: the instants of the
    values, [None] (NaT) for those that do not parse; the call itself may
    raise.  Nothing is assumed of either. *)
Variable known_timezone : string -> bool.
Variable to_datetime_utc : list pyval -> result (list (option Z)).

Definition is_nat {A : Type} (v : option A) : bool :=
  match v with Some _ => false | None => true end.

(** [s.isna().all()] *)
Definition series_all_na (s : Series) : bool :=
  match s with
  | ObjectSeries vals => forallb isna vals
  | DatetimeSeries _ vals => forallb is_nat vals
  | TypedSeries _ vals => forallb isna vals
  end.

(** [parsed.notna().sum()] *)
Definition count_notna (parsed : list (option Z)) : nat :=
  List.length (filter (fun v => negb (is_nat v)) parsed).

(** Lines 167 to 171 *)
Definition looks_like_timestamp (s : string) : bool :=
  str_contains "T" s
  || (str_contains ":" s && (15 <? String.length s)%nat)
  || endswith s "Z"
  || (str_contains "-" s && (3 <=? count_char "-"%char s + 1)%nat
      && str_contains ":" s).

(** Lines 180 to 184 *)
Definition has_time_info (val : pyval) : bool :=
  str_contains "T" (py_str val) || str_contains ":" (py_str val)
  || endswith (py_str val) "Z"
  || match val with
     | PStr v =>
         (15 <? String.length v)%nat
         || (str_contains "-" v && (2 <=? count_char ":"%char v)%nat)
     | _ => false
     end.

(** Lines 165 to 190, the body of the try block for an object column.  The
    test [success_rate >= 0.7] is the comparison of integers
    [10 * parsed >= 7 * len(sample)]: for a sample of at most 50 values the
    two agree. *)
Definition convert_object_column (target : string) (vals sample : list pyval)
  : result Series :=
  let unchanged := ObjectSeries vals in
  if negb (existsb looks_like_timestamp (map py_str (head_n 10 sample)))
  then Ok unchanged else
  parsed <- to_datetime_utc sample ;;
  if (7 * List.length sample <=? 10 * count_notna parsed)%nat then
    if existsb has_time_info (head_n 10 sample) then
      parsed_full <- to_datetime_utc vals ;;
      if (0 <? count_notna parsed_full)%nat
      then Ok (DatetimeSeries (Some target) parsed_full)
      else Ok unchanged
    else Ok unchanged
  else Ok unchanged.

(** One iteration of the loop of lines 144 to 193.  A datetime column keeps
    its instants and takes the target zone ([tz_convert], after
    [tz_localize('UTC')] when it has no zone). *)
Definition convert_column (target : string) (s : Series) : Series :=
  if series_all_na s then s else
  match s with
  | DatetimeSeries _ vals => DatetimeSeries (Some target) vals
  | ObjectSeries vals =>
      match head_n 50 (dropna vals) with
      | [] => s
      | sample =>
          match convert_object_column target vals sample with
          | Ok s' => s'
          | Raise _ => s
          end
      end
  | TypedSeries _ _ => s
  end.

Definition convert_timestamps_to_timezone (df : DataFrame) (df_name : string)
    (target_timezone : string) : result DataFrame :=
  if known_timezone target_timezone
  then Ok (map (fun c => (fst c, convert_column target_timezone (snd c))) df)
  else raise_of UnknownTimeZoneError.

End ConvertTimestamps.

(** ** An example table and stand-ins for the two library calls *)

Definition example_instant : Z := 1704103200000000000.

(** A parser that knows one text. *)
Definition example_to_datetime (vals : list pyval) : result (list (option Z)) :=
  Ok (map (fun v =>
             match v with
             | PStr s =>
                 if String.eqb s "2024-01-01T10:00:00Z" then Some example_instant
                 else None
             | _ => None
             end) vals).

Definition example_table : DataFrame :=
  [("created_at", ObjectSeries [PStr "2024-01-01T10:00:00Z"; PNone;
                                PStr "2024-01-01T10:00:00Z"]);
   ("updated_at", DatetimeSeries None [Some 5%Z; None; Some 7%Z]);
   ("name", ObjectSeries [PStr "Ann"; PStr "Bob"; PStr "Cy"]);
   ("number", TypedSeries Int64Dtype [PInt 1; PInt 2; PInt 3])].

Definition example_table_converted : DataFrame :=
  [("created_at",
    DatetimeSeries (Some "US/Central")
      [Some example_instant; None; Some example_instant]);
   ("updated_at", DatetimeSeries (Some "US/Central") [Some 5%Z; None; Some 7%Z]);
   ("name", ObjectSeries [PStr "Ann"; PStr "Bob"; PStr "Cy"]);
   ("number", TypedSeries Int64Dtype [PInt 1; PInt 2; PInt 3])].

Local Close Scope string_scope.

(** * backend/app/etl/pco_client.py *)

Local Open Scope string_scope.

Definition BASE_URL : string := "https://api.planningcenteronline.com".

Definition max_retries : nat := 5.

(** [','.join(include)] *)
Fixpoint join_strings (sep : string) (parts : list string) : string :=
  match parts with
  | [] => ""
  | [p] => p
  | p :: rest => p ++ sep ++ join_strings sep rest
  end.

(** [len(v)] *)
Definition py_len (v : pyval) : result nat :=
  match v with
  | PList l => Ok (List.length l)
  | PDict d => Ok (List.length d)
  | PStr s => Ok (String.length s)
  | _ => raise_of TypeError
  end.

(** The digits of [int(text)] once underscores between digits are removed;
    [None] when an underscore is misplaced or a character is not a digit. *)
Fixpoint int_digits (l : list ascii) (after_digit : bool) : option (list ascii) :=
  match l with
  | [] => if after_digit then Some [] else None
  | c :: r =>
      if is_ascii_digit c then
        match int_digits r true with
        | Some ds => Some (c :: ds)
        | None => None
        end
      else if Ascii.eqb c "_"%char && after_digit then
        match r with
        | d :: _ => if is_ascii_digit d then int_digits r false else None
        | [] => None
        end
      else None
  end.

(** [int(text)] for a text: surrounding whitespace, an optional sign, decimal
    digits. *)
Definition py_int_text (s : string) : result Z :=
  let l := chars (strip s) in
  let '(negative, body) :=
    match l with
    | c :: r =>
        if Ascii.eqb c "-"%char then (true, r)
        else if Ascii.eqb c "+"%char then (false, r)
        else (false, l)
    | [] => (false, l)
    end in
  match int_digits body false with
  | Some ds =>
      let n := Z.of_N (digits_N ds) in Ok (if negative then (- n)%Z else n)
  | None => raise_of ValueError
  end.

(** A response of the session, as far as [get] reads it: the status code, the
    [Retry-After] header and what [response.json()] returns or raises. *)
Record response := {
  status_code : nat;
  retry_after : option string;
  json : result pyval
}.

(** What one call of a session's [get(url, params=params, timeout=30)] does:
    it returns a response or raises. *)
Inductive attempt :=
| Returns (r : response)
| Raises (e : exn).



(** A wait, in milliseconds. *)
Definition seconds (n : Z) : Z := (1000 * n)%Z.

(** [time.sleep(n)] for a number of seconds: a negative length raises. *)
Definition sleep_seconds (n : Z) : result Z :=
  if (n <? 0)%Z then raise_of ValueError else Ok (seconds n).

(** [_handle_rate_limit] for a response with status 429: the wait it makes. *)
Definition _handle_rate_limit (r : response) : result Z :=
  retry_after <-
    match retry_after r with
    | Some header => py_int_text header
    | None => Ok 60%Z
    end ;;
  sleep_seconds retry_after.

(** [response.raise_for_status()]: a status from 400 to 599 raises an
    [HTTPError], which is a [RequestException]. *)
Definition raise_for_status (r : response) : result unit :=
  if (400 <=? status_code r)%nat && (status_code r <? 600)%nat
  then Raise (Exn RequestException ("HTTP error " ++ text (N_digits (N.of_nat (status_code r)))))
  else Ok tt.

(** What the body of the try block (lines 98 to 118) makes of one attempt. *)
Inductive verdict :=
| Success (json_data : pyval)      (* return json_data *)
| RateLimited (wait : Z)           (* status 429: wait, count, continue *)
| RequestFailed (e : exn)          (* a RequestException, caught on line 120 *)
| Fatal (e : exn).                 (* any other exception: it leaves [get] *)

Definition of_exception (e : exn) : verdict :=
  match exn_kind e with
  | RequestException => RequestFailed e
  | _ => Fatal e
  end.

Definition after_response (r : response) : result pyval :=
  _ <- raise_for_status r ;;
  json_data <- json r ;;
  data <- py_get json_data "data" (PList []) ;;
  data_count <- py_len data ;;
  included <- py_get json_data "included" (PList []) ;;
  included_count <- py_len included ;;
  Ok json_data.

Definition classify (a : attempt) : verdict :=
  match a with
  | Raises e => of_exception e
  | Returns r =>
      if Nat.eqb (status_code r) 429 then
        match _handle_rate_limit r with
        | Ok wait => RateLimited wait
        | Raise e => of_exception e
        end
      else
        match after_response r with
        | Ok json_data => Success json_data
        | Raise e => of_exception e
        end
  end.

(** A request of the session: the URL and the query parameters. *)
Definition request := (string * dict)%type.


(** What a call of [get] leaves behind: its result, the waits it made in
    order, and the requests it sent in order. *)
Record get_run := {
  returned : result pyval;
  waits : list Z;
  sent : list request
}.

Section Get.

(** The session: what its [n]-th call (from 0) within one call of [get] does
    with a request.  [get] is written for any session; the client's own is
    [mounted]. *)
Variable session_get : nat -> request -> attempt.

(** The loop of lines 96 to 128; [remaining] is [max_retries - retry_count]. *)
Fixpoint get_loop (remaining retry_count : nat) (req : request)
    (waits : list Z) (sent : list request) : get_run :=
  match remaining with
  | O =>
      {| returned :=
           Raise (Exn PlainException
                    ("Failed to fetch " ++ fst req ++ " after 5 retries"));
         waits := waits; sent := sent |}
  | S remaining' =>
      let sent := (sent ++ [req])%list in
      match classify (session_get retry_count req) with
      | Success json_data =>
          {| returned := Ok json_data; waits := waits; sent := sent |}
      | RateLimited wait =>
          get_loop remaining' (S retry_count) req (waits ++ [wait])%list sent
      | RequestFailed e =>
          let retry_count := S retry_count in
          if (max_retries <=? retry_count)%nat
          then {| returned := Raise e; waits := waits; sent := sent |}
          else
            get_loop remaining' retry_count req
              (waits ++ [seconds (2 ^ Z.of_nat retry_count)])%list sent
      | Fatal e => {| returned := Raise e; waits := waits; sent := sent |}
      end
  end.

(** The parameters [get] sends: [params['include'] = ','.join(include)] when
    [include] is not empty. *)
Definition with_include (params : dict) (include : list string) : dict :=
  match include with
  | [] => params
  | _ => dict_set "include" (PStr (join_strings "," include)) params
  end.

Definition get (endpoint : string) (params : dict) (include : list string)
  : get_run :=
  let url := BASE_URL ++ endpoint in
  get_loop max_retries 0 (url, with_include params include) [] [].

End Get.

(** ** [get_all_pages] *)

(** What a call of [get_all_pages] leaves behind: its result and the
    parameters of each call of [get], in order. *)
Record pagination := {
  records : result (list pyval);
  requested : list dict
}.

Section GetAllPages.

(** [self.get(endpoint, params=params, include=include)] for the call number
    [page_num] (from 1): the response it returns, or the exception it raises. *)
Variable get_page : nat -> dict -> result pyval.

Variable include : list string.

(** Lines 169 to 186 for one response: the items it adds, and whether the
    loop goes on (with the number of items to add to the offset). *)
Definition read_page (response : pyval) : result (list pyval * option nat) :=
  data_items <- py_get response "data" (PList []) ;;
  if negb (truthy data_items) then Ok ([], None) else
  items <- py_iter data_items ;;
  links <- py_get response "links" (PDict []) ;;
  has_next <- py_contains "next" links ;;
  if negb has_next then Ok (items, None) else
  next <- py_getitem links "next" ;;
  if negb (truthy next) then Ok (items, None) else
  n <- py_len data_items ;;
  Ok (items, Some n).

(** The loop of lines 160 to 189.  The dictionary [params] is the one object
    [get] also writes its [include] entry into.  [fuel] bounds the number of
    pages: the loop of the source has no bound of its own. *)
Fixpoint pages_loop (fuel page_num : nat) (params : dict) (offset : Z)
    (all_data : list pyval) (requested : list dict) : option pagination :=
  match fuel with
  | O => None
  | S fuel' =>
      let params := dict_set "offset" (PInt offset) params in
      let requested := (requested ++ [params])%list in
      match get_page page_num params with
      | Raise e => Some {| records := Raise e; requested := requested |}
      | Ok response =>
          let params := with_include params include in
          match read_page response with
          | Raise e => Some {| records := Raise e; requested := requested |}
          | Ok (items, None) =>
              Some {| records := Ok (all_data ++ items)%list; requested := requested |}
          | Ok (items, Some n) =>
              pages_loop fuel' (S page_num) params (offset + Z.of_nat n)
                (all_data ++ items)%list requested
          end
      end
  end.

Definition get_all_pages (fuel : nat) (params : dict) (per_page : Z)
  : option pagination :=
  let params := dict_set "per_page" (PInt (Z.min per_page 100)) params in
  pages_loop fuel 1 params 0 [] [].

End GetAllPages.

Local Close Scope string_scope.

(** ** Notions used to state the properties of the client *)

(** A session whose first call fails to connect and whose second is answered
    200 with two people. *)
Definition connection_error : exn := Exn RequestException "connection refused".

Definition two_people : pyval :=
  PDict [("data"%string, PList [PDict [("id"%string, PStr "1")];
                                PDict [("id"%string, PStr "2")]])].

Definition session_error_then_ok (n : nat) (_ : request) : attempt :=
  match n with
  | O => Raises connection_error
  | _ => Returns {| status_code := 200; retry_after := None; json := Ok two_people |}
  end.



Section PaginationProps.

Variable get_page : nat -> dict -> result pyval.
Variable include : list string.

(** The server answers the calls of [get] from number [page_num] on with the
    given pages, each of which makes the loop go on, and then with [last]. *)
Fixpoint serves (page_num : nat) (params : dict) (offset : Z)
    (pages : list (pyval * list pyval)) (last : pyval) : Prop :=
  let params := dict_set "offset" (PInt offset) params in
  match pages with
  | [] => get_page page_num params = Ok last
  | (response, items) :: rest =>
      get_page page_num params = Ok response /\
      read_page response = Ok (items, Some (List.length items)) /\
      serves (S page_num) (with_include params include)
        (offset + Z.of_nat (List.length items)) rest last
  end.

(** The parameters of the successive calls when the pages have the given
    sizes. *)
Fixpoint expected_requests (params : dict) (offset : Z) (sizes : list nat)
  : list dict :=
  let params := dict_set "offset" (PInt offset) params in
  match sizes with
  | [] => [params]
  | n :: rest =>
      params :: expected_requests (with_include params include)
                  (offset + Z.of_nat n) rest
  end.

End PaginationProps.

(** The number of items on the pages before page [k]. *)
Definition items_before (sizes : list nat) (k : nat) : Z :=
  Z.of_nat (list_sum (firstn k sizes)).

(** The three pages of the example: two items, one item, and an empty page. *)
Definition three_pages (page_num : nat) (_ : dict) : result pyval :=
  match page_num with
  | 1 =>
      Ok (PDict [("data"%string, PList [PStr "a"; PStr "b"]);
                 ("links"%string, PDict [("next"%string, PStr "page 2")])])
  | 2 =>
      Ok (PDict [("data"%string, PList [PStr "c"]);
                 ("links"%string, PDict [("next"%string, PStr "page 3")])])
  | _ => Ok (PDict [("data"%string, PList [])])
  end.

(** * backend/app/models/refresh_job.py *)

Inductive job_status := pending | running | completed | failed.

(** The fields of [DataRefreshJob] the orchestrator writes; the two
    timestamps are kept as flags. *)
Record DataRefreshJob := {
  status : job_status;
  started_at : bool;
  completed_at : bool;
  total_endpoints : option nat;
  completed_endpoints : nat;
  current_endpoint : option string;
  records_fetched : nat;
  error_message : option string
}.

Definition new_job : DataRefreshJob :=
  {| status := pending; started_at := false; completed_at := false;
     total_endpoints := None; completed_endpoints := 0;
     current_endpoint := None; records_fetched := 0; error_message := None |}.

Definition mark_started (j : DataRefreshJob) : DataRefreshJob :=
  {| status := running; started_at := true; completed_at := completed_at j;
     total_endpoints := total_endpoints j;
     completed_endpoints := completed_endpoints j;
     current_endpoint := current_endpoint j;
     records_fetched := records_fetched j; error_message := error_message j |}.

Definition mark_completed (fetched : nat) (j : DataRefreshJob) : DataRefreshJob :=
  {| status := completed; started_at := started_at j; completed_at := true;
     total_endpoints := total_endpoints j;
     completed_endpoints := completed_endpoints j;
     current_endpoint := current_endpoint j;
     records_fetched := fetched; error_message := error_message j |}.

Definition mark_failed (message : string) (j : DataRefreshJob) : DataRefreshJob :=
  {| status := failed; started_at := started_at j; completed_at := true;
     total_endpoints := total_endpoints j;
     completed_endpoints := completed_endpoints j;
     current_endpoint := current_endpoint j;
     records_fetched := records_fetched j; error_message := Some message |}.

Definition update_progress (endpoint : string) (done : nat) (j : DataRefreshJob)
  : DataRefreshJob :=
  {| status := status j; started_at := started_at j;
     completed_at := completed_at j; total_endpoints := total_endpoints j;
     completed_endpoints := done; current_endpoint := Some endpoint;
     records_fetched := records_fetched j; error_message := error_message j |}.

Definition set_total_endpoints (n : nat) (j : DataRefreshJob) : DataRefreshJob :=
  {| status := status j; started_at := started_at j;
     completed_at := completed_at j; total_endpoints := Some n;
     completed_endpoints := completed_endpoints j;
     current_endpoint := current_endpoint j;
     records_fetched := records_fetched j; error_message := error_message j |}.

(** * The orchestrator, [DataSyncService.run_sync] *)

Local Open Scope string_scope.

Record endpoint_config := {
  endpoint : string;
  includes : list string;
  table_name : string
}.

Definition DASHBOARD_ENDPOINTS : list (string * endpoint_config) :=
  [("people",
    {| endpoint := "/people/v2/people"; includes := ["emails"; "phone_numbers"];
       table_name := "PC_PEOPLE" |});
   ("check_ins",
    {| endpoint := "/check-ins/v2/check_ins";
       includes := ["event_times"; "locations"; "person"];
       table_name := "PC_CHECKINS" |});
   ("events",
    {| endpoint := "/check-ins/v2/events"; includes := [];
       table_name := "PC_EVENTS" |});
   ("event_times",
    {| endpoint := "/check-ins/v2/event_times"; includes := ["event"];
       table_name := "PC_EVENT_TIMES" |})].

(** The calls of [self.db.commit()] in [run_sync]. *)
Inductive commit_site :=
| CommitStarted               (* line 119, after [mark_started] *)
| CommitProgress (i : nat)    (* line 133, before the fetch of endpoint [i] *)
| CommitCompleted             (* line 151, after [mark_completed] *)
| CommitFailed.               (* line 159, in the handler *)

(** The steps of a run, as the trace records them. *)
Inductive step :=
| StepStarted
| StepCommit (site : commit_site)
| StepInitClient
| StepTestConnection
| StepFetch (name : string)
| StepExplode
| StepEnrichEventTimes
| StepEnrichCheckins
| StepLoad
| StepLogCompleted
| StepCompleted
| StepFailed.

(** What the collaborators of one run do.  [commit] is what each call of
    [self.db.commit()] returns or raises.  [has_credentials] is what reading
    [self.tenant.has_credentials] gives: the tenant is read after a commit,
    so the read goes to the database and may raise.  Then: what
    [decrypt_credential] returns or raises for each credential, what the
    connection test's request returns or raises, what the body of the try
    block of [_fetch_endpoint] returns (the number of records) or raises for
    each endpoint, and whether each enrichment stage and the load stage
    raises.  [log_completed] and [log_failed] are the log lines 153 and 157,
    which read [self.tenant.id] to build their message.  [_explode_checkins]
    has no entry: it returns whatever the tables are. *)
Record environment := {
  commit : commit_site -> result unit;
  has_credentials : result bool;
  decrypt_app_id : result string;
  decrypt_secret : result string;
  connection_probe : result pyval;
  fetch_body : string -> result nat;
  enrich_event_times : result unit;
  enrich_checkins : result unit;
  load_to_database : result unit;
  log_completed : result unit;
  log_failed : result unit
}.

(** The state a run threads: the values written to the job record, whether
    the tenant's [last_data_refresh] was stamped, and the steps taken so
    far. *)
Record run_state := {
  job : DataRefreshJob;
  last_data_refresh : bool;
  trace : list step
}.

(** Computations that read and write the state and may raise. *)
Definition run (A : Type) : Type := run_state -> result A * run_state.

Definition ret {A : Type} (a : A) : run A := fun st => (Ok a, st).

Definition raise {A : Type} (e : exn) : run A := fun st => (Raise e, st).

Definition and_then {A B : Type} (m : run A) (k : A -> run B) : run B :=
  fun st =>
    match m st with
    | (Ok a, st') => k a st'
    | (Raise e, st') => (Raise e, st')
    end.

Notation "x <~ m ;; k" := (and_then m (fun x => k))
  (at level 61, m at next level, right associativity).
Notation "m ;;; k" := (and_then m (fun _ => k))
  (at level 61, right associativity).

Definition log (s : step) : run unit :=
  fun st =>
    (Ok tt, {| job := job st; last_data_refresh := last_data_refresh st;
               trace := (trace st ++ [s])%list |}).

(** An assignment to attributes of the job record. *)
Definition update_job (f : DataRefreshJob -> DataRefreshJob) : run unit :=
  fun st =>
    (Ok tt, {| job := f (job st); last_data_refresh := last_data_refresh st;
               trace := trace st |}).

Definition stamp_last_data_refresh : run unit :=
  fun st => (Ok tt, {| job := job st; last_data_refresh := true; trace := trace st |}).

(** The outcome of a collaborator, raised when it is an exception. *)
Definition lift {A : Type} (r : result A) : run A := fun st => (r, st).

(** [try: body except Exception as e: handler(e)] *)
Definition catch {A : Type} (body : run A) (handler : exn -> run A) : run A :=
  fun st =>
    match body st with
    | (Ok a, st') => (Ok a, st')
    | (Raise e, st') => handler e st'
    end.

Section RunSync.

Variable env : environment.

(** [self.db.commit()] *)
Definition db_commit (site : commit_site) : run unit :=
  log (StepCommit site) ;;;
  lift (commit env site).

(** [_init_client] *)
Definition _init_client : run unit :=
  log StepInitClient ;;;
  configured <~ lift (has_credentials env) ;;
  if negb configured
  then raise (Exn PlainException "PCO credentials not configured")
  else
    app_id <~ lift (decrypt_app_id env) ;;
    secret <~ lift (decrypt_secret env) ;;
    ret tt.

(** [PCOClient.test_connection]: the pair of a success flag and a message. *)
Definition test_connection : run (bool * option string) :=
  log StepTestConnection ;;;
  match connection_probe env with
  | Ok _ => ret (true, None)
  | Raise e => ret (false, Some (exn_msg e))
  end.

(** [_fetch_endpoint]: an exception of its body is logged and the endpoint
    counts for zero records. *)
Definition _fetch_endpoint (name : string) (config : endpoint_config) : run nat :=
  log (StepFetch name) ;;;
  catch (lift (fetch_body env name)) (fun _ => ret 0).

(** The loop of lines 131 to 136. *)
Fixpoint fetch_all (endpoints : list (string * endpoint_config)) (i : nat)
    (total_records : nat) : run nat :=
  match endpoints with
  | [] => ret total_records
  | (name, config) :: rest =>
      update_job (update_progress (endpoint config) i) ;;;
      db_commit (CommitProgress i) ;;;
      records <~ _fetch_endpoint name config ;;
      fetch_all rest (S i) (total_records + records)
  end.

(** The body of the try block of [run_sync], lines 116 to 154.  The explode
    step returns for every set of tables, so the run records only that it
    was taken. *)
Definition run_sync_body : run bool :=
  log StepStarted ;;;
  update_job mark_started ;;;
  update_job (set_total_endpoints (List.length DASHBOARD_ENDPOINTS)) ;;;
  db_commit CommitStarted ;;;
  _init_client ;;;
  probe <~ test_connection ;;
  (let '(success, error) := probe in
   if negb success
   then raise (Exn PlainException
                 ("PCO connection failed: " ++
                  match error with Some m => m | None => "None" end))
   else ret tt) ;;;
  total_records <~ fetch_all DASHBOARD_ENDPOINTS 0 0 ;;
  log StepExplode ;;;
  log StepEnrichEventTimes ;;; lift (enrich_event_times env) ;;;
  log StepEnrichCheckins ;;; lift (enrich_checkins env) ;;;
  log StepLoad ;;; lift (load_to_database env) ;;;
  stamp_last_data_refresh ;;;
  update_job (mark_completed total_records) ;;;
  db_commit CommitCompleted ;;;
  log StepLogCompleted ;;; lift (log_completed env) ;;;
  log StepCompleted ;;;
  ret true.

(** [run_sync]: the handler of lines 156 to 160 logs, marks the job failed
    and commits.  It is not itself inside a try block: what its log line or
    its commit raises leaves [run_sync]. *)
Definition run_sync : run bool :=
  catch run_sync_body
    (fun e =>
       log StepFailed ;;;
       lift (log_failed env) ;;;
       update_job (mark_failed (exn_msg e)) ;;;
       db_commit CommitFailed ;;;
       ret false).

End RunSync.

Definition initial_state : run_state :=
  {| job := new_job; last_data_refresh := false; trace := [] |}.

(** ** Notions used to state the properties of a run *)

(** What the credential step raises, if anything: the read of the tenant,
    credentials that are missing, or a decryption. *)
Definition credential_step (env : environment) : result unit :=
  configured <- has_credentials env ;;
  if negb configured
  then Raise (Exn PlainException "PCO credentials not configured")
  else
    _ <- decrypt_app_id env ;;
    _ <- decrypt_secret env ;;
    Ok tt.

(** What the connection test makes [run_sync] raise, if anything. *)
Definition connection_test (env : environment) : result unit :=
  match connection_probe env with
  | Ok _ => Ok tt
  | Raise e => Raise (Exn PlainException ("PCO connection failed: " ++ exn_msg e))
  end.

(** The steps of the try block whose exception reaches the handler of
    [run_sync], in the order of the run, each with its outcome.  The fetches
    are not among them. *)
Definition fallible_steps (env : environment) : list (step * result unit) :=
  [(StepCommit CommitStarted, commit env CommitStarted);
   (StepInitClient, credential_step env);
   (StepTestConnection, connection_test env);
   (StepCommit (CommitProgress 0), commit env (CommitProgress 0));
   (StepCommit (CommitProgress 1), commit env (CommitProgress 1));
   (StepCommit (CommitProgress 2), commit env (CommitProgress 2));
   (StepCommit (CommitProgress 3), commit env (CommitProgress 3));
   (StepEnrichEventTimes, enrich_event_times env);
   (StepEnrichCheckins, enrich_checkins env);
   (StepLoad, load_to_database env);
   (StepCommit CommitCompleted, commit env CommitCompleted);
   (StepLogCompleted, log_completed env)].

Fixpoint first_raised (steps : list (step * result unit)) : option (step * exn) :=
  match steps with
  | [] => None
  | (s, Raise e) :: _ => Some (s, e)
  | (_, Ok _) :: rest => first_raised rest
  end.

(** The exception that fails a run, with the step that raises it. *)
Definition fatal_exception (env : environment) : option (step * exn) :=
  first_raised (fallible_steps env).

(** The steps of a complete run, in order. *)
Definition all_steps : list step :=
  [StepStarted; StepCommit CommitStarted; StepInitClient; StepTestConnection;
   StepCommit (CommitProgress 0); StepFetch "people";
   StepCommit (CommitProgress 1); StepFetch "check_ins";
   StepCommit (CommitProgress 2); StepFetch "events";
   StepCommit (CommitProgress 3); StepFetch "event_times";
   StepExplode; StepEnrichEventTimes; StepEnrichCheckins; StepLoad;
   StepCommit CommitCompleted; StepLogCompleted].

Definition commit_site_eqb (a b : commit_site) : bool :=
  match a, b with
  | CommitStarted, CommitStarted | CommitCompleted, CommitCompleted
  | CommitFailed, CommitFailed => true
  | CommitProgress i, CommitProgress j => Nat.eqb i j
  | _, _ => false
  end.

Definition step_eqb (a b : step) : bool :=
  match a, b with
  | StepStarted, StepStarted | StepInitClient, StepInitClient
  | StepTestConnection, StepTestConnection | StepExplode, StepExplode
  | StepEnrichEventTimes, StepEnrichEventTimes
  | StepEnrichCheckins, StepEnrichCheckins | StepLoad, StepLoad
  | StepLogCompleted, StepLogCompleted
  | StepCompleted, StepCompleted | StepFailed, StepFailed => true
  | StepFetch x, StepFetch y => String.eqb x y
  | StepCommit x, StepCommit y => commit_site_eqb x y
  | _, _ => false
  end.

(** The steps of a run up to and including [s]. *)
Fixpoint steps_through (s : step) (steps : list step) : list step :=
  match steps with
  | [] => []
  | x :: rest => if step_eqb x s then [x] else x :: steps_through s rest
  end.

(** The records an endpoint contributes: none when its fetch raises. *)
Definition contributed (env : environment) (name : string) : nat :=
  match fetch_body env name with
  | Ok n => n
  | Raise _ => 0
  end.

Definition total_contributed (env : environment) : nat :=
  list_sum (map (fun e => contributed env (fst e)) DASHBOARD_ENDPOINTS).

(** A run in which the fetch of the check-ins raises and nothing else does. *)
Definition env_with_failing_fetch : environment :=
  {| commit := fun _ => Ok tt;
     has_credentials := Ok true;
     decrypt_app_id := Ok "app"; decrypt_secret := Ok "secret";
     connection_probe := Ok (PDict []);
     fetch_body := fun name =>
       if String.eqb name "check_ins"
       then Raise (Exn RequestException "timeout") else Ok 10;
     enrich_event_times := Ok tt; enrich_checkins := Ok tt;
     load_to_database := Ok tt;
     log_completed := Ok tt; log_failed := Ok tt |}.

(** A run in which the database refuses the commit of the progress before
    the second endpoint, and nothing else raises; [handler_commit] is what the
    commit of the handler does afterwards. *)
Definition connection_lost : exn :=
  Exn PlainException "server closed the connection unexpectedly".

Definition env_with_failing_commit (handler_commit : result unit) : environment :=
  {| commit := fun site =>
       match site with
       | CommitProgress 1 => Raise connection_lost
       | CommitFailed => handler_commit
       | _ => Ok tt
       end;
     has_credentials := Ok true;
     decrypt_app_id := Ok "app"; decrypt_secret := Ok "secret";
     connection_probe := Ok (PDict []);
     fetch_body := fun _ => Ok 10;
     enrich_event_times := Ok tt; enrich_checkins := Ok tt;
     load_to_database := Ok tt;
     log_completed := Ok tt; log_failed := Ok tt |}.

Local Close Scope string_scope.

(** ** Further notions for the flattener *)

(** A data item the loop of line 62 can read: a JSON object. *)
Definition is_object_item (item : pyval) : bool :=
  match item with
  | PDict _ => true
  | _ => false
  end.

(** The id a reference or an item gives is not itself a list or an object. *)
Definition scalar_id (d : dict) : bool :=
  match dict_get d "id" with
  | Some i => negb (is_complex i)
  | None => true
  end.

Definition scalar_reference (rel_item : pyval) : bool :=
  match rel_item with
  | PDict d => scalar_id d
  | _ => true
  end.

Definition scalar_references (rel_data : pyval) : bool :=
  match references_of rel_data with
  | Some rel_items => forallb scalar_reference rel_items
  | None => true
  end.

(** The ids of an item and of the references of its relationships are
    scalars, as JSON:API has them. *)
Definition scalar_ids (item : pyval) : bool :=
  match item with
  | PDict d =>
      scalar_id d &&
      match dict_get d "relationships" with
      | Some (PDict rels) => forallb (fun rel => scalar_references (snd rel)) rels
      | _ => true
      end
  | _ => true
  end.

Definition all_scalar_ids (response : pyval) : bool :=
  match data_items_of response with
  | Ok items => forallb scalar_ids items
  | Raise _ => true
  end.

(** Every cell of a row is a scalar. *)
Definition scalar_row (row : dict) : Prop :=
  Forall (fun cell => is_complex (snd cell) = false) row.

(** The state of the loop over the references of a relationship: the row
    and the ids collected so far hold scalars only. *)
Definition scalar_state (st : dict * list pyval) : Prop :=
  scalar_row (fst st) /\ Forall (fun i => is_complex i = false) (snd st).

(** A column no relationship writes: it is neither the id column nor the ids
    column of a relationship, and no reference inlines an attribute into it. *)
Definition untouched_by (included_lookup : dict) (c : string)
    (rels : list (string * pyval)) : Prop :=
  Forall (fun rel => ~ In c (inlined_columns included_lookup (snd rel)) /\
                     c <> (fst rel ++ "_id")%string /\
                     c <> (fst rel ++ "_ids")%string) rels.

(** A person with a list-valued and an object-valued attribute. *)
Definition person_with_structures : pyval :=
  PDict
    [("id"%string, PStr "11"); ("type"%string, PStr "Person");
     ("attributes"%string,
      PDict [("name"%string, PStr "Ann");
             ("tags"%string, PList [PStr "a"; PInt 2; PNone]);
             ("address"%string, PDict [("city"%string, PStr "Paradise")])])].

Definition response_with_structures : pyval :=
  PDict [("data"%string, PList [person_with_structures])].

(** A page whose second item is a string. *)
Definition response_with_text_item : pyval :=
  PDict [("data"%string, PList [person_with_structures; PStr "oops"])].

(** ** Further notions for the tables *)

(** No cell of an object column of the table is a list or a dictionary. *)
Definition scalar_frame (df : DataFrame) : bool :=
  forallb (fun c => negb (existsb is_complex (object_values (snd c)))) df.

(** The tables of a run in which the check-ins have no link-ids column. *)
Definition tables_without_link_ids : list (string * DataFrame) :=
  [("PC_PEOPLE"%string, [("Person_id"%string, ObjectSeries [PStr "1"])]);
   ("PC_CHECKINS"%string,
    [("CheckIn_id"%string, ObjectSeries [PStr "7"; PStr "8"]);
     ("kind"%string, ObjectSeries [PStr "Regular"; PStr "Guest"])])].

(** A table whose column [is_member] holds a list. *)
Definition table_with_list_flag : DataFrame :=
  [("name"%string, ObjectSeries [PStr "Ann"; PStr "Bob"]);
   ("is_member"%string, ObjectSeries [PStr "true"; PList [PStr "x"]])].

(** What [convert_timestamps_to_timezone] may make of a column: the column
    it returns has as many rows; a column of a numeric or boolean dtype is
    returned as it is, and a datetime column keeps its instants. *)
Definition keeps_rows (s s' : Series) : Prop :=
  series_length s' = series_length s /\
  match s with
  | TypedSeries _ _ => s' = s
  | DatetimeSeries _ vals => exists tz, s' = DatetimeSeries tz vals
  | ObjectSeries _ => True
  end.

(** A datetime column is in the zone [target], or holds only NaT. *)
Definition in_zone_or_empty (target : string) (s : Series) : Prop :=
  match s with
  | DatetimeSeries tz vals => forallb is_nat vals = true \/ tz = Some target
  | _ => True
  end.

(** ** Further notions for the client *)

Section PaginationFailure.

Variable get_page : nat -> dict -> result pyval.
Variable include : list string.

(** The server answers the calls of [get] from number [page_num] on with the
    given pages, each of which makes the loop go on; the call after them
    raises [e], or returns a response that lines 169 to 186 cannot read. *)
Fixpoint serves_then_raises (page_num : nat) (params : dict) (offset : Z)
    (pages : list (pyval * list pyval)) (e : exn) : Prop :=
  let params := dict_set "offset" (PInt offset) params in
  match pages with
  | [] => (response <- get_page page_num params ;; read_page response) = Raise e
  | (response, items) :: rest =>
      get_page page_num params = Ok response /\
      read_page response = Ok (items, Some (List.length items)) /\
      serves_then_raises (S page_num) (with_include params include)
        (offset + Z.of_nat (List.length items)) rest e
  end.

End PaginationFailure.

(** A first page of two items, then a page whose [links] is null. *)
Definition page_then_null_links (page_num : nat) (_ : dict) : result pyval :=
  match page_num with
  | 1 =>
      Ok (PDict [("data"%string, PList [PStr "a"; PStr "b"]);
                 ("links"%string, PDict [("next"%string, PStr "page 2")])])
  | _ =>
      Ok (PDict [("data"%string, PList [PStr "c"]); ("links"%string, PNone)])
  end.

(** ** Further notions for the orchestrator *)

(** A run in which every endpoint is fetched and the load stage raises. *)
Definition env_with_failing_load : environment :=
  {| commit := fun _ => Ok tt;
     has_credentials := Ok true;
     decrypt_app_id := Ok "app"%string; decrypt_secret := Ok "secret"%string;
     connection_probe := Ok (PDict []);
     fetch_body := fun _ => Ok 10;
     enrich_event_times := Ok tt; enrich_checkins := Ok tt;
     load_to_database := Raise (Exn PlainException "cannot open database");
     log_completed := Ok tt; log_failed := Ok tt |}.

(** A run in which everything is fetched, loaded and committed, and the log
    line after the final commit cannot read the tenant. *)
Definition env_with_failing_log : environment :=
  {| commit := fun _ => Ok tt;
     has_credentials := Ok true;
     decrypt_app_id := Ok "app"%string; decrypt_secret := Ok "secret"%string;
     connection_probe := Ok (PDict []);
     fetch_body := fun _ => Ok 10;
     enrich_event_times := Ok tt; enrich_checkins := Ok tt;
     load_to_database := Ok tt;
     log_completed := Raise (Exn PlainException "cannot refresh the tenant");
     log_failed := Ok tt |}.

(** Whether a step comes after [mark_completed]: the final commit and the log
    line that follows it. *)
Definition after_mark_completed (s : step) : bool :=
  match s with
  | StepCommit CommitCompleted | StepLogCompleted => true
  | _ => false
  end.

(** * backend/app/security.py: [generate_schema_name] *)

Definition in_range (lo hi : N) (c : ascii) : bool :=
  ((lo <=? code c) && (code c <=? hi))%N.

Definition is_ascii_lower (c : ascii) : bool := in_range 97 122 c.
Definition is_ascii_upper (c : ascii) : bool := in_range 65 90 c.

(** The class [[a-zA-Z0-9]] of the first substitution. *)
Definition is_ascii_alnum (c : ascii) : bool :=
  is_ascii_lower c || is_ascii_upper c || is_ascii_digit c.

(** The class [[a-z0-9_]] of the second substitution. *)
Definition is_name_char (c : ascii) : bool :=
  is_ascii_lower c || is_ascii_digit c || Ascii.eqb c "_"%char.

(** [str.isalpha] on the code points 0 to 255: the ASCII letters, the two
    ordinal indicators, the micro sign and the Latin-1 letters. *)
Definition is_alpha_char (c : ascii) : bool :=
  is_ascii_lower c || is_ascii_upper c
  || (code c =? 170)%N || (code c =? 181)%N || (code c =? 186)%N
  || in_range 192 214 c || in_range 216 246 c || in_range 248 255 c.

(** [s.split()]: the maximal runs of characters that are not whitespace;
    [cur] is the run being read, last character first. *)
Fixpoint split_words (l cur : list ascii) : list (list ascii) :=
  match l with
  | [] =>
      match cur with
      | [] => []
      | _ => [rev cur]
      end
  | c :: r =>
      if is_space c then
        match cur with
        | [] => split_words r []
        | _ => rev cur :: split_words r []
        end
      else split_words r (c :: cur)
  end.

(** [word[0].lower() for word in words if word] *)
Definition initial_of (word : list ascii) : list ascii :=
  match word with
  | c :: _ => [lower_char c]
  | [] => []
  end.

(** [generate_schema_name]; [None] stands for the [IndexError] that
    [schema_name[0]] raises on an empty string. *)
Definition generate_schema_name (church_name city state : string) : option string :=
  let words := split_words (chars (strip church_name)) [] in
  let initials := flat_map initial_of words in
  let city_clean := filter is_ascii_alnum (chars (lower (strip city))) in
  let state_clean := firstn 2 (chars (lower (strip state))) in
  let schema_name := initials ++ "_"%char :: city_clean ++ "_"%char :: state_clean in
  let schema_name := filter is_name_char schema_name in
  match schema_name with
  | [] => None
  | first :: _ =>
      let schema_name :=
        if negb (is_alpha_char first) then chars "c_" ++ schema_name
        else schema_name in
      Some (text (firstn 100 schema_name))
  end.

(** * The load stage, [DataSyncService._load_to_database] *)

(** What the engine is asked to do: a SQL text, or the bulk write of
    [df.to_sql(table, schema=..., if_exists='replace', index=False,
    dtype=...)]. *)
Inductive statement :=
| Sql (sql : string)
| ToSql (schema table : string) (df : DataFrame) (dtype : list (string * sqltype)).

Definition create_schema (schema : string) : statement :=
  Sql ("CREATE SCHEMA [" ++ schema ++ "]")%string.

Definition drop_table (schema table_name : string) : statement :=
  Sql ("DROP TABLE IF EXISTS [" ++ schema ++ "].[" ++ table_name ++ "]")%string.

(** What the load stage leaves behind: the statements the engine committed,
    in order, and whether the stage returned or raised. *)
Definition load_run := (list statement * result unit)%type.

Section Load.

(** The engine.  [schema_exists] is the query on [sys.schemas] with its
    [fetchone]; [execute] runs a statement in a transaction of its own and
    commits it, or raises.  Nothing is assumed of either. *)
Variable schema_exists : string -> result bool.
Variable execute : statement -> result unit.

(** [_ensure_schema_exists] *)
Definition _ensure_schema_exists (schema : string) : load_run :=
  match schema_exists schema with
  | Raise e => ([], Raise e)
  | Ok true => ([], Ok tt)
  | Ok false =>
      match execute (create_schema schema) with
      | Raise e => ([], Raise e)
      | Ok _ => ([create_schema schema], Ok tt)
      end
  end.

(** The loop of lines 494 to 524 over the tables of the run. *)
Fixpoint load_tables (schema : string) (dataframes : list (string * DataFrame))
    (committed : list statement) : load_run :=
  match dataframes with
  | [] => (committed, Ok tt)
  | (table_name, df) :: rest =>
      if df_empty df then load_tables schema rest committed else
      match execute (drop_table schema table_name) with
      | Raise e => (committed, Raise e)
      | Ok _ =>
          let committed := committed ++ [drop_table schema table_name] in
          match generate_dtype_mapping df with
          | Raise e => (committed, Raise e)
          | Ok dtype_mapping =>
              match execute (ToSql schema table_name df dtype_mapping) with
              | Raise e => (committed, Raise e)
              | Ok _ =>
                  load_tables schema rest
                    (committed ++ [ToSql schema table_name df dtype_mapping])
              end
          end
      end
  end.

Definition _load_to_database (schema : string)
    (dataframes : list (string * DataFrame)) : load_run :=
  match _ensure_schema_exists schema with
  | (committed, Ok _) => load_tables schema dataframes committed
  | (committed, Raise e) => (committed, Raise e)
  end.

(** The statements of a table that loads: none for an empty table. *)
Definition table_statements (schema : string) (t : string * DataFrame)
    (dtype : list (string * sqltype)) : list statement :=
  if df_empty (snd t) then []
  else [drop_table schema (fst t); ToSql schema (fst t) (snd t) dtype].

(** The table [t] loads: it is empty, or its drop, its type mapping and its
    write all succeed. *)
Definition loads (schema : string) (t : string * DataFrame) : Prop :=
  df_empty (snd t) = true \/
  exists dtype,
    execute (drop_table schema (fst t)) = Ok tt /\
    generate_dtype_mapping (snd t) = Ok dtype /\
    execute (ToSql schema (fst t) (snd t) dtype) = Ok tt.

(** The statements committed for a list of tables that all load. *)
Fixpoint loaded_statements (schema : string) (dataframes : list (string * DataFrame))
  : list statement :=
  match dataframes with
  | [] => []
  | t :: rest =>
      match generate_dtype_mapping (snd t) with
      | Ok dtype => table_statements schema t dtype
      | Raise _ => []
      end ++ loaded_statements schema rest
  end.

End Load.

(** An engine in which the schema exists and every statement succeeds. *)
Definition schema_present (_ : string) : result bool := Ok true.
Definition always_executes (_ : statement) : result unit := Ok tt.

(** The tables of a run: people, an empty events table, and check-ins whose
    column [is_member] holds a list. *)
Definition tables_of_a_run : list (string * DataFrame) :=
  [("PC_PEOPLE"%string, [("name"%string, ObjectSeries [PStr "Ann"])]);
   ("PC_EVENTS"%string, []);
   ("PC_CHECKINS"%string, table_with_list_flag)].

(** * backend/app/etl/data_processor.py: [add_derived_date_columns] *)

Section DerivedDates.

(** [s.dt.date] and [s.dt.strftime('%H:%M:%S')] for a datetime column with
    the given zone and instants: the values of the object column each
    returns, or the exception it raises.  Nothing is assumed of either. *)
Variable dt_date : option string -> list (option Z) -> result (list pyval).
Variable dt_time : option string -> list (option Z) -> result (list pyval).

(** [col[:-3]] *)
Definition without_at (col : string) : string :=
  text (firstn (List.length (chars col) - 3) (chars col)).

(** Lines 236 to 241, and 245 to 250: the column [name] is added, last,
    unless the table already has a column of that name or the values could
    not be computed. *)
Definition add_if_absent (name : string) (values : result (list pyval))
    (df : DataFrame) : DataFrame :=
  if in_columns name df then df else
  match values with
  | Ok vals => df ++ [(name, ObjectSeries vals)]
  | Raise _ => df
  end.

(** One iteration of the loop of lines 222 to 250. *)
Definition derive_columns (df : DataFrame) (col : string) : DataFrame :=
  if negb (endswith col "_at") then df else
  match df_get df col with
  | Some (DatetimeSeries tz vals) =>
      let base_name := without_at col in
      let df := add_if_absent (base_name ++ "_date") (dt_date tz vals) df in
      add_if_absent (base_name ++ "_time") (dt_time tz vals) df
  | _ => df
  end.

(** The loop runs over the columns the table has when it starts. *)
Definition add_derived_date_columns (df : DataFrame) (df_name : string)
  : DataFrame :=
  fold_left derive_columns (df_columns df) df.

(** The column [name] is derived from a datetime column of [df] whose name
    ends with [_at]. *)
Definition derived_from (df : DataFrame) (name : string) : Prop :=
  exists col tz vals,
    df_get df col = Some (DatetimeSeries tz vals) /\
    endswith col "_at" = true /\
    (name = (without_at col ++ "_date")%string \/
     name = (without_at col ++ "_time")%string).

(** Nothing is left to derive from the column [col] of [df]. *)
Definition settled (df : DataFrame) (col : string) : Prop :=
  endswith col "_at" = false \/
  match df_get df col with
  | Some (DatetimeSeries tz vals) =>
      (in_columns (without_at col ++ "_date") df = true \/
       exists e, dt_date tz vals = Raise e) /\
      (in_columns (without_at col ++ "_time") df = true \/
       exists e, dt_time tz vals = Raise e)
  | _ => True
  end.

End DerivedDates.

(** * backend/app/etl/data_processor.py: [prepare_dataframe_for_sql] *)

Section PrepareForSql.

(** The library calls of the function: [json.loads], [ast.literal_eval], the
    truth value of [pd.isna(v)] when [v] is a list (an array, whose truth
    value may be ambiguous), and the series [Series.apply] builds from the
    values its function returned, with the dtype pandas infers for them.
    Nothing is assumed of any of them. *)
Variable json_loads_py : string -> result pyval.
Variable literal_eval : string -> result pyval.
Variable isna_of_list : list pyval -> result bool.
Variable infer_series : list pyval -> Series.

(** The test of lines 284 and 285 on the stripped text. *)
Definition looks_bracketed (s : string) : bool :=
  (startswith s "[" && endswith s "]") || (startswith s "{" && endswith s "}").

(** Lines 282 to 302 for one value of the sample: whether it sets
    [needs_conversion].  An exception of [json.loads] that is not a
    [ValueError] is not caught. *)
Definition calls_for_conversion (val : pyval) : result bool :=
  match val with
  | PStr s =>
      let val_stripped := strip s in
      if looks_bracketed val_stripped then
        match json_loads_py val_stripped with
        | Ok _ => Ok false
        | Raise e =>
            match exn_kind e with
            | ValueError =>
                match literal_eval val_stripped with
                | Ok parsed => Ok (is_complex parsed)
                | Raise _ => Ok false
                end
            | _ => Raise e
            end
        end
      else Ok false
  | PList _ | PDict _ => Ok true
  | _ => Ok false
  end.

(** The loop of lines 281 to 302, which stops at the first value that calls
    for a conversion. *)
Fixpoint needs_conversion (sample : list pyval) : result bool :=
  match sample with
  | [] => Ok false
  | val :: rest =>
      found <- calls_for_conversion val ;;
      if found then Ok true else needs_conversion rest
  end.

(** The truth value of [pd.isna(v)]: a dictionary is never missing. *)
Definition isna_truth (v : pyval) : result bool :=
  match v with
  | PList l => isna_of_list l
  | PDict _ => Ok false
  | _ => Ok (isna v)
  end.

(** [convert_value], lines 305 to 318 *)
Definition convert_value (v : pyval) : result pyval :=
  missing <- isna_truth v ;;
  if missing then Ok PNone
  else if is_complex v then Ok (convert_complex_type_to_json v)
  else
    match v with
    | PStr s =>
        match literal_eval s with
        | Ok parsed =>
            if is_complex parsed then Ok (convert_complex_type_to_json parsed)
            else Ok v
        | Raise _ => Ok v
        end
    | _ => Ok v
    end.

(** One iteration of the loop of lines 272 to 324.  A column of another
    dtype than object is taken to hold no text, no list and no dictionary,
    which is the case of the boolean, integer, float and datetime columns:
    nothing in it calls for a conversion. *)
Definition prepare_column (s : Series) : result Series :=
  match s with
  | ObjectSeries vals =>
      match head_n 100 (dropna vals) with
      | [] => Ok s
      | sample =>
          needed <- needs_conversion sample ;;
          if needed then
            match mapM convert_value vals with
            | Ok converted => Ok (infer_series converted)
            | Raise _ => Ok s
            end
          else Ok s
      end
  | _ => Ok s
  end.

Definition prepare_dataframe_for_sql (df : DataFrame) (df_name : string)
  : result DataFrame :=
  mapM (fun c => s <- prepare_column (snd c) ;; Ok (fst c, s)) df.

(** A value that calls for no conversion: it is neither a list nor a
    dictionary, and when it is a text between brackets, [json.loads] reads
    it. *)
Definition already_serialized (v : pyval) : Prop :=
  match v with
  | PStr s =>
      looks_bracketed (strip s) = false \/
      exists parsed, json_loads_py (strip s) = Ok parsed
  | PList _ | PDict _ => False
  | _ => True
  end.

(** What the function may make of a column: nothing, or, for a column of
    dtype object, the series of its converted values. *)
Definition prepared (s s' : Series) : Prop :=
  s' = s \/
  exists vals converted,
    s = ObjectSeries vals /\ mapM convert_value vals = Ok converted /\
    s' = infer_series converted.

End PrepareForSql.

(** A table as the flattener and the earlier steps leave it: texts, JSON
    texts of lists and of objects, missing values, numbers and instants. *)
Definition flattened_table : DataFrame :=
  [("Person_id"%string, ObjectSeries [PStr "1"; PStr "2"]);
   ("tags"%string,
    ObjectSeries [PStr (json_dumps (PList [PStr "a"; PInt 2])); PNone]);
   ("address"%string,
    ObjectSeries [PNaN; PStr (json_dumps (PDict [("city"%string, PStr "Paradise")]))]);
   ("grade"%string, TypedSeries Float64Dtype [PInt 3; PNaN]);
   ("created_at"%string, DatetimeSeries (Some "US/Central"%string) [Some 5%Z; None])].

(** * The fetch of one endpoint, [DataSyncService._fetch_endpoint]

    The orchestrator of the run above takes the outcome of this method as
    given; here is the method itself. *)

Module EndpointFetch.

Local Open Scope string_scope.

(** The library calls of the table pipeline of lines 214 to 222:
    [pd.DataFrame(all_data)] and the calls the three preparation steps make.
    Nothing is assumed of any of them. *)
Record library := {
  lib_frame_of_rows : list dict -> result DataFrame;
  lib_known_timezone : string -> bool;
  lib_to_datetime_utc : list pyval -> result (list (option Z));
  lib_dt_date : option string -> list (option Z) -> result (list pyval);
  lib_dt_time : option string -> list (option Z) -> result (list pyval);
  lib_json_loads : string -> result pyval;
  lib_literal_eval : string -> result pyval;
  lib_isna_of_list : list pyval -> result bool;
  lib_infer_series : list pyval -> Series
}.

(** [df[name] = s]: an existing column is replaced in place, a new one goes
    last. *)
Fixpoint set_column (name : string) (s : Series) (df : DataFrame) : DataFrame :=
  match df with
  | [] => [(name, s)]
  | (n, s') :: rest =>
      if String.eqb n name then (name, s) :: rest
      else (n, s') :: set_column name s rest
  end.

(** [self.dataframes[table_name] = df] *)
Fixpoint set_table (table_name : string) (df : DataFrame)
    (dataframes : list (string * DataFrame)) : list (string * DataFrame) :=
  match dataframes with
  | [] => [(table_name, df)]
  | (n, df') :: rest =>
      if String.eqb n table_name then (table_name, df) :: rest
      else (n, df') :: set_table table_name df rest
  end.

(** Lines 206 to 208: whether the response links to a next page. *)
Definition links_next (response : pyval) : result bool :=
  links <- py_get response "links" (PDict []) ;;
  has_next <- py_contains "next" links ;;
  if negb has_next then Ok false else
  next <- py_getitem links "next" ;;
  Ok (truthy next).

(** Line 210: [len(response.get('data', []))] *)
Definition data_count (response : pyval) : result nat :=
  data <- py_get response "data" (PList []) ;;
  py_len data.

(** The parameters of line 195, a new dictionary for every page. *)
Definition page_params (offset : Z) : dict :=
  [("per_page", PInt 100); ("offset", PInt offset)].

Section Fetch.

Variable lib : library.

(** [self.client.get(endpoint, params=params, include=...)] for the call
    number [page_num] (from 1) of this fetch: the response, or the exception
    [get] raises once its retries are used up. *)
Variable get_page : nat -> dict -> result pyval.

(** [datetime.now(timezone.utc)], an instant. *)
Variable now : Z.

Variable endpoint table_name data_timezone : string.

(** The loop of lines 194 to 210.  [fuel] bounds the number of pages: the
    loop of the source has no bound of its own. *)
Fixpoint fetch_pages (fuel page_num : nat) (offset : Z) (all_data : list dict)
  : option (result (list dict)) :=
  match fuel with
  | O => None
  | S fuel' =>
      match get_page page_num (page_params offset) with
      | Raise e => Some (Raise e)
      | Ok response =>
          match process_jsonapi_response response endpoint with
          | [] => Some (Ok all_data)
          | processed =>
              let all_data := (all_data ++ processed)%list in
              match links_next response with
              | Raise e => Some (Raise e)
              | Ok false => Some (Ok all_data)
              | Ok true =>
                  match data_count response with
                  | Raise e => Some (Raise e)
                  | Ok n =>
                      fetch_pages fuel' (S page_num) (offset + Z.of_nat n) all_data
                  end
              end
          end
      end
  end.

(** Lines 214 to 222: the table built from the rows. *)
Definition build_table (all_data : list dict) : result DataFrame :=
  df <- lib_frame_of_rows lib all_data ;;
  df <- convert_timestamps_to_timezone (lib_known_timezone lib)
          (lib_to_datetime_utc lib) df table_name data_timezone ;;
  let df := add_derived_date_columns (lib_dt_date lib) (lib_dt_time lib)
              df table_name in
  df <- prepare_dataframe_for_sql (lib_json_loads lib) (lib_literal_eval lib)
          (lib_isna_of_list lib) (lib_infer_series lib) df table_name ;;
  Ok (set_column "load_timestamp"
        (DatetimeSeries (Some "UTC") (repeat (Some now) (df_length df))) df).

(** What the method makes of the rows it gathered (lines 212 to 228). *)
Definition store_rows (all_data : list dict)
    (dataframes : list (string * DataFrame))
  : result (nat * list (string * DataFrame)) :=
  match all_data with
  | [] => Ok (0, dataframes)
  | _ =>
      df <- build_table all_data ;;
      Ok (df_length df, set_table table_name df dataframes)
  end.

(** [_fetch_endpoint]: the number of records it returns and the tables of
    the run after it.  Any exception of the body of its try block is logged
    and the method returns 0. *)
Definition _fetch_endpoint (fuel : nat) (dataframes : list (string * DataFrame))
  : option (nat * list (string * DataFrame)) :=
  match fetch_pages fuel 1 0 [] with
  | None => None
  | Some fetched =>
      match (all_data <- fetched ;; store_rows all_data dataframes) with
      | Ok outcome => Some outcome
      | Raise _ => Some (0, dataframes)
      end
  end.

(** The calls of [get] from number [page_num] on are answered with the given
    responses, each of which gives rows and links to a next page. *)
Fixpoint pages_served (page_num : nat) (offset : Z) (pages : list pyval) : Prop :=
  match pages with
  | [] => True
  | response :: rest =>
      get_page page_num (page_params offset) = Ok response /\
      process_jsonapi_response response endpoint <> [] /\
      links_next response = Ok true /\
      exists n,
        data_count response = Ok n /\
        pages_served (S page_num) (offset + Z.of_nat n) rest
  end.

(** The offset after the given pages. *)
Fixpoint offset_after (offset : Z) (pages : list pyval) : Z :=
  match pages with
  | [] => offset
  | response :: rest =>
      match data_count response with
      | Ok n => offset_after (offset + Z.of_nat n) rest
      | Raise _ => offset
      end
  end.

(** The rows of the given pages. *)
Definition rows_of (pages : list pyval) : list dict :=
  flat_map (fun response => process_jsonapi_response response endpoint) pages.

(** A response that ends the loop without an exception: it gives no row, or
    it does not link to a next page. *)
Definition last_page (response : pyval) : Prop :=
  process_jsonapi_response response endpoint = [] \/
  links_next response = Ok false.

End Fetch.

(** Stand-ins for the library calls, for the examples: a table of the single
    column [Person_id], and calls that convert nothing. *)
Definition example_library : library :=
  {| lib_frame_of_rows := fun rows =>
       Ok [("Person_id",
            ObjectSeries
              (map (fun row => match dict_get row "Person_id" with
                               | Some v => v
                               | None => PNaN
                               end) rows))];
     lib_known_timezone := fun _ => true;
     lib_to_datetime_utc := example_to_datetime;
     lib_dt_date := fun _ _ => raise_of ValueError;
     lib_dt_time := fun _ _ => raise_of ValueError;
     lib_json_loads := json_loads;
     lib_literal_eval := literal_eval_fragment;
     lib_isna_of_list := fun _ => raise_of ValueError;
     lib_infer_series := ObjectSeries |}.

Definition person (id : string) : pyval :=
  PDict [("id", PStr id); ("type", PStr "Person")].

(** A first page of two people that links to a next page; the second call
    fails. *)
Definition page_then_timeout (page_num : nat) (_ : dict) : result pyval :=
  match page_num with
  | 1 =>
      Ok (PDict [("data", PList [person "1"; person "2"]);
                 ("links", PDict [("next", PStr "page 2")])])
  | _ => Raise (Exn RequestException "read timed out")
  end.

(** A first page of two people, a second page that holds a text among its
    items, and a third page of one person. *)
Definition page_then_broken_page (page_num : nat) (_ : dict) : result pyval :=
  match page_num with
  | 1 =>
      Ok (PDict [("data", PList [person "1"; person "2"]);
                 ("links", PDict [("next", PStr "page 2")])])
  | 2 =>
      Ok (PDict [("data", PList [person "3"; PStr "oops"]);
                 ("links", PDict [("next", PStr "page 3")])])
  | _ => Ok (PDict [("data", PList [person "4"])])
  end.

End EndpointFetch.

(** * Enrichment of the event times, [DataSyncService._enrich_event_times] *)

(** [self.dataframes[name]], when the table is there. *)
Fixpoint get_table (name : string) (dataframes : list (string * DataFrame))
  : option DataFrame :=
  match dataframes with
  | [] => None
  | (n, df) :: rest => if String.eqb n name then Some df else get_table name rest
  end.

(** The first of the given names that is a column of the table. *)
Definition first_column (names : list string) (df : DataFrame) : option string :=
  find (fun col_name => in_columns col_name df) names.

(** [df[cols].copy()]: the listed columns, in the order of the list. *)
Definition select_columns (cols : list string) (df : DataFrame) : result DataFrame :=
  mapM (fun col => match df_get df col with
                   | Some s => Ok (col, s)
                   | None => raise_of KeyError
                   end) cols.

(** [df.rename(columns=mapping)] *)
Definition rename_columns (mapping : list (string * string)) (df : DataFrame)
  : DataFrame :=
  map (fun c =>
         (match find (fun m => String.eqb (fst m) (fst c)) mapping with
          | Some m => snd m
          | None => fst c
          end, snd c)) df.

Section EnrichEventTimes.

Local Open Scope string_scope.

(** [left.merge(right, on=key, how='left')]: the merged table, or the
    exception pandas raises.  Nothing is assumed of it. *)
Variable merge_left : DataFrame -> DataFrame -> string -> result DataFrame.

(** Lines 317 to 343, once both tables and both id columns are found. *)
Definition merge_events (event_times_df events_df : DataFrame)
    (event_id_col events_id_col : string)
    (dataframes : list (string * DataFrame))
  : result (list (string * DataFrame)) :=
  let add_name :=
    in_columns "name" events_df && negb (in_columns "event_name" event_times_df) in
  let add_frequency :=
    in_columns "frequency" events_df
    && negb (in_columns "event_frequency" event_times_df) in
  let events_merge_cols :=
    ([events_id_col] ++ (if add_name then ["name"] else [])
     ++ (if add_frequency then ["frequency"] else []))%list in
  let rename_map :=
    ((if add_name then [("name", "event_name")] else [])
     ++ (if add_frequency then [("frequency", "event_frequency")] else []))%list in
  if Nat.eqb (List.length events_merge_cols) 1 then Ok dataframes else
  events_subset <- select_columns events_merge_cols events_df ;;
  let events_subset := rename_columns rename_map events_subset in
  let events_subset :=
    rename_columns [(events_id_col, event_id_col)] events_subset in
  event_times_df <- merge_left event_times_df events_subset event_id_col ;;
  Ok (EndpointFetch.set_table "PC_EVENT_TIMES" event_times_df dataframes).

Definition _enrich_event_times (dataframes : list (string * DataFrame))
  : result (list (string * DataFrame)) :=
  match get_table "PC_EVENT_TIMES" dataframes, get_table "PC_EVENTS" dataframes with
  | Some event_times_df, Some events_df =>
      if df_empty event_times_df || df_empty events_df then Ok dataframes else
      match first_column ["event_id"; "events_id"; "event_ids"] event_times_df with
      | None => Ok dataframes
      | Some event_id_col =>
          match first_column ["event_id"; "events_id"; "id"] events_df with
          | None => Ok dataframes
          | Some events_id_col =>
              merge_events event_times_df events_df event_id_col events_id_col
                dataframes
          end
      end
  | _, _ => Ok dataframes
  end.

(** The event times need no enrichment, or cannot get one: a table is
    missing or empty, an id column is not found, or the event times already
    have both columns. *)
Definition nothing_to_enrich (dataframes : list (string * DataFrame)) : Prop :=
  match get_table "PC_EVENT_TIMES" dataframes, get_table "PC_EVENTS" dataframes with
  | Some event_times_df, Some events_df =>
      df_empty event_times_df = true \/ df_empty events_df = true \/
      first_column ["event_id"; "events_id"; "event_ids"] event_times_df = None \/
      first_column ["event_id"; "events_id"; "id"] events_df = None \/
      (in_columns "event_name" event_times_df = true /\
       in_columns "event_frequency" event_times_df = true)
  | _, _ => True
  end.

End EnrichEventTimes.

(** The events, and event times that do not carry the name and the
    frequency of their event yet. *)
Definition tables_to_enrich : list (string * DataFrame) :=
  [("PC_EVENTS"%string,
    [("id"%string, ObjectSeries [PStr "1"]);
     ("name"%string, ObjectSeries [PStr "Sunday"]);
     ("frequency"%string, ObjectSeries [PStr "Weekly"]);
     ("archived_at"%string, ObjectSeries [PNone])]);
   ("PC_EVENT_TIMES"%string,
    [("event_id"%string, ObjectSeries [PStr "1"]);
     ("starts_at"%string, ObjectSeries [PStr "2024-01-07T09:00:00Z"])])].

(** A stand-in for the merge, right for tables whose rows correspond one to
    one: the columns of the right table, its key apart, are appended. *)
Definition merge_aligned (left right : DataFrame) (_ : string) : result DataFrame :=
  Ok (left ++ tl right).

Definition enriched_tables : list (string * DataFrame) :=
  [("PC_EVENTS"%string,
    [("id"%string, ObjectSeries [PStr "1"]);
     ("name"%string, ObjectSeries [PStr "Sunday"]);
     ("frequency"%string, ObjectSeries [PStr "Weekly"]);
     ("archived_at"%string, ObjectSeries [PNone])]);
   ("PC_EVENT_TIMES"%string,
    [("event_id"%string, ObjectSeries [PStr "1"]);
     ("starts_at"%string, ObjectSeries [PStr "2024-01-07T09:00:00Z"]);
     ("event_name"%string, ObjectSeries [PStr "Sunday"]);
     ("event_frequency"%string, ObjectSeries [PStr "Weekly"])])].

(** * Proofs *)

(** * Facts about strings and dictionaries *)

Lemma chars_text (l : list ascii) : chars (text l) = l.
Proof. apply list_ascii_of_string_of_list_ascii. Qed.

Lemma text_chars (s : string) : text (chars s) = s.
Proof. apply string_of_list_ascii_of_string. Qed.

Lemma chars_append (a b : string) : chars (a ++ b)%string = chars a ++ chars b.
Proof.
  induction a as [|c a IH]; simpl; [reflexivity|].
  unfold chars in *. simpl. now rewrite IH.
Qed.

Lemma chars_inj (a b : string) : chars a = chars b -> a = b.
Proof.
  intros H. rewrite <- (text_chars a), <- (text_chars b). now rewrite H.
Qed.

Lemma dict_get_set_eq (k : string) (v : pyval) (d : dict) :
  dict_get (dict_set k v d) k = Some v.
Proof.
  induction d as [|[k' v'] d IH]; simpl.
  - now rewrite String.eqb_refl.
  - destruct (String.eqb k' k) eqn:E; simpl.
    + now rewrite String.eqb_refl.
    + now rewrite E.
Qed.

Lemma dict_get_set_ne (k k' : string) (v : pyval) (d : dict) :
  k <> k' -> dict_get (dict_set k v d) k' = dict_get d k'.
Proof.
  intros Hne. induction d as [|[k0 v0] d IH]; simpl.
  - destruct (String.eqb k k') eqn:E; [|reflexivity].
    apply String.eqb_eq in E. contradiction.
  - destruct (String.eqb k0 k) eqn:E; simpl.
    + apply String.eqb_eq in E. subst k0.
      destruct (String.eqb k k') eqn:E'; [|reflexivity].
      apply String.eqb_eq in E'. contradiction.
    + destruct (String.eqb k0 k'); [reflexivity|exact IH].
Qed.

Lemma dict_set_fresh (k : string) (v : pyval) (d : dict) :
  ~ In k (dict_keys d) -> dict_set k v d = d ++ [(k, v)].
Proof.
  induction d as [|[k' v'] d IH]; simpl; intros Hn; [reflexivity|].
  destruct (String.eqb k' k) eqn:E.
  - apply String.eqb_eq in E. subst. exfalso. apply Hn. now left.
  - f_equal. apply IH. intros Hin. apply Hn. now right.
Qed.

Lemma dict_set_all_fresh (d acc : dict) :
  NoDup (dict_keys (acc ++ d)) ->
  fold_left (fun a kv => dict_set (fst kv) (snd kv) a) d acc = acc ++ d.
Proof.
  revert acc. induction d as [|[k v] d IH]; intros acc Hnd; simpl.
  - now rewrite List.app_nil_r.
  - rewrite dict_set_fresh.
    + rewrite IH; rewrite <- List.app_assoc; [reflexivity|exact Hnd].
    + unfold dict_keys in *. rewrite map_app in Hnd. simpl in Hnd.
      apply NoDup_remove_2 in Hnd. intros Hin. apply Hnd.
      apply in_or_app. now left.
Qed.

(** * [json.loads] inverts [json.dumps] *)

Lemma scan_escape_char (c : ascii) (r acc : list ascii) :
  scan_string (json_escape_char c ++ r) acc = scan_string r (c :: acc).
Proof.
  destruct c as [[] [] [] [] [] [] [] []]; reflexivity.
Qed.

Lemma scan_string_encode (l rest acc : list ascii) :
  scan_string (flat_map json_escape_char l ++ char_quote :: rest) acc
  = Some (text (rev acc ++ l), rest).
Proof.
  revert acc. induction l as [|c l IH]; intros acc; simpl.
  - now rewrite List.app_nil_r.
  - rewrite <- List.app_assoc, scan_escape_char, IH. simpl.
    now rewrite <- List.app_assoc.
Qed.

Lemma chars_uint_chars (d : Decimal.uint) : chars_uint (uint_chars d) = d.
Proof. induction d; simpl; now rewrite ?IHd. Qed.

Lemma uint_chars_digits (d : Decimal.uint) :
  forallb is_ascii_digit (uint_chars d) = true.
Proof. induction d; simpl; auto. Qed.

Lemma span_digits_app (ds rest : list ascii) :
  forallb is_ascii_digit ds = true ->
  match rest with [] => True | c :: _ => is_ascii_digit c = false end ->
  span_digits (ds ++ rest) = (ds, rest).
Proof.
  intros Hds Hrest. induction ds as [|c ds IH]; simpl.
  - destruct rest as [|c r]; [reflexivity|]. simpl. now rewrite Hrest.
  - simpl in Hds. apply andb_true_iff in Hds as [Hc Hds].
    rewrite Hc, (IH Hds). reflexivity.
Qed.

Lemma digits_N_digits (n : N) : digits_N (N_digits n) = n.
Proof.
  unfold digits_N, N_digits. rewrite chars_uint_chars.
  apply DecimalN.Unsigned.of_to.
Qed.

Lemma nzhead_no_zero (d : Decimal.uint) :
  match Decimal.nzhead d with Decimal.D0 _ => False | _ => True end.
Proof. induction d; simpl; auto. Qed.

(** A positive number is written without a leading zero. *)
Lemma pos_digits_head (p : positive) :
  exists c ds, N_digits (Npos p) = c :: ds /\
               is_ascii_digit c = true /\ Ascii.eqb c "0"%char = false.
Proof.
  unfold N_digits. simpl N.to_uint.
  assert (Hn : Decimal.unorm (Pos.to_uint p) = Pos.to_uint p).
  { rewrite <- DecimalPos.Unsigned.to_of.
    rewrite DecimalPos.Unsigned.of_to. reflexivity. }
  pose proof (DecimalPos.Unsigned.to_uint_nonzero p) as Hz.
  pose proof (nzhead_no_zero (Pos.to_uint p)) as Hh.
  unfold Decimal.unorm in Hn.
  destruct (Decimal.nzhead (Pos.to_uint p)) eqn:E;
    try (rewrite <- Hn; simpl; eexists; eexists; repeat split; reflexivity).
  - exfalso. apply Hz. now rewrite <- Hn.
  - contradiction.
Qed.

Lemma delimited_no_digit (rest : list ascii) :
  delimited rest ->
  match rest with [] => True | c :: _ => is_ascii_digit c = false end.
Proof.
  destruct rest as [|c r]; simpl; [trivial|].
  intros [-> | [-> | ->]]; reflexivity.
Qed.

Lemma delimited_no_float (rest : list ascii) :
  delimited rest -> float_tail rest = false.
Proof.
  destruct rest as [|c [|d r]]; simpl; try reflexivity.
  intros [-> | [-> | ->]]; reflexivity.
Qed.

Lemma scan_natural_digits (n : N) (rest : list ascii) :
  delimited rest ->
  scan_natural (N_digits n ++ rest) = Some (n, rest).
Proof.
  intros Hd. destruct n as [|p]; [reflexivity|].
  destruct (pos_digits_head p) as (c & ds & E & Hc & Hz).
  pose proof (uint_chars_digits (N.to_uint (Npos p))) as Hall.
  fold (N_digits (Npos p)) in Hall.
  unfold scan_natural.
  rewrite (span_digits_app _ _ Hall (delimited_no_digit _ Hd)).
  rewrite digits_N_digits. rewrite E. simpl. now rewrite Hz, Hc.
Qed.

Lemma scan_number_digits (z : Z) (rest : list ascii) :
  delimited rest ->
  scan_number (Z_digits z ++ rest) = Some (PInt z, rest).
Proof.
  intros Hd. destruct z as [|p|p].
  - unfold Z_digits, scan_number. simpl.
    now rewrite (delimited_no_float _ Hd).
  - unfold Z_digits. destruct (pos_digits_head p) as (c & ds & E & Hc & Hz).
    pose proof (scan_natural_digits (Npos p) rest Hd) as Hs.
    assert (Hm : Ascii.eqb c "-"%char = false).
    { destruct c as [[] [] [] [] [] [] [] []]; try discriminate Hc; reflexivity. }
    rewrite E in *. simpl List.app in *.
    unfold scan_number. cbv iota. rewrite Hm, Hs.
    now rewrite (delimited_no_float _ Hd).
  - unfold Z_digits. simpl.
    rewrite (scan_natural_digits (Npos p) rest Hd).
    now rewrite (delimited_no_float _ Hd).
Qed.

Lemma scan_literal_number (c : ascii) (r : list ascii) :
  is_ascii_digit c = true \/ c = "-"%char ->
  scan_literal (c :: r) = scan_number (c :: r).
Proof.
  intros [H | ->]; [|reflexivity].
  destruct c as [[] [] [] [] [] [] [] []]; try discriminate H; reflexivity.
Qed.

Lemma Z_digits_head (z : Z) :
  exists c ds, Z_digits z = c :: ds /\ (is_ascii_digit c = true \/ c = "-"%char).
Proof.
  destruct z as [|p|p]; simpl.
  - eexists; eexists; split; [reflexivity|now left].
  - destruct (pos_digits_head p) as (c & ds & E & Hc & _).
    exists c, ds. split; [exact E|now left].
  - eexists; eexists; split; [reflexivity|now right].
Qed.

Lemma scan_literal_digits (z : Z) (rest : list ascii) :
  delimited rest ->
  scan_literal (Z_digits z ++ rest) = Some (PInt z, rest).
Proof.
  intros Hd. destruct (Z_digits_head z) as (c & ds & E & Hc).
  rewrite <- (scan_number_digits z rest Hd). rewrite E. simpl.
  now apply scan_literal_number.
Qed.

Lemma distinct_keys_NoDup (ks : list string) :
  distinct_keys ks = true -> NoDup ks.
Proof.
  induction ks as [|k r IH]; simpl; intros H; constructor.
  - apply andb_true_iff in H as [H _]. apply negb_true_iff in H.
    intros Hin. assert (existsb (String.eqb k) r = true); [|congruence].
    apply existsb_exists. exists k. split; [exact Hin|apply String.eqb_refl].
  - apply IH. now apply andb_true_iff in H as [_ H].
Qed.

Lemma digit_value_start (c : ascii) :
  is_ascii_digit c = true \/ c = "-"%char -> value_start c.
Proof.
  intros [H | ->]; [|repeat split].
  destruct c as [[] [] [] [] [] [] [] []]; try discriminate H; repeat split.
Qed.

Lemma json_encode_head (v : pyval) :
  exists c tl, json_encode v = c :: tl /\ value_start c.
Proof.
  destruct v as [| [] | z | | s | l | d]; simpl;
    try (eexists; eexists; split; [reflexivity|repeat split]).
  destruct (Z_digits_head z) as (c & ds & E & Hc).
  exists c, ds. split; [exact E|now apply digit_value_start].
Qed.

Lemma skip_ws_start (c : ascii) (r : list ascii) :
  value_start c -> skip_ws (c :: r) = c :: r.
Proof. intros (H & _). simpl. now rewrite H. Qed.

Lemma skip_ws_encode (v : pyval) (rest : list ascii) :
  skip_ws (json_encode v ++ rest) = json_encode v ++ rest.
Proof.
  destruct (json_encode_head v) as (c & tl & -> & Hc).
  now apply skip_ws_start.
Qed.

Lemma parse_value_number_head (fuel : nat) (c : ascii) (r : list ascii) :
  is_ascii_digit c = true \/ c = "-"%char ->
  parse_value (S fuel) (c :: r) = scan_literal (c :: r).
Proof.
  intros [H | ->]; [|reflexivity].
  destruct c as [[] [] [] [] [] [] [] []]; try discriminate H; reflexivity.
Qed.

Lemma join_cons2 (p q : list ascii) (ps : list (list ascii)) :
  join_chars item_sep (p :: q :: ps)
  = p ++ ","%char :: " "%char :: join_chars item_sep (q :: ps).
Proof. reflexivity. Qed.

Lemma parse_elements_S (fuel : nat) (l : list ascii) (acc : list pyval) :
  parse_elements (S fuel) l acc =
  match parse_value fuel l with
  | None => None
  | Some (v, rest) =>
      match skip_ws rest with
      | [] => None
      | c :: r =>
          if Ascii.eqb c "]"%char then Some (rev (v :: acc), r)
          else if Ascii.eqb c ","%char
          then parse_elements fuel (skip_ws r) (v :: acc)
          else None
      end
  end.
Proof. reflexivity. Qed.

Lemma parse_elements_encode (l : list pyval) :
  Forall decodes l -> forallb well_formed l = true -> l <> [] ->
  forall fuel acc rest,
    List.length (join_chars item_sep (map json_encode l)) < fuel ->
    parse_elements fuel
      (join_chars item_sep (map json_encode l) ++ "]"%char :: rest) acc
    = Some (rev acc ++ l, rest).
Proof.
  induction l as [|v l IH]; intros HP Hwf Hne fuel acc rest Hfuel;
    [congruence|].
  inversion HP as [|? ? Hv Hl]; subst.
  simpl in Hwf. apply andb_true_iff in Hwf as [Hwv Hwl].
  destruct fuel as [|fuel]; [lia|].
  destruct l as [|v' l'].
  - simpl in *. rewrite (Hv Hwv fuel ("]"%char :: rest)); [|lia|simpl; auto].
    reflexivity.
  - change (map json_encode (v :: v' :: l'))
      with (json_encode v :: json_encode v' :: map json_encode l') in *.
    rewrite join_cons2 in *. rewrite length_app in Hfuel. simpl in Hfuel.
    rewrite <- List.app_assoc. simpl List.app.
    rewrite parse_elements_S.
    rewrite (Hv Hwv); [|lia|simpl; auto].
    change (skip_ws (","%char :: ?x)) with (","%char :: x).
    cbv iota. simpl Ascii.eqb. cbv iota.
    change (join_chars item_sep (json_encode v' :: map json_encode l'))
      with (join_chars item_sep (map json_encode (v' :: l'))).
    assert (Hs : forall x, skip_ws (" "%char :: x) = skip_ws x) by reflexivity.
    rewrite Hs.
    assert (Hj : exists c tl, join_chars item_sep (map json_encode (v' :: l'))
                              = c :: tl /\ value_start c).
    { destruct (json_encode_head v') as (c & tl & E & Hc).
      destruct l' as [|v'' l'']; simpl; rewrite E; simpl;
        eexists; eexists; split; try reflexivity; exact Hc. }
    destruct Hj as (c & tl & Ej & Hc).
    rewrite Ej at 1. simpl List.app. rewrite (skip_ws_start _ _ Hc).
    change (c :: tl ++ "]"%char :: rest) with ((c :: tl) ++ "]"%char :: rest).
    rewrite <- Ej.
    rewrite (IH Hl Hwl); [|discriminate|simpl in *; lia].
    simpl. now rewrite <- List.app_assoc.
Qed.

Lemma parse_members_S (fuel : nat) (l : list ascii) (acc : dict) :
  parse_members (S fuel) l acc =
  match scan_string l [] with
  | None => None
  | Some (key, rest) =>
      match skip_ws rest with
      | [] => None
      | c :: r =>
          if Ascii.eqb c ":"%char then
            match parse_value fuel (skip_ws r) with
            | None => None
            | Some (v, rest1) =>
                let acc := dict_set key v acc in
                match skip_ws rest1 with
                | [] => None
                | c1 :: r1 =>
                    if Ascii.eqb c1 "}"%char then Some (acc, r1)
                    else if Ascii.eqb c1 ","%char then
                      match skip_ws r1 with
                      | [] => None
                      | c2 :: r2 =>
                          if Ascii.eqb c2 char_quote
                          then parse_members fuel r2 acc
                          else None
                      end
                    else None
                end
            end
          else None
      end
  end.
Proof. reflexivity. Qed.

Lemma encode_member_shape (kv : string * pyval) :
  encode_member kv
  = char_quote :: flat_map json_escape_char (chars (fst kv))
      ++ char_quote :: ":"%char :: " "%char :: json_encode (snd kv).
Proof.
  unfold encode_member, json_string. simpl.
  now rewrite <- List.app_assoc.
Qed.

Lemma encode_member_length (kv : string * pyval) :
  List.length (json_encode (snd kv)) < List.length (encode_member kv).
Proof.
  unfold encode_member. rewrite !length_app. simpl. lia.
Qed.

Lemma parse_members_encode (d : dict) :
  Forall (fun kv => decodes (snd kv)) d ->
  forallb (fun kv => well_formed (snd kv)) d = true -> d <> [] ->
  forall fuel acc rest,
    List.length (join_chars item_sep (map encode_member d)) < fuel ->
    exists body,
      join_chars item_sep (map encode_member d) = char_quote :: body /\
      parse_members fuel (body ++ "}"%char :: rest) acc
      = Some (fold_left (fun a kv => dict_set (fst kv) (snd kv) a) d acc, rest).
Proof.
  induction d as [|kv d IH]; intros HP Hwf Hne fuel acc rest Hfuel;
    [congruence|].
  inversion HP as [|? ? Hv Hd]; subst.
  simpl in Hwf. apply andb_true_iff in Hwf as [Hwv Hwd].
  destruct fuel as [|fuel]; [simpl in Hfuel; lia|].
  destruct d as [|kv' d'].
  - simpl map in *. simpl join_chars in *.
    pose proof (encode_member_length kv) as Hlen.
    rewrite encode_member_shape.
    eexists. split; [reflexivity|].
    rewrite parse_members_S. rewrite <- List.app_assoc. simpl List.app.
    rewrite scan_string_encode. simpl rev. simpl List.app. rewrite text_chars.
    change (skip_ws (":"%char :: ?x)) with (":"%char :: x).
    cbv iota. simpl Ascii.eqb. cbv iota.
    assert (Hs : forall x, skip_ws (" "%char :: x) = skip_ws x) by reflexivity.
    rewrite Hs, skip_ws_encode.
    rewrite (Hv Hwv); [|lia|simpl; auto].
    reflexivity.
  - change (map encode_member (kv :: kv' :: d'))
      with (encode_member kv :: encode_member kv' :: map encode_member d') in *.
    rewrite join_cons2 in *.
    change (join_chars item_sep (encode_member kv' :: map encode_member d'))
      with (join_chars item_sep (map encode_member (kv' :: d'))) in *.
    pose proof (encode_member_length kv) as Hlen.
    rewrite length_app in Hfuel. cbn [List.length] in Hfuel.
    destruct (IH Hd Hwd ltac:(discriminate) fuel
                (dict_set (fst kv) (snd kv) acc) rest) as (body & Eb & Hb);
      [lia|].
    rewrite Eb. rewrite encode_member_shape.
    eexists. split; [simpl; reflexivity|].
    rewrite parse_members_S. repeat rewrite <- List.app_assoc. simpl List.app.
    rewrite scan_string_encode. simpl rev. simpl List.app. rewrite text_chars.
    change (skip_ws (":"%char :: ?x)) with (":"%char :: x).
    cbv iota. simpl Ascii.eqb. cbv iota.
    assert (Hs : forall x, skip_ws (" "%char :: x) = skip_ws x) by reflexivity.
    rewrite Hs, skip_ws_encode.
    rewrite (Hv Hwv); [|lia|simpl; auto].
    cbv zeta.
    change (skip_ws (","%char :: ?x)) with (","%char :: x).
    cbv iota. simpl Ascii.eqb. cbv iota.
    rewrite Hs.
    change (skip_ws (char_quote :: ?x)) with (char_quote :: x).
    cbv iota. simpl Ascii.eqb. cbv iota.
    exact Hb.
Qed.

Lemma json_encode_list (l : list pyval) :
  json_encode (PList l)
  = "["%char :: join_chars item_sep (map json_encode l) ++ ["]"%char].
Proof. reflexivity. Qed.

Lemma json_encode_dict (d : dict) :
  json_encode (PDict d)
  = "{"%char :: join_chars item_sep (map encode_member d) ++ ["}"%char].
Proof. reflexivity. Qed.

Theorem parse_value_encode (v : pyval) : decodes v.
Proof.
  induction v as [| b | z | | s | l IH | d IH] using pyval_nested_ind;
    intros Hwf fuel rest Hfuel Hd.
  - destruct fuel; [simpl in Hfuel; lia|reflexivity].
  - destruct fuel; [destruct b; simpl in Hfuel; lia|destruct b; reflexivity].
  - destruct (Z_digits_head z) as (c & ds & E & Hc).
    destruct fuel; [simpl in Hfuel; rewrite E in Hfuel; simpl in Hfuel; lia|].
    rewrite <- (scan_literal_digits z rest Hd). simpl json_encode.
    rewrite E. simpl List.app. now apply parse_value_number_head.
  - destruct fuel; [simpl in Hfuel; lia|reflexivity].
  - destruct fuel; [simpl in Hfuel; lia|].
    simpl json_encode. unfold json_string. simpl List.app.
    rewrite <- List.app_assoc. simpl List.app.
    change (parse_value (S fuel) (char_quote :: ?x))
      with (match scan_string x [] with
            | Some (s0, rest0) => Some (PStr s0, rest0)
            | None => None
            end).
    rewrite scan_string_encode. simpl. now rewrite text_chars.
  - destruct fuel; [simpl in Hfuel; lia|].
    simpl in Hwf. rewrite json_encode_list in *.
    cbn [List.length] in Hfuel. rewrite length_app in Hfuel.
    cbn [List.length] in Hfuel.
    cbn [List.app]. rewrite <- List.app_assoc. cbn [List.app].
    destruct l as [|v l]; [reflexivity|].
    assert (Hj : exists c tl, join_chars item_sep (map json_encode (v :: l))
                              = c :: tl /\ value_start c).
    { destruct (json_encode_head v) as (c & tl & E & Hc).
      destruct l as [|v' l']; simpl; rewrite E; simpl;
        eexists; eexists; split; try reflexivity; exact Hc. }
    destruct Hj as (c & tl & Ej & Hc).
    pose proof (parse_elements_encode (v :: l) IH Hwf ltac:(discriminate)
                  fuel [] rest ltac:(lia)) as He.
    rewrite Ej in *. simpl List.app in *.
    change (parse_value (S fuel) ("["%char :: ?x))
      with (match skip_ws x with
            | [] => None
            | c1 :: r1 =>
                if Ascii.eqb c1 "]"%char then Some (PList [], r1)
                else
                  match parse_elements fuel (c1 :: r1) [] with
                  | Some (vs, rest0) => Some (PList vs, rest0)
                  | None => None
                  end
            end).
    rewrite (skip_ws_start _ _ Hc).
    destruct Hc as (_ & Hc & _). rewrite Hc, He. reflexivity.
  - destruct fuel; [simpl in Hfuel; lia|].
    simpl in Hwf. apply andb_true_iff in Hwf as [Hk Hwf].
    rewrite json_encode_dict in *.
    cbn [List.length] in Hfuel. rewrite length_app in Hfuel.
    cbn [List.length] in Hfuel.
    cbn [List.app]. rewrite <- List.app_assoc. cbn [List.app].
    destruct d as [|kv d]; [reflexivity|].
    destruct (parse_members_encode (kv :: d) IH Hwf ltac:(discriminate)
                fuel [] rest ltac:(lia)) as (body & Eb & Hb).
    rewrite Eb. simpl List.app.
    change (parse_value (S fuel) ("{"%char :: char_quote :: ?x))
      with (match parse_members fuel x [] with
            | Some (dd, rest0) => Some (PDict dd, rest0)
            | None => None
            end).
    rewrite Hb. rewrite (dict_set_all_fresh (kv :: d) []); [reflexivity|].
    simpl List.app. now apply distinct_keys_NoDup.
Qed.

Theorem json_decode_encode (v : pyval) :
  well_formed v = true -> json_decode (json_encode v) = Some v.
Proof.
  intros Hwf. unfold json_decode.
  pose proof (skip_ws_encode v []) as Hs. rewrite List.app_nil_r in Hs.
  rewrite Hs.
  pose proof (parse_value_encode v Hwf (List.length (json_encode v)) []
                (le_n _) I) as Hp.
  rewrite List.app_nil_r in Hp. rewrite Hp. reflexivity.
Qed.

Theorem json_loads_dumps (v : pyval) :
  well_formed v = true -> json_loads (json_dumps v) = Ok v.
Proof.
  intros Hwf. unfold json_loads, json_dumps.
  now rewrite chars_text, json_decode_encode.
Qed.

(** * The response flattener *)

Lemma bind_ok {A B : Type} (r : result A) (k : A -> result B) (b : B) :
  bind r k = Ok b -> exists a, r = Ok a /\ k a = Ok b.
Proof. destruct r as [a|e]; simpl; [eauto|discriminate]. Qed.

Ltac bind_inv H :=
  let a := fresh "x" in
  let Ha := fresh "E" in
  apply bind_ok in H; destruct H as (a & Ha & H).

Lemma foldM_app {A B : Type} (f : B -> A -> result B) (l1 l2 : list A) (b : B) :
  foldM f (l1 ++ l2) b = bind (foldM f l1 b) (foldM f l2).
Proof.
  revert b. induction l1 as [|a l1 IH]; intros b; simpl; [reflexivity|].
  destruct (f b a); simpl; [apply IH|reflexivity].
Qed.

Lemma foldM_invariant {A B : Type} (f : B -> A -> result B) (I : B -> Prop) :
  (forall b a b', I b -> f b a = Ok b' -> I b') ->
  forall l b b', I b -> foldM f l b = Ok b' -> I b'.
Proof.
  intros Hf. induction l as [|a l IH]; simpl; intros b b' Hb H.
  - now inversion H; subst.
  - bind_inv H. eauto.
Qed.

Lemma mapM_Forall2 {A B : Type} (f : A -> result B) (l : list A) (bs : list B) :
  mapM f l = Ok bs -> Forall2 (fun a b => f a = Ok b) l bs.
Proof.
  revert bs. induction l as [|a l IH]; simpl; intros bs H.
  - inversion H. constructor.
  - bind_inv H. bind_inv H. inversion H; subst. constructor; auto.
Qed.

(** Writing a column never removes another one. *)
Lemma has_column_set (k c : string) (v : pyval) (d : dict) :
  has_column d c -> has_column (dict_set k v d) c.
Proof.
  unfold has_column. intros H. destruct (String.eqb k c) eqn:E.
  - apply String.eqb_eq in E. subst. now rewrite dict_get_set_eq.
  - apply String.eqb_neq in E. now rewrite dict_get_set_ne.
Qed.

Lemma has_column_store (col c : string) (v : pyval) (d : dict) :
  has_column d c -> has_column (store_attribute col v d) c.
Proof.
  unfold store_attribute. destruct (is_complex v); apply has_column_set.
Qed.

Lemma has_column_fold_store (f : string -> string) (attrs : list (string * pyval))
    (c : string) (d : dict) :
  has_column d c ->
  has_column (fold_left (fun dd kv => store_attribute (f (fst kv)) (snd kv) dd) attrs d) c.
Proof.
  revert d. induction attrs as [|kv attrs IH]; simpl; intros d H; [exact H|].
  apply IH. now apply has_column_store.
Qed.

Lemma has_column_rel_item (lookup : dict) (c : string) (st st' : dict * list pyval)
    (rel_item : pyval) :
  has_column (fst st) c -> process_rel_item lookup st rel_item = Ok st' ->
  has_column (fst st') c.
Proof.
  destruct st as [d ids]. unfold process_rel_item. intros Hc H.
  destruct rel_item; try (inversion H; subst; exact Hc).
  bind_inv H. bind_inv H.
  destruct (truthy x); [|inversion H; subst; exact Hc].
  destruct (dict_get lookup _) as [inc|]; [|inversion H; subst; exact Hc].
  destruct (truthy inc); [|inversion H; subst; exact Hc].
  bind_inv H. bind_inv H. inversion H; subst. simpl.
  unfold inline_attributes.
  now apply (has_column_fold_store (underscore (py_str x0))).
Qed.

Lemma has_column_store_rel_ids (rel_name c : string) (ids : list pyval) (d : dict) :
  has_column d c -> has_column (store_rel_ids rel_name ids d) c.
Proof.
  unfold store_rel_ids. intros H. destruct ids as [|i ids]; [exact H|].
  apply has_column_set. destruct (Nat.eqb _ _); [now apply has_column_set|exact H].
Qed.

Lemma has_column_relationship (lookup : dict) (c : string) (d d' : dict)
    (rel : string * pyval) :
  has_column d c -> process_relationship lookup d rel = Ok d' -> has_column d' c.
Proof.
  destruct rel as [rel_name rel_data]. unfold process_relationship. intros Hc H.
  destruct (negb (truthy rel_data)); [inversion H; subst; exact Hc|].
  bind_inv H. destruct (negb x); [inversion H; subst; exact Hc|].
  bind_inv H. bind_inv H. destruct x1 as [d1 ids]. inversion H; subst.
  apply has_column_store_rel_ids.
  apply (foldM_invariant (process_rel_item lookup) (fun st => has_column (fst st) c))
    with (l := as_rel_items x0) (b := (d, [])) (b' := (d1, ids)); auto.
  intros b a b' Hb Hf. eapply has_column_rel_item; eauto.
Qed.

(** Every row carries its primary-key column. *)
Lemma process_item_primary_key (lookup : dict) (item : pyval) (row : dict) :
  process_item lookup item = Ok row ->
  exists item_type,
    py_get item "type" (PStr "") = Ok item_type /\
    has_column row (py_str item_type ++ "_id")%string.
Proof.
  unfold process_item. intros H.
  bind_inv H. bind_inv H. bind_inv H. bind_inv H. bind_inv H. bind_inv H.
  exists x0. split; [exact E0|].
  eapply (foldM_invariant (process_relationship lookup)
            (fun d => has_column d (py_str x0 ++ "_id")%string)); [| |exact H].
  - intros b a b' Hb Hf. eapply has_column_relationship; eauto.
  - apply (has_column_fold_store (fun k => k)).
    unfold has_column. simpl. now rewrite String.eqb_refl.
Qed.

(** C5, as the code has it.  The test on id and type stands in the loop over
    the included resources only (line 57): an included resource whose id or
    type is missing or empty is left out of the lookup.  The loop over the
    data items (lines 62 to 119) has no such test, and no data item is
    skipped: whenever the page is processed without an exception, the rows
    are in one-to-one correspondence with the data items, in order, and the
    row of an item carries the primary-key column named after the type the
    item gives (the empty string when it gives none, so the column is
    [_id]).  Whenever an exception is raised anywhere in the page,
    [process_jsonapi_response] returns the empty list instead of raising. *)
Theorem every_data_item_yields_a_row (response : pyval) (endpoint : string) :
  match process_jsonapi_response_body response with
  | Ok rows =>
      process_jsonapi_response response endpoint = rows /\
      exists items,
        data_items_of response = Ok items /\
        Forall2
          (fun item row =>
             exists item_type,
               py_get item "type" (PStr "") = Ok item_type /\
               has_column row (py_str item_type ++ "_id")%string)
          items rows
  | Raise _ => process_jsonapi_response response endpoint = []
  end /\
  (forall (included_lookup : dict) (item item_id item_type : pyval),
      py_get item "id" PNone = Ok item_id ->
      py_get item "type" (PStr "") = Ok item_type ->
      truthy item_id && truthy item_type = false ->
      add_included included_lookup item = Ok included_lookup).
Proof.
  split.
  - unfold process_jsonapi_response.
    destruct (process_jsonapi_response_body response) as [rows|e] eqn:E;
      [|reflexivity].
    split; [reflexivity|].
    unfold process_jsonapi_response_body in E.
    bind_inv E. bind_inv E. bind_inv E. bind_inv E. bind_inv E.
    exists x3. split.
    + unfold data_items_of. now rewrite E0.
    + apply mapM_Forall2 in E.
      revert E. apply Forall2_impl. intros item row Hrow.
      eapply process_item_primary_key; eauto.
  - intros included_lookup item item_id item_type Hid Htype Hguard.
    unfold add_included. rewrite Hid. cbn [bind]. rewrite Htype. cbn [bind].
    now rewrite Hguard.
Qed.

(** C5, the failing input: a page whose first item has no id and whose second
    has no type yields three rows, one per item, where the specification has
    the two malformed items skipped; the same two items, sent as included
    resources, are both left out of the lookup. *)
Lemma malformed_items_are_not_skipped :
  process_jsonapi_response response_with_malformed_items "/people/v2/people"
  = [[("Person_id"%string, PNone); ("name"%string, PStr "Ann")];
     [("_id"%string, PStr "9"); ("name"%string, PStr "Bob")];
     [("Person_id"%string, PStr "3"); ("name"%string, PStr "Cy")]] /\
  build_included_lookup
    [PDict [("type"%string, PStr "Person");
            ("attributes"%string, PDict [("name"%string, PStr "Ann")])];
     PDict [("id"%string, PStr "9");
            ("attributes"%string, PDict [("name"%string, PStr "Bob")])]]
  = Ok [].
Proof. split; reflexivity. Qed.

(** ** Column names *)

Lemma append_inj_l (a b s : string) : (a ++ s = b ++ s)%string -> a = b.
Proof.
  intros H. apply chars_inj. apply (f_equal chars) in H.
  rewrite !chars_append in H. now apply app_inv_tail in H.
Qed.

Lemma append_inj_r (a x y : string) : (a ++ x = a ++ y)%string -> x = y.
Proof.
  intros H. apply chars_inj. apply (f_equal chars) in H.
  rewrite !chars_append in H. now apply app_inv_head in H.
Qed.

Lemma id_column_not_ids (a b : string) : (a ++ "_id")%string <> (b ++ "_ids")%string.
Proof.
  intros H. apply (f_equal chars) in H. rewrite !chars_append in H.
  apply (f_equal (@rev ascii)) in H. rewrite !rev_app_distr in H.
  simpl in H. discriminate H.
Qed.

(** ** The ids of one relationship *)

Lemma rel_items_collect_ids (lookup : dict) (rel_items : list pyval) :
  forall (d d' : dict) (acc ids ids' : list pyval),
    foldM (process_rel_item lookup) rel_items (d, acc) = Ok (d', ids') ->
    reference_ids rel_items = Some ids ->
    ids' = acc ++ ids.
Proof.
  induction rel_items as [|r rel_items IH]; simpl; intros d d' acc ids ids' H Hids.
  - inversion H; inversion Hids; subst. now rewrite List.app_nil_r.
  - destruct (reference_id r) as [i|] eqn:Ei; [|discriminate].
    destruct (reference_ids rel_items) as [rest|] eqn:Er; [|discriminate].
    inversion Hids; subst. bind_inv H. destruct x as [d1 ids1].
    assert (ids1 = acc ++ [i]) as ->.
    { unfold reference_id in Ei. destruct r; try discriminate.
      unfold process_rel_item in E. simpl in E.
      destruct (dict_get d0 "id") as [rel_id|]; [|discriminate].
      destruct (truthy rel_id) eqn:Et; [|discriminate].
      inversion Ei; subst.
      destruct (dict_get lookup _) as [inc|]; [|now inversion E].
      destruct (truthy inc); [|now inversion E].
      bind_inv E. bind_inv E. now inversion E. }
    rewrite (IH _ _ _ _ _ H eq_refl). now rewrite <- List.app_assoc.
Qed.

Lemma store_rel_ids_columns (rel_name : string) (ids : list pyval) (d : dict) :
  ids <> [] ->
  dict_get (store_rel_ids rel_name ids d) (rel_name ++ "_ids")%string
  = Some (PStr (json_dumps (PList ids))) /\
  (forall i, ids = [i] ->
     dict_get (store_rel_ids rel_name ids d) (rel_name ++ "_id")%string = Some i).
Proof.
  intros Hne. destruct ids as [|first ids]; [congruence|].
  unfold store_rel_ids. split.
  - now rewrite dict_get_set_eq.
  - intros i Hi. inversion Hi; subst. simpl.
    rewrite dict_get_set_ne; [apply dict_get_set_eq|].
    intros H. symmetry in H. now apply id_column_not_ids in H.
Qed.

Lemma process_relationship_stores_ids (lookup : dict) (d d' : dict)
    (rel_name : string) (rel_data : pyval) (rel_items ids : list pyval) :
  process_relationship lookup d (rel_name, rel_data) = Ok d' ->
  references_of rel_data = Some rel_items ->
  reference_ids rel_items = Some ids -> ids <> [] ->
  dict_get d' (rel_name ++ "_ids")%string = Some (PStr (json_dumps (PList ids))) /\
  (forall i, ids = [i] -> dict_get d' (rel_name ++ "_id")%string = Some i).
Proof.
  intros H Hrefs Hids Hne. unfold references_of in Hrefs.
  destruct rel_data as [| | | | |l|rd]; try discriminate.
  destruct (dict_get rd "data") as [data|] eqn:Ed; [|discriminate].
  inversion Hrefs; subst. unfold process_relationship in H.
  assert (Ht : truthy (PDict rd) = true) by (destruct rd; [discriminate|reflexivity]).
  rewrite Ht in H. simpl in H. rewrite Ed in H. simpl in H.
  bind_inv H. destruct x as [d1 ids1]. inversion H; subst.
  pose proof (rel_items_collect_ids _ _ _ _ _ _ _ E Hids) as ->. simpl.
  now apply store_rel_ids_columns.
Qed.

(** ** Columns a later relationship leaves alone *)

Lemma store_attribute_other (col c : string) (v : pyval) (d : dict) :
  col <> c -> dict_get (store_attribute col v d) c = dict_get d c.
Proof.
  intros H. unfold store_attribute.
  destruct (is_complex v); now apply dict_get_set_ne.
Qed.

Lemma inline_attributes_other (rel_type : pyval) (attrs : list (string * pyval))
    (c : string) (d : dict) :
  ~ In c (map (fun kv => underscore (py_str rel_type) (fst kv)) attrs) ->
  dict_get (inline_attributes rel_type attrs d) c = dict_get d c.
Proof.
  unfold inline_attributes. revert d.
  induction attrs as [|kv attrs IH]; simpl; intros d Hn; [reflexivity|].
  rewrite IH; [|tauto]. apply store_attribute_other. tauto.
Qed.

Lemma process_rel_item_other (lookup : dict) (c : string) (st st' : dict * list pyval)
    (rel_item : pyval) :
  process_rel_item lookup st rel_item = Ok st' ->
  ~ In c (inlined_by_reference lookup rel_item) ->
  dict_get (fst st') c = dict_get (fst st) c.
Proof.
  destruct st as [d ids]. unfold process_rel_item, inlined_by_reference.
  intros H Hn. destruct rel_item as [| | | | | |rd]; try (now inversion H).
  simpl in H.
  destruct (truthy _); [|now inversion H].
  destruct (dict_get lookup _) as [inc|]; [|now inversion H].
  destruct (truthy inc); [|now inversion H].
  bind_inv H. bind_inv H. inversion H; subst. simpl.
  destruct inc as [| | | | | |inc]; try discriminate E.
  simpl in E. inversion E; subst.
  destruct (dict_get inc "attributes") as [a|].
  - destruct a; try discriminate E0. simpl in E0. inversion E0; subst.
    now apply inline_attributes_other.
  - simpl in E0. now inversion E0.
Qed.

Lemma rel_items_other (lookup : dict) (c : string) (rel_items : list pyval) :
  forall st st',
    foldM (process_rel_item lookup) rel_items st = Ok st' ->
    ~ In c (flat_map (inlined_by_reference lookup) rel_items) ->
    dict_get (fst st') c = dict_get (fst st) c.
Proof.
  induction rel_items as [|r rel_items IH]; simpl; intros st st' H Hn.
  - now inversion H.
  - bind_inv H. rewrite (IH _ _ H).
    + eapply process_rel_item_other; eauto.
      intros Hin. apply Hn. apply in_or_app. now left.
    + intros Hin. apply Hn. apply in_or_app. now right.
Qed.

Lemma store_rel_ids_other (rel_name c : string) (ids : list pyval) (d : dict) :
  c <> (rel_name ++ "_id")%string -> c <> (rel_name ++ "_ids")%string ->
  dict_get (store_rel_ids rel_name ids d) c = dict_get d c.
Proof.
  intros H1 H2. unfold store_rel_ids. destruct ids as [|i ids]; [reflexivity|].
  rewrite dict_get_set_ne; [|congruence].
  destruct (Nat.eqb _ _); [|reflexivity].
  apply dict_get_set_ne. congruence.
Qed.

Lemma process_relationship_other (lookup : dict) (c : string) (d d' : dict)
    (rel : string * pyval) :
  process_relationship lookup d rel = Ok d' ->
  ~ In c (inlined_columns lookup (snd rel)) ->
  c <> (fst rel ++ "_id")%string -> c <> (fst rel ++ "_ids")%string ->
  dict_get d' c = dict_get d c.
Proof.
  destruct rel as [rel_name rel_data]. simpl.
  unfold process_relationship, inlined_columns, references_of.
  intros H Hn H1 H2.
  destruct (negb (truthy rel_data)); [now inversion H|].
  bind_inv H. destruct (negb x); [now inversion H|].
  bind_inv H. bind_inv H. destruct x1 as [d1 ids]. inversion H; subst.
  rewrite store_rel_ids_other; auto.
  destruct rel_data as [| | | | | |rd]; try discriminate E0.
  simpl in E0. destruct (dict_get rd "data") as [data|]; [|discriminate].
  inversion E0; subst.
  apply (rel_items_other lookup c _ _ _ E1). exact Hn.
Qed.

Lemma relationships_other (lookup : dict) (c : string)
    (rels : list (string * pyval)) :
  forall d d',
    foldM (process_relationship lookup) rels d = Ok d' ->
    Forall (fun rel => ~ In c (inlined_columns lookup (snd rel)) /\
                       c <> (fst rel ++ "_id")%string /\
                       c <> (fst rel ++ "_ids")%string) rels ->
    dict_get d' c = dict_get d c.
Proof.
  induction rels as [|rel rels IH]; simpl; intros d d' H HF.
  - now inversion H.
  - inversion HF as [|? ? (Ha & Hb & Hc) HF']; subst. bind_inv H.
    rewrite (IH _ _ H HF'). eapply process_relationship_other; eauto.
Qed.

(** The row of one item: the ids of a relationship survive every relationship
    processed after it that inlines no column of the same name. *)
Lemma process_item_relationship_ids (lookup : dict) (item : pyval) (row : dict)
    (before after : list (string * pyval)) (rel_name : string)
    (rel_data : pyval) (rel_items ids : list pyval) :
  process_item lookup item = Ok row ->
  py_get item "relationships" (PDict [])
  = Ok (PDict (before ++ (rel_name, rel_data) :: after)) ->
  NoDup (map fst (before ++ (rel_name, rel_data) :: after)) ->
  references_of rel_data = Some rel_items ->
  reference_ids rel_items = Some ids -> ids <> [] ->
  Forall (fun rel =>
            ~ In (rel_name ++ "_ids")%string (inlined_columns lookup (snd rel)) /\
            ~ In (rel_name ++ "_id")%string (inlined_columns lookup (snd rel)))
         after ->
  dict_get row (rel_name ++ "_ids")%string = Some (PStr (json_dumps (PList ids))) /\
  (forall i, ids = [i] -> dict_get row (rel_name ++ "_id")%string = Some i).
Proof.
  intros H Hrels Hnd Hrefs Hids Hne Hafter.
  unfold process_item in H.
  bind_inv H. bind_inv H. bind_inv H. bind_inv H. bind_inv H. bind_inv H.
  rewrite Hrels in E2. inversion E2; subst x2. simpl in E4. inversion E4; subst x4.
  rewrite foldM_app in H. bind_inv H. simpl in H. bind_inv H.
  destruct (process_relationship_stores_ids _ _ _ _ _ _ _ E6 Hrefs Hids Hne)
    as [Hids_col Hid_col].
  assert (Hnames : Forall (fun rel => fst rel <> rel_name) after).
  { rewrite map_app in Hnd. simpl in Hnd. apply NoDup_remove_2 in Hnd.
    apply Forall_forall. intros rel Hin Heq. apply Hnd.
    apply in_or_app. right. rewrite <- Heq. now apply in_map. }
  split.
  - rewrite <- Hids_col. apply (relationships_other lookup _ after _ _ H).
    rewrite Forall_forall in *. intros rel Hin.
    destruct (Hafter rel Hin) as [Ha _]. specialize (Hnames rel Hin).
    repeat split; [exact Ha| |].
    + intros Heq. symmetry in Heq. now apply id_column_not_ids in Heq.
    + intros Heq. apply append_inj_l in Heq. congruence.
  - intros i Hi. rewrite <- (Hid_col i Hi).
    apply (relationships_other lookup _ after _ _ H).
    rewrite Forall_forall in *. intros rel Hin.
    destruct (Hafter rel Hin) as [_ Ha]. specialize (Hnames rel Hin).
    repeat split; [exact Ha| |].
    + intros Heq. apply append_inj_l in Heq. congruence.
    + now apply id_column_not_ids.
Qed.

Lemma mapM_nth {A B : Type} (f : A -> result B) (l : list A) (bs : list B)
    (n : nat) (a : A) :
  mapM f l = Ok bs -> nth_error l n = Some a ->
  exists b, nth_error bs n = Some b /\ f a = Ok b.
Proof.
  revert bs n. induction l as [|x l IH]; intros bs n H Hn.
  - destruct n; discriminate.
  - simpl in H. bind_inv H. bind_inv H. inversion H; subst.
    destruct n as [|n]; simpl in *.
    + inversion Hn; subst. eauto.
    + eauto.
Qed.

(** C1, as the code has it.  Take a page that is processed without an
    exception, its [n]-th data item, and a relationship of that item whose
    references all carry ids, [k >= 1] of them.  Provided no relationship
    processed after it inlines an included attribute into a column named
    [{relation}_ids] or [{relation}_id], the [n]-th row holds under
    [{relation}_ids] a string that [json.loads] decodes to exactly those ids
    in their order, and when [k = 1] it holds that id under [{relation}_id]. *)
Theorem relationship_ids_round_trip (response : pyval) (endpoint : string)
    (included_lookup : dict) (rows : list dict) (items : list pyval)
    (n : nat) (item : pyval)
    (before after : list (string * pyval)) (rel_name : string)
    (rel_data : pyval) (rel_items ids : list pyval) :
  process_jsonapi_response_body response = Ok rows ->
  included_lookup_of response = Ok included_lookup ->
  data_items_of response = Ok items ->
  nth_error items n = Some item ->
  py_get item "relationships" (PDict [])
  = Ok (PDict (before ++ (rel_name, rel_data) :: after)) ->
  NoDup (map fst (before ++ (rel_name, rel_data) :: after)) ->
  references_of rel_data = Some rel_items ->
  reference_ids rel_items = Some ids -> ids <> [] ->
  forallb well_formed ids = true ->
  Forall (fun rel =>
            ~ In (rel_name ++ "_ids")%string
                 (inlined_columns included_lookup (snd rel)) /\
            ~ In (rel_name ++ "_id")%string
                 (inlined_columns included_lookup (snd rel)))
         after ->
  exists row,
    nth_error (process_jsonapi_response response endpoint) n = Some row /\
    (exists s, dict_get row (rel_name ++ "_ids")%string = Some (PStr s) /\
               json_loads s = Ok (PList ids)) /\
    (forall i, ids = [i] -> dict_get row (rel_name ++ "_id")%string = Some i).
Proof.
  intros Hbody Hlookup Hitems Hn Hrels Hnd Hrefs Hids Hne Hwf Hafter.
  unfold process_jsonapi_response. rewrite Hbody.
  unfold process_jsonapi_response_body in Hbody.
  unfold included_lookup_of in Hlookup. unfold data_items_of in Hitems.
  bind_inv Hbody. bind_inv Hbody. bind_inv Hbody. bind_inv Hbody. bind_inv Hbody.
  rewrite E in Hitems. simpl in Hitems.
  rewrite E0 in Hlookup. simpl in Hlookup. rewrite E1 in Hlookup. simpl in Hlookup.
  assert (x2 = included_lookup) by congruence.
  assert (x3 = items) by congruence. subst.
  destruct (mapM_nth _ _ _ _ _ Hbody Hn) as (row & Hrow & Hitem).
  exists row. split; [exact Hrow|].
  destruct (process_item_relationship_ids _ _ _ _ _ _ _ _ _
              Hitem Hrels Hnd Hrefs Hids Hne Hafter) as [H1 H2].
  split; [|exact H2].
  eexists. split; [exact H1|]. now apply json_loads_dumps.
Qed.

(** A check-in linked to the event times 12 and 34: the row holds the two ids
    under [event_times_ids], and the later relationship [person] inlines only
    [Person_first_name]. *)
Lemma relationship_ids_round_trip_witness :
  exists row,
    nth_error (process_jsonapi_response response_with_links "/check-ins/v2/check_ins") 0
    = Some row /\
    (exists s, dict_get row "event_times_ids" = Some (PStr s) /\
               json_loads s = Ok (PList [PStr "12"; PStr "34"])) /\
    (forall i, [PStr "12"; PStr "34"] = [i] ->
               dict_get row "event_times_id" = Some i).
Proof.
  eapply (relationship_ids_round_trip response_with_links
            "/check-ins/v2/check_ins" _ _ _ 0 check_in_item []
            (tl check_in_relationships) "event_times").
  - reflexivity.
  - reflexivity.
  - reflexivity.
  - reflexivity.
  - reflexivity.
  - simpl. repeat constructor; simpl; intuition discriminate.
  - reflexivity.
  - reflexivity.
  - discriminate.
  - reflexivity.
  - repeat constructor; simpl; intuition discriminate.
Defined.

(** C1, counterexample: the relationship [owner] links the single id 1, and
    the later relationship [pet] inlines the attribute [ids] of an included
    resource of type [owner]; the row holds the attribute under [owner_ids],
    which does not decode to the list of the one linked id. *)
Lemma inlined_attribute_overwrites_relation_ids :
  process_jsonapi_response response_with_collision "/check-ins/v2/check_ins"
  = [[("CheckIn_id"%string, PStr "7"); ("owner_id"%string, PStr "1");
      ("owner_ids"%string, PStr "zzz"); ("pet_id"%string, PStr "2");
      ("pet_ids"%string, PStr (json_dumps (PList [PStr "2"])))]]
  /\ json_loads "zzz" = raise_of ValueError.
Proof. split; reflexivity. Qed.

(** ** The included lookup *)

Lemma add_included_same_key (a b ia ta ib tb : pyval) (lookup : dict) :
  py_get a "id" PNone = Ok ia -> py_get a "type" (PStr "") = Ok ta ->
  py_get b "id" PNone = Ok ib -> py_get b "type" (PStr "") = Ok tb ->
  truthy ia && truthy ta = true -> truthy ib && truthy tb = true ->
  underscore (py_str ia) (py_str ta) = underscore (py_str ib) (py_str tb) ->
  exists lookup',
    foldM add_included [a; b] lookup = Ok lookup' /\
    dict_get lookup' (underscore (py_str ia) (py_str ta)) = Some b.
Proof.
  intros Ha Hta Hb Htb Hya Hyb Hkey. simpl. unfold add_included.
  rewrite Ha, Hta. simpl. rewrite Hya. rewrite Hb, Htb. simpl. rewrite Hyb.
  eexists. split; [reflexivity|]. rewrite Hkey. apply dict_get_set_eq.
Qed.

(** C9: the included resources with id [1_a], type [b] and with id [1], type
    [a_b] are distinct and share the lookup key [1_a_b]; the lookup built from
    both holds one entry, the second resource; and a data item that refers to
    the first one gets the attribute of the second inlined. *)
Theorem included_lookup_conflates_keys :
  included_first <> included_second /\
  underscore "1_a" "b" = underscore "1" "a_b" /\
  build_included_lookup [included_first; included_second]
  = Ok [("1_a_b"%string, included_second)] /\
  process_jsonapi_response response_with_conflation "/check-ins/v2/check_ins"
  = [[("CheckIn_id"%string, PStr "5"); ("b_name"%string, PStr "second");
      ("thing_id"%string, PStr "1_a");
      ("thing_ids"%string, PStr (json_dumps (PList [PStr "1_a"])))]].
Proof.
  repeat split; try reflexivity. discriminate.
Qed.

(** * Parsing the link ids *)

Section ParseFacts.

Variable json_loads_py : string -> result pyval.
Variable literal_eval : string -> result pyval.

Let parse := parse_event_time_ids json_loads_py literal_eval.

Lemma parse_literal_or_scalar_total (s : string) :
  exists ids, parse_literal_or_scalar literal_eval s = Ok ids.
Proof.
  unfold parse_literal_or_scalar, try_except.
  destruct (literal_eval s) as [v|e]; simpl; [eauto|].
  destruct (isdigit s); [|eauto].
  destruct (py_int s); simpl; eauto.
Qed.

Lemma parse_event_time_ids_total (val : pyval) : exists ids, parse val = Ok ids.
Proof.
  unfold parse, parse_event_time_ids.
  destruct val; try (eexists; reflexivity).
  destruct (String.eqb (strip s) ""); [eauto|].
  destruct (_ || _); [|apply parse_literal_or_scalar_total].
  destruct (json_loads_py (strip s)); simpl; [eauto|].
  apply parse_literal_or_scalar_total.
Qed.

Lemma mapM_parse_total (vals : list pyval) :
  exists parsed, mapM parse vals = Ok parsed /\ List.length parsed = List.length vals.
Proof.
  induction vals as [|v vals (parsed & E & L)]; simpl; [eauto|].
  destruct (parse_event_time_ids_total v) as (ids & ->). simpl.
  rewrite E. simpl. exists (ids :: parsed). split; [reflexivity|simpl; congruence].
Qed.

End ParseFacts.

(** ** Texts of digits *)

Lemma digit_not_space (c : ascii) : is_ascii_digit c = true -> is_space c = false.
Proof.
  destruct c as [[] [] [] [] [] [] [] []]; intros H; try discriminate H; reflexivity.
Qed.

Lemma digit_is_digit_char (c : ascii) :
  is_ascii_digit c = true -> is_digit_char c = true.
Proof. unfold is_digit_char. now intros ->. Qed.

Lemma lstrip_digits (l : list ascii) :
  forallb is_ascii_digit l = true -> lstrip_chars l = l.
Proof.
  destruct l as [|c l]; simpl; [reflexivity|]. intros H.
  apply andb_true_iff in H as [H _]. now rewrite (digit_not_space _ H).
Qed.

Lemma forallb_rev {A : Type} (f : A -> bool) (l : list A) :
  forallb f (rev l) = forallb f l.
Proof.
  induction l as [|x l IH]; simpl; [reflexivity|].
  rewrite forallb_app, IH. simpl. rewrite andb_true_r. apply andb_comm.
Qed.

Lemma strip_digits (s : string) : ascii_digits s = true -> strip s = s.
Proof.
  unfold ascii_digits, strip. intros H.
  assert (Hd : forallb is_ascii_digit (chars s) = true).
  { destruct (chars s); [discriminate|exact H]. }
  rewrite (lstrip_digits _ Hd), lstrip_digits, rev_involutive, text_chars;
    [reflexivity|now rewrite forallb_rev].
Qed.

Lemma digits_not_bracketed (s : string) (p : string) :
  ascii_digits s = true ->
  (exists c, p = String c "" /\ is_ascii_digit c = false) ->
  startswith s p = false.
Proof.
  unfold ascii_digits, startswith. intros H (c & -> & Hc).
  unfold chars at 1. simpl.
  destruct (chars s) as [|d l]; [discriminate|]. simpl in *.
  apply andb_true_iff in H as [H _].
  destruct (Ascii.eqb c d) eqn:E; [|reflexivity].
  apply Ascii.eqb_eq in E. congruence.
Qed.

Lemma digits_isdigit (s : string) : ascii_digits s = true -> isdigit s = true.
Proof.
  unfold ascii_digits, isdigit. destruct (chars s) as [|c l]; [discriminate|].
  intros H. apply forallb_forall. intros x Hx.
  apply digit_is_digit_char. revert x Hx. now apply forallb_forall.
Qed.

Lemma digits_nonempty (s : string) : ascii_digits s = true -> String.eqb s "" = false.
Proof. destruct s; [discriminate|reflexivity]. Qed.

(** A text of digits denotes zero exactly when all its digits are zeros. *)
Lemma nzhead_nil_zeros (d : Decimal.uint) :
  Decimal.nzhead d = Decimal.Nil -> forallb (Ascii.eqb "0"%char) (uint_chars d) = true.
Proof. induction d; simpl; intros H; try discriminate; auto. Qed.

Lemma of_uint_zero (d : Decimal.uint) :
  N.of_uint d = 0%N -> forallb (Ascii.eqb "0"%char) (uint_chars d) = true.
Proof.
  intros H. apply nzhead_nil_zeros.
  assert (Hu : Decimal.unorm d = Decimal.D0 Decimal.Nil).
  { rewrite <- DecimalN.Unsigned.to_of, H. reflexivity. }
  pose proof (nzhead_no_zero d) as Hz. unfold Decimal.unorm in Hu.
  destruct (Decimal.nzhead d); try discriminate; [reflexivity|contradiction].
Qed.

Lemma uint_chars_chars_uint (l : list ascii) :
  forallb is_ascii_digit l = true -> uint_chars (chars_uint l) = l.
Proof.
  induction l as [|c l IH]; simpl; [reflexivity|]. intros H.
  apply andb_true_iff in H as [Hc Hl]. specialize (IH Hl).
  destruct c as [[] [] [] [] [] [] [] []]; try discriminate Hc;
    simpl; now rewrite IH.
Qed.

Lemma digits_N_zero (l : list ascii) :
  forallb is_ascii_digit l = true ->
  (digits_N l =? 0)%N = forallb (Ascii.eqb "0"%char) l.
Proof.
  intros Hd. destruct (digits_N l =? 0)%N eqn:E.
  - apply N.eqb_eq in E. unfold digits_N in E. apply of_uint_zero in E.
    now rewrite (uint_chars_chars_uint _ Hd) in E.
  - symmetry. apply not_true_is_false. intros Hz.
    apply N.eqb_neq in E. apply E. clear E Hd.
    unfold digits_N. induction l as [|c l IH]; [reflexivity|].
    cbn [forallb] in Hz. apply andb_true_iff in Hz as [Hc Hl].
    apply Ascii.eqb_eq in Hc. subst c. simpl. exact (IH Hl).
Qed.

Section DigitTexts.

Variable json_loads_py : string -> result pyval.
Variable literal_eval : string -> result pyval.

Lemma parse_digit_text_fallback (s : string) :
  ascii_digits s = true ->
  parse_event_time_ids json_loads_py literal_eval (PStr s)
  = parse_literal_or_scalar literal_eval s.
Proof.
  intros Hd. unfold parse_event_time_ids.
  rewrite (strip_digits _ Hd), (digits_nonempty _ Hd).
  rewrite (digits_not_bracketed s "[" Hd)
    by (eexists; split; reflexivity).
  rewrite (digits_not_bracketed s (String char_quote "") Hd)
    by (eexists; split; reflexivity).
  reflexivity.
Qed.

Lemma digits_value_zero (s : string) :
  ascii_digits s = true ->
  (digits_value s =? 0)%Z = forallb (Ascii.eqb "0"%char) (chars s).
Proof.
  unfold ascii_digits, digits_value. intros Hd.
  destruct (chars s) as [|c r] eqn:Ec; [discriminate|].
  rewrite <- (digits_N_zero _ Hd).
  destruct (digits_N (c :: r)); reflexivity.
Qed.

(** What [parse_event_time_ids] returns for a text of digits, when
    [ast.literal_eval] reads it as Python reads a decimal literal. *)
Lemma chars_length (s : string) : List.length (chars s) = String.length s.
Proof. unfold chars. induction s as [|c s IH]; simpl; congruence. Qed.

Lemma parse_digit_text (s : string) :
  ascii_digits s = true ->
  String.length s <= 4300 ->
  literal_eval s = decimal_literal s ->
  parse_event_time_ids json_loads_py literal_eval (PStr s)
  = Ok (if (digits_value s =? 0)%Z then [] else [PInt (digits_value s)]).
Proof.
  intros Hd Hlen Hlit. rewrite (parse_digit_text_fallback _ Hd).
  pose proof (digits_value_zero _ Hd) as Hz.
  unfold parse_literal_or_scalar. rewrite Hlit, (digits_isdigit _ Hd).
  unfold decimal_literal, py_int. unfold digits_value in *.
  unfold ascii_digits in Hd. rewrite <- chars_length in Hlen.
  destruct (chars s) as [|c r] eqn:Ec; [discriminate|].
  rewrite Hd. apply Nat.ltb_ge in Hlen. rewrite Hlen. cbn [forallb] in Hz.
  destruct (Ascii.eqb c "0"%char) eqn:E0.
  - apply Ascii.eqb_eq in E0. subst c.
    rewrite Ascii.eqb_refl in Hz. cbn [andb] in Hz.
    destruct (forallb (Ascii.eqb "0"%char) r); rewrite Hz; reflexivity.
  - rewrite Ascii.eqb_sym, E0 in Hz. cbn [andb] in Hz.
    rewrite Hz. simpl. unfold as_id_list. cbn [truthy]. rewrite Hz.
    reflexivity.
Qed.

End DigitTexts.

Lemma literal_eval_fragment_digits (s : string) :
  ascii_digits s = true -> literal_eval_fragment s = decimal_literal s.
Proof.
  unfold ascii_digits, literal_eval_fragment. intros Hd.
  destruct (chars s) as [|c r] eqn:Ec; [discriminate|].
  assert (Hc : is_ascii_digit c = true) by (simpl in Hd; now apply andb_true_iff in Hd).
  replace (Ascii.eqb c "["%char) with false
    by (destruct c as [[] [] [] [] [] [] [] []]; try discriminate Hc; reflexivity).
  unfold literal_scalar.
  replace (Ascii.eqb c char_quote || Ascii.eqb c char_apostrophe) with false
    by (destruct c as [[] [] [] [] [] [] [] []]; try discriminate Hc; reflexivity).
  pose proof (span_digits_app (c :: r) [] Hd I) as Hs.
  rewrite List.app_nil_r in Hs. rewrite Hs.
  unfold decimal_literal at 1. rewrite chars_text.
  unfold decimal_literal. rewrite Ec. rewrite Hd.
  destruct (Ascii.eqb c "0"%char); [|reflexivity].
  destruct (forallb _ r); reflexivity.
Qed.

(** C10.  For every behaviour of the two library parsers,
    [parse_event_time_ids] returns a list and never raises; None, NaN and the
    texts that are empty once stripped give the empty list; a text of at most
    4300 ASCII digits that [ast.literal_eval] reads as a decimal literal gives
    the one-element list of its integer value, except that a text denoting
    zero gives the empty list: the literal parse succeeds with 0, which the
    test [if parsed] of line 51 takes for an empty result.  The last conjunct
    evaluates the function at the text [0]. *)
Theorem parse_event_time_ids_cases
    (json_loads_py literal_eval : string -> result pyval) :
  (forall val, exists ids,
      parse_event_time_ids json_loads_py literal_eval val = Ok ids) /\
  parse_event_time_ids json_loads_py literal_eval PNone = Ok [] /\
  parse_event_time_ids json_loads_py literal_eval PNaN = Ok [] /\
  (forall s, strip s = ""%string ->
      parse_event_time_ids json_loads_py literal_eval (PStr s) = Ok []) /\
  (forall s, ascii_digits s = true -> String.length s <= 4300 ->
      literal_eval s = decimal_literal s ->
      parse_event_time_ids json_loads_py literal_eval (PStr s)
      = Ok (if (digits_value s =? 0)%Z then [] else [PInt (digits_value s)])) /\
  parse_event_time_ids json_loads literal_eval_fragment (PStr "0") = Ok [].
Proof.
  repeat split.
  - apply parse_event_time_ids_total.
  - intros s Hs. unfold parse_event_time_ids. now rewrite Hs.
  - intros s Hd Hlen Hlit. now apply parse_digit_text.
Qed.

(** * Exploding the check-ins *)

Lemma select_app {A : Type} (m1 m2 : list bool) (l1 l2 : list A) :
  List.length m1 = List.length l1 ->
  select (m1 ++ m2) (l1 ++ l2) = select m1 l1 ++ select m2 l2.
Proof.
  revert l1. induction m1 as [|b m1 IH]; intros [|x l1] H; try discriminate;
    simpl; [reflexivity|].
  injection H as H. rewrite (IH _ H). now destruct b.
Qed.

Lemma select_map_filter {A : Type} (f : A -> bool) (l : list A) :
  select (map f l) l = filter f l.
Proof.
  induction l as [|x l IH]; simpl; [reflexivity|]. rewrite IH. reflexivity.
Qed.

Lemma select_length {A : Type} (mask : list bool) (l : list A) :
  List.length mask = List.length l ->
  List.length (select mask l) = List.length (filter (fun b => b) mask).
Proof.
  revert l. induction mask as [|b mask IH]; intros [|x l] H; try discriminate;
    simpl; [reflexivity|].
  injection H as H. destruct b; simpl; now rewrite (IH _ H).
Qed.

(** Two successive selections are one selection by the conjunction. *)
Lemma select_twice {A : Type} (f g : pyval -> bool) (vs : list pyval) (l : list A) :
  List.length l = List.length vs ->
  select (map g (select (map f vs) vs)) (select (map f vs) l)
  = select (map (fun v => f v && g v) vs) l.
Proof.
  revert l. induction vs as [|v vs IH]; intros [|x l] H; try discriminate;
    simpl; [reflexivity|].
  injection H as H. destruct (f v); simpl; [|exact (IH _ H)].
  destruct (g v); now rewrite (IH _ H).
Qed.

Lemma select_repeat {A : Type} (mask : list bool) (x : A) :
  select mask (repeat x (List.length mask))
  = repeat x (List.length (filter (fun b => b) mask)).
Proof.
  induction mask as [|b mask IH]; simpl; [reflexivity|].
  destruct b; simpl; now rewrite IH.
Qed.

Lemma linked_ids_of_cell (ids : list pyval) :
  filter is_linked_id (explode_cell ids) = linked_ids ids.
Proof. destruct ids; reflexivity. Qed.

Lemma filter_true_map {A : Type} (f : A -> bool) (l : list A) :
  List.length (filter (fun b => b) (map f l)) = List.length (filter f l).
Proof.
  induction l as [|x l IH]; simpl; [reflexivity|].
  destruct (f x); simpl; now rewrite IH.
Qed.

(** The rows that survive: each value is repeated once per linked id. *)
Lemma select_exploded {A : Type} (parsed : list (list pyval)) (l : list A) :
  List.length l = List.length parsed ->
  select (map is_linked_id (flat_map explode_cell parsed))
         (repeat_each (map explode_count parsed) l)
  = repeat_each (map (fun ids => List.length (linked_ids ids)) parsed) l.
Proof.
  revert l. induction parsed as [|ids parsed IH]; intros [|x l] H;
    try discriminate; simpl; [reflexivity|].
  injection H as H. rewrite map_app, select_app.
  - rewrite (IH _ H). f_equal. unfold explode_count.
    rewrite <- (length_map is_linked_id (explode_cell ids)).
    rewrite select_repeat, filter_true_map, linked_ids_of_cell. reflexivity.
  - now rewrite length_map, repeat_length.
Qed.

Lemma exploded_ids (parsed : list (list pyval)) :
  filter is_linked_id (flat_map explode_cell parsed) = flat_map linked_ids parsed.
Proof.
  induction parsed as [|ids parsed IH]; simpl; [reflexivity|].
  now rewrite filter_app, IH, linked_ids_of_cell.
Qed.

Lemma repeat_each_length {A : Type} (counts : list nat) (l : list A) :
  List.length counts = List.length l ->
  List.length (repeat_each counts l) = list_sum counts.
Proof.
  revert l. induction counts as [|n counts IH]; intros [|x l] H; try discriminate;
    simpl; [reflexivity|].
  injection H as H. now rewrite length_app, repeat_length, (IH _ H).
Qed.

Lemma flat_map_explode_length (parsed : list (list pyval)) :
  List.length (flat_map explode_cell parsed) = list_sum (map explode_count parsed).
Proof.
  induction parsed as [|ids parsed IH]; simpl; [reflexivity|].
  now rewrite length_app, IH.
Qed.

Lemma df_get_map (f : string -> Series -> Series) (df : DataFrame) (name : string) :
  df_get (map (fun c => (fst c, f (fst c) (snd c))) df) name
  = option_map (f name) (df_get df name).
Proof.
  induction df as [|[n s] df IH]; simpl; [reflexivity|].
  destruct (String.eqb n name) eqn:E; [|exact IH].
  apply String.eqb_eq in E. now subst.
Qed.

Lemma alignedb_aligned (df : DataFrame) : alignedb df = true -> aligned df.
Proof.
  unfold alignedb, aligned. generalize (df_length df) as n. intros n H.
  induction df as [|[c s] df IH]; simpl in *; intros name s' Hs; [discriminate|].
  apply andb_true_iff in H as [H1 H2].
  destruct (String.eqb c name); [|now apply (IH H2 name)].
  inversion Hs; subst. now apply Nat.eqb_eq.
Qed.

Section Explode.

Variable json_loads_py : string -> result pyval.
Variable literal_eval : string -> result pyval.

Let parse := parse_event_time_ids json_loads_py literal_eval.
Let kept_count (ids : list pyval) : nat := List.length (linked_ids ids).

Lemma explode_by_columns (col : string) (vals : list pyval) (df : DataFrame)
    (parsed : list (list pyval)) :
  mapM parse vals = Ok parsed ->
  explode_by json_loads_py literal_eval col vals df
  = Ok (map (fun c => (fst c, exploded_column col parsed (fst c) (snd c))) df).
Proof.
  intros Hp. unfold explode_by. fold parse. rewrite Hp. simpl. f_equal.
  unfold df_select. rewrite !map_map. apply map_ext. intros [name s].
  unfold exploded_column. simpl. now destruct (String.eqb name col).
Qed.

Lemma exploded_id_column (col : string) (parsed : list (list pyval)) (s : Series) :
  exploded_column col parsed col s = ObjectSeries (flat_map linked_ids parsed).
Proof.
  unfold exploded_column. rewrite String.eqb_refl. simpl. f_equal.
  rewrite (select_twice (fun v => negb (isna v)) not_empty_string) by reflexivity.
  change (fun v => negb (isna v) && not_empty_string v) with is_linked_id.
  now rewrite select_map_filter, exploded_ids.
Qed.

Lemma select_twice_exploded {A : Type} (parsed : list (list pyval)) (l : list A) :
  List.length l = List.length parsed ->
  let exploded := flat_map explode_cell parsed in
  let mask := map (fun v => negb (isna v)) exploded in
  select (map not_empty_string (select mask exploded))
    (select mask (repeat_each (map explode_count parsed) l))
  = repeat_each (map kept_count parsed) l.
Proof.
  intros Hl exploded mask. unfold mask.
  rewrite (select_twice (fun v => negb (isna v)) not_empty_string).
  - change (fun v => negb (isna v) && not_empty_string v) with is_linked_id.
    now apply select_exploded.
  - unfold exploded. rewrite flat_map_explode_length.
    apply repeat_each_length. now rewrite length_map.
Qed.

Lemma exploded_other_column (col name : string) (parsed : list (list pyval))
    (s : Series) :
  name <> col -> series_length s = List.length parsed ->
  exploded_column col parsed name s = series_repeat (map kept_count parsed) s.
Proof.
  intros Hne Hl. unfold exploded_column.
  apply String.eqb_neq in Hne. rewrite Hne.
  destruct s as [vals|tz vals|dt vals]; simpl in *;
    now rewrite (select_twice_exploded parsed vals Hl).
Qed.

Lemma explode_checkins_frame_rows (df : DataFrame) (col : string)
    (vals : list pyval) :
  df_empty df = false ->
  find_event_time_ids_col df = Some col ->
  df_get df col = Some (ObjectSeries vals) ->
  aligned df ->
  exists parsed df',
    mapM parse vals = Ok parsed /\
    explode_checkins_frame json_loads_py literal_eval df = Ok df' /\
    df_get df' col = Some (ObjectSeries (flat_map linked_ids parsed)) /\
    (forall name s,
        name <> col -> df_get df name = Some s ->
        df_get df' name = Some (series_repeat (map kept_count parsed) s)).
Proof.
  intros Hne Hcol Hget Hal.
  destruct (mapM_parse_total json_loads_py literal_eval vals) as (parsed & Hp & Hlen).
  fold parse in Hp. exists parsed. eexists. split; [exact Hp|].
  unfold explode_checkins_frame. rewrite Hne, Hcol, Hget.
  split; [apply explode_by_columns; exact Hp|].
  split.
  - rewrite (df_get_map (exploded_column col parsed)), Hget. simpl.
    now rewrite exploded_id_column.
  - intros name s Hname Hs.
    rewrite (df_get_map (exploded_column col parsed)), Hs. simpl. f_equal.
    apply exploded_other_column; [exact Hname|].
    rewrite (Hal _ _ Hs), <- (Hal _ _ Hget). simpl. congruence.
Qed.

End Explode.

(** C7.  For every behaviour of the two library parsers: when the check-ins
    table is not empty, is aligned, and holds Python values in its link-ids
    column (the first of the accepted spellings), every cell of that column
    parses to a list, the exploded table holds in that column exactly the
    linked ids of all rows in order (the elements that are neither missing nor
    the empty string), one per row, and every other column repeats the value
    of a source row once per linked id of that row, so a row with no linked id
    is dropped.  The table with the cells [["12","34"]], [[]] and ["56"] gives
    three rows, two from the first source row, none from the second, one from
    the third; a table with JSON text, Python literal text, a missing value
    and a padded scalar gives five. *)
Theorem explode_one_row_per_linked_id
    (json_loads_py literal_eval : string -> result pyval) :
  (forall (df : DataFrame) (col : string) (vals : list pyval),
      df_empty df = false ->
      find_event_time_ids_col df = Some col ->
      df_get df col = Some (ObjectSeries vals) ->
      aligned df ->
      exists parsed df',
        mapM (parse_event_time_ids json_loads_py literal_eval) vals = Ok parsed /\
        explode_checkins_frame json_loads_py literal_eval df = Ok df' /\
        df_get df' col = Some (ObjectSeries (flat_map linked_ids parsed)) /\
        (forall name s,
            name <> col -> df_get df name = Some s ->
            df_get df' name
            = Some (series_repeat
                      (map (fun ids => List.length (linked_ids ids)) parsed) s))) /\
  explode_checkins_frame json_loads literal_eval_fragment three_checkins
  = Ok [("check_in_id"%string, ObjectSeries [PStr "a"; PStr "a"; PStr "c"]);
        ("event_times_ids"%string, ObjectSeries [PStr "12"; PStr "34"; PInt 56]);
        ("created_at"%string,
         DatetimeSeries (Some "US/Central"%string) [Some 10%Z; Some 10%Z; None])] /\
  explode_checkins_frame json_loads literal_eval_fragment three_checkins_text
  = Ok [("check_in_id"%string,
         ObjectSeries [PStr "a"; PStr "a"; PStr "b"; PStr "b"; PStr "d"]);
        ("event_times_ids"%string,
         ObjectSeries [PStr "12"; PStr "34"; PStr "78"; PInt 90; PInt 56])].
Proof.
  split; [|split; reflexivity].
  intros df col vals. apply explode_checkins_frame_rows.
Qed.

(** The general part at the three-row table. *)
Lemma explode_one_row_per_linked_id_witness :
  exists parsed df',
    mapM (parse_event_time_ids json_loads literal_eval_fragment)
      [PList [PStr "12"; PStr "34"]; PList []; PStr "56"] = Ok parsed /\
    explode_checkins_frame json_loads literal_eval_fragment three_checkins = Ok df' /\
    df_get df' "event_times_ids"%string
    = Some (ObjectSeries (flat_map linked_ids parsed)) /\
    (forall name s,
        name <> "event_times_ids"%string -> df_get three_checkins name = Some s ->
        df_get df' name
        = Some (series_repeat
                  (map (fun ids => List.length (linked_ids ids)) parsed) s)).
Proof.
  apply (proj1 (explode_one_row_per_linked_id json_loads literal_eval_fragment)
           three_checkins "event_times_ids"%string).
  - reflexivity.
  - reflexivity.
  - reflexivity.
  - apply alignedb_aligned. reflexivity.
Defined.

(** * Physical-type inference *)

Lemma id_suffix_not_ids (col : string) :
  endswith col "_id" = true -> endswith col "_ids" = false.
Proof.
  unfold endswith. destruct (rev (chars col)) as [|c l]; [discriminate|].
  change (rev (chars "_id")) with ["d"; "i"; "_"]%char.
  change (rev (chars "_ids")) with ["s"; "d"; "i"; "_"]%char.
  cbn [is_prefix]. destruct (Ascii.eqb "d" c) eqn:E; intros H; [|discriminate H].
  apply Ascii.eqb_eq in E. subst c. reflexivity.
Qed.

Lemma object_rules (col : string) (s : Series) :
  is_object s = true ->
  Ok (object_column_type (lower col) s)
  = (if holds_serialized_structure s then Ok Text
     else if holds_long_text col s then Ok Text
     else Ok String255 : result sqltype).
Proof.
  intros Ho. unfold object_column_type, holds_serialized_structure,
    holds_long_text, first_text. rewrite Ho. cbn [andb].
  destruct (head_n 10 (dropna (object_values s))) as [|first rest];
    [reflexivity|].
  destruct (startswith (py_str first) "[" || startswith (py_str first) "{");
    [reflexivity|].
  match goal with |- Ok (if ?b then _ else _) = _ => destruct b end;
    reflexivity.
Qed.

(** The chain of tests of [generate_dtype_mapping] is the first-match reading
    of the ordered rules. *)
Lemma column_type_first_match (col : string) (s : Series) :
  column_type col s = first_match inference_rules col s.
Proof.
  unfold column_type, inference_rules, first_match. cbn [guard outcome].
  destruct (endswith col "_id") eqn:Eid.
  - now rewrite (id_suffix_not_ids _ Eid).
  - cbn [orb]. destruct (endswith col "_ids"); [reflexivity|].
    destruct (any_in bool_patterns (lower col)); [reflexivity|].
    destruct (str_contains "date" (lower col) || endswith col "_at");
      [reflexivity|].
    destruct (any_in numeric_patterns (lower col)); [reflexivity|].
    destruct (is_object s) eqn:Eo.
    + rewrite (object_rules col s Eo).
      destruct (holds_serialized_structure s); [reflexivity|].
      destruct (holds_long_text col s); reflexivity.
    + unfold holds_serialized_structure, holds_long_text. rewrite Eo.
      reflexivity.
Qed.

Lemma head_n_incl {A : Type} (n : nat) (l : list A) : incl (head_n n l) l.
Proof.
  unfold head_n. revert l. induction n as [|n IH]; intros [|x l]; simpl;
    try apply incl_nil_l.
  apply incl_cons; [now left|]. apply incl_tl, IH.
Qed.

Lemma distinct_incl (l : list string) : incl (distinct l) l.
Proof.
  induction l as [|x l IH]; simpl; [apply incl_nil_l|].
  destruct (existsb (String.eqb x) l).
  - now apply incl_tl.
  - apply incl_cons; [now left|now apply incl_tl].
Qed.

Lemma distinct_NoDup (l : list string) : NoDup (distinct l).
Proof.
  induction l as [|x l IH]; simpl; [constructor|].
  destruct (existsb (String.eqb x) l) eqn:E; [exact IH|].
  constructor; [|exact IH]. intros Hin. apply distinct_incl in Hin.
  assert (existsb (String.eqb x) l = true); [|congruence].
  apply existsb_exists. exists x. split; [exact Hin|apply String.eqb_refl].
Qed.

Lemma true_false_not_na (vals : list pyval) :
  Forall true_or_false vals -> dropna vals = vals.
Proof.
  induction 1 as [|v vals [-> | ->] _ IH]; simpl; now rewrite ?IH.
Qed.

Lemma true_false_not_complex (vals : list pyval) :
  Forall true_or_false vals -> existsb is_complex vals = false.
Proof.
  induction 1 as [|v vals [-> | ->] _ IH]; simpl; now rewrite ?IH.
Qed.

Lemma true_false_words (vals : list pyval) :
  Forall true_or_false vals ->
  incl (map (fun v => strip (lower (py_str v))) vals) ["true"; "false"]%string.
Proof.
  induction 1 as [|v vals [-> | ->] _ IH]; simpl.
  - apply incl_nil_l.
  - apply incl_cons; [now left|exact IH].
  - apply incl_cons; [right; now left|exact IH].
Qed.

Lemma first_occurrences_incl (vals seen : list pyval) :
  incl (first_occurrences seen vals) vals.
Proof.
  revert seen. induction vals as [|v vals IH]; intros seen; simpl;
    [apply incl_nil_l|].
  destruct (existsb (same_entry v) seen).
  - apply incl_tl, IH.
  - apply incl_cons; [now left|apply incl_tl, IH].
Qed.

Lemma boolean_of_true_false (vals : list pyval) :
  vals <> [] -> Forall true_or_false vals ->
  boolean_column_type (ObjectSeries vals) = Ok Boolean.
Proof.
  intros Hne Hall. unfold boolean_column_type. cbn [is_object negb object_values].
  rewrite (true_false_not_na _ Hall).
  assert (Hs : Forall true_or_false (head_n 20 vals)).
  { apply Forall_forall. intros v Hv. apply head_n_incl in Hv.
    revert v Hv. now apply Forall_forall. }
  destruct (head_n 20 vals) as [|v sample] eqn:E.
  - destruct vals; [congruence|]. unfold head_n in E. simpl in E. discriminate E.
  - unfold series_unique. rewrite (true_false_not_complex _ Hs). cbn [bind].
    assert (Hu : Forall true_or_false (first_occurrences [] (v :: sample))).
    { apply Forall_forall. intros u Hin. apply first_occurrences_incl in Hin.
      revert u Hin. now apply Forall_forall. }
    pose proof (true_false_words _ Hu) as Hw.
    set (words := map (fun v => strip (lower (py_str v)))
                    (first_occurrences [] (v :: sample))) in *.
    assert (Hin : incl (distinct words) ["true"; "false"]%string).
    { intros x Hx. apply Hw. now apply distinct_incl. }
    assert (Hb : forallb (fun u => existsb (String.eqb u) bool_words)
                   (distinct words) = true).
    { apply forallb_forall. intros x Hx.
      destruct (Hin x Hx) as [<- | [<- | []]]; reflexivity. }
    assert (Hl : (List.length (distinct words) <=? 3)%nat = true).
    { apply Nat.leb_le.
      pose proof (NoDup_incl_length (distinct_NoDup words) Hin). simpl in *. lia. }
    now rewrite Hb, Hl.
Qed.

(** [True] and 1 are one entry of the sample: three distinct texts are left,
    and the column is a boolean. *)
Lemma equal_flags_count_once :
  boolean_column_type (ObjectSeries [PBool true; PInt 1; PStr "yes"; PStr "no"])
  = Ok Boolean.
Proof. reflexivity. Qed.

(** C6.  The type of a column is the outcome of the first rule, in the order
    of the specification, whose guard holds; in particular a column whose
    name ends with [_id] is an integer whatever its dtype and values; a
    column of the texts [true] and [false] whose name contains [is_], and
    that the first rule does not claim, is a boolean; and a column whose name
    contains [notes], that no earlier rule claims and that holds at least one
    value, is a long text.  The table of [full_name_id], [is_verified] and
    [notes], the last with a value of 300 characters, is typed accordingly. *)
Theorem type_inference_precedence :
  (forall col s, column_type col s = first_match inference_rules col s) /\
  (forall col s, endswith col "_id" = true -> column_type col s = Ok Integer) /\
  (forall col vals,
     endswith col "_id" = false -> endswith col "_ids" = false ->
     str_contains "is_" (lower col) = true ->
     vals <> [] -> Forall true_or_false vals ->
     column_type col (ObjectSeries vals) = Ok Boolean) /\
  (forall col vals,
     endswith col "_id" = false -> endswith col "_ids" = false ->
     any_in bool_patterns (lower col) = false ->
     str_contains "date" (lower col) || endswith col "_at" = false ->
     any_in numeric_patterns (lower col) = false ->
     str_contains "notes" (lower col) = true ->
     dropna vals <> [] ->
     column_type col (ObjectSeries vals) = Ok Text) /\
  generate_dtype_mapping
    [("full_name_id"%string, ObjectSeries [PStr "abc"; PNone]);
     ("is_verified"%string, ObjectSeries [PStr "true"; PStr "false"; PStr "true"]);
     ("notes"%string, ObjectSeries [PStr "short"; PStr long_note])]
  = Ok [("full_name_id"%string, Integer); ("is_verified"%string, Boolean);
        ("notes"%string, Text)].
Proof.
  split; [exact column_type_first_match|].
  split.
  { intros col s H. unfold column_type. rewrite H.
    now rewrite (id_suffix_not_ids _ H). }
  split.
  { intros col vals Hid Hids His Hne Hall.
    unfold column_type. rewrite Hid, Hids. cbn [orb].
    unfold any_in, bool_patterns. cbn [existsb]. rewrite His. cbn [orb].
    now apply boolean_of_true_false. }
  split; [|reflexivity].
  intros col vals Hid Hids Hb Hd Hn Hnotes Hne.
  unfold column_type. rewrite Hid, Hids, Hb, Hd, Hn. cbn [orb is_object].
  unfold object_column_type. cbn [object_values].
  destruct (dropna vals) as [|v r]; [congruence|].
  unfold head_n. cbn [firstn]. rewrite Hnotes. cbn [orb]. f_equal.
  match goal with |- (if ?b then Text else _) = Text => destruct b end;
    reflexivity.
Qed.

(** * Timezone normalisation *)

Section ConvertFacts.

Variable known_timezone : string -> bool.
Variable to_datetime_utc : list pyval -> result (list (option Z)).

Let convert := convert_column to_datetime_utc.

Lemma count_notna_all_nat (parsed : list (option Z)) :
  (0 <? count_notna parsed)%nat = true -> forallb is_nat parsed = false.
Proof.
  unfold count_notna. induction parsed as [|v parsed IH]; simpl; [discriminate|].
  destruct v; simpl; [reflexivity|exact IH].
Qed.

(** A column either stays as it is or becomes a column of instants, not all
    NaT, in the target zone. *)
Lemma convert_column_shape (target : string) (s : Series) :
  convert target s = s \/
  exists vals, convert target s = DatetimeSeries (Some target) vals /\
               forallb is_nat vals = false.
Proof.
  unfold convert, convert_column.
  destruct (series_all_na s) eqn:Ena; [now left|].
  destruct s as [vals|tz vals|dt vals]; [| |now left].
  - destruct (head_n 50 (dropna vals)) as [|v sample]; [now left|].
    unfold convert_object_column.
    destruct (negb _); [now left|].
    destruct (to_datetime_utc (v :: sample)) as [parsed|e]; [|now left].
    cbn [bind]. destruct (_ <=? _)%nat; [|now left].
    destruct (existsb has_time_info _); [|now left].
    destruct (to_datetime_utc vals) as [parsed_full|e]; [|now left].
    cbn [bind]. destruct (0 <? count_notna parsed_full)%nat eqn:E; [|now left].
    right. exists parsed_full. split; [reflexivity|].
    now apply count_notna_all_nat.
  - right. exists vals. split; [reflexivity|exact Ena].
Qed.

Lemma convert_column_idempotent (target : string) (s : Series) :
  convert target (convert target s) = convert target s.
Proof.
  destruct (convert_column_shape target s) as [H | (vals & H & Hna)].
  - now rewrite !H.
  - rewrite H. unfold convert, convert_column. cbn [series_all_na].
    now rewrite Hna.
Qed.

End ConvertFacts.

(** C8.  Whatever the time-zone database and the timestamp parser do: when
    [convert_timestamps_to_timezone] returns a table, applying it to that
    table again with the same target zone returns the same table. *)
Theorem timezone_normalization_idempotent
    (known_timezone : string -> bool)
    (to_datetime_utc : list pyval -> result (list (option Z)))
    (df df' : DataFrame) (df_name target_timezone : string) :
  convert_timestamps_to_timezone known_timezone to_datetime_utc
    df df_name target_timezone = Ok df' ->
  convert_timestamps_to_timezone known_timezone to_datetime_utc
    df' df_name target_timezone = Ok df'.
Proof.
  unfold convert_timestamps_to_timezone.
  destruct (known_timezone target_timezone); [|discriminate].
  intros H. inversion H; subst. f_equal. rewrite map_map.
  apply map_ext. intros [name s]. cbn [fst snd].
  now rewrite convert_column_idempotent.
Qed.

(** The example table: a column of timestamp texts, a column of instants
    without a zone, a column of names and a column of numbers. *)
Lemma timezone_normalization_idempotent_witness :
  convert_timestamps_to_timezone (fun _ => true) example_to_datetime
    example_table_converted "PC_PEOPLE" "US/Central"
  = Ok example_table_converted.
Proof.
  apply (timezone_normalization_idempotent (fun _ => true) example_to_datetime
           example_table).
  reflexivity.
Defined.

(** * The client: retries and waits *)

Section GetFacts.

Variable session_get : nat -> request -> attempt.

Lemma get_loop_sent (remaining retry_count : nat) (req : request)
    (waits : list Z) (sent0 : list request) :
  exists more,
    sent (get_loop session_get remaining retry_count req waits sent0) = sent0 ++ more /\
    List.length more <= remaining /\ Forall (eq req) more.
Proof.
  revert retry_count waits sent0.
  induction remaining as [|remaining IH]; intros retry_count waits sent0.
  - exists []. simpl. rewrite List.app_nil_r. repeat split; auto.
  - assert (Hone : exists more, sent0 ++ [req] = sent0 ++ more /\
                     List.length more <= S remaining /\ Forall (eq req) more).
    { exists [req]. repeat split; simpl; [lia|auto]. }
    assert (Hrec : forall rc w,
               exists more,
                 sent (get_loop session_get remaining rc req w (sent0 ++ [req]))
                 = sent0 ++ more /\
                 List.length more <= S remaining /\ Forall (eq req) more).
    { intros rc w. destruct (IH rc w (sent0 ++ [req])) as (more & E & L & F).
      exists (req :: more). rewrite E, <- List.app_assoc.
      repeat split; simpl; [lia|auto]. }
    cbn [get_loop].
    destruct (classify (session_get retry_count req)); cbn [sent]; auto.
    destruct (max_retries <=? S retry_count)%nat; cbn [sent]; auto.
Qed.

End GetFacts.



Section BackoffFacts.

Variable session_get : nat -> request -> attempt.
Variable req : request.

Hypothesis never_rate_limited :
  forall (k : nat) (w : Z), classify (session_get k req) <> RateLimited w.



End BackoffFacts.




(** [_handle_rate_limit] by itself, for a response with status 429 were it
    given one: the wait is the number of seconds of the [Retry-After] header,
    60 when the response has none. *)
Lemma handle_rate_limit_waits (r : response) :
  (retry_after r = None -> _handle_rate_limit r = Ok (seconds 60)) /\
  (forall header n,
      retry_after r = Some header -> py_int_text header = Ok n -> (0 <= n)%Z ->
      _handle_rate_limit r = Ok (seconds n)).
Proof.
  unfold _handle_rate_limit. split.
  - intros H. now rewrite H.
  - intros header n Hh Hn Hpos. rewrite Hh, Hn. cbn [bind]. unfold sleep_seconds.
    destruct (n <? 0)%Z eqn:E; [apply Z.ltb_lt in E; lia|reflexivity].
Qed.

(** * The client: pagination *)

Section PaginationFacts.

Variable get_page : nat -> dict -> result pyval.
Variable include : list string.

Lemma pages_loop_serves (pages : list (pyval * list pyval)) :
  forall (fuel page_num : nat) (params : dict) (offset : Z)
         (all_data : list pyval) (requested0 : list dict)
         (last : pyval) (last_items : list pyval),
    serves get_page include page_num params offset pages last ->
    read_page last = Ok (last_items, None) ->
    List.length pages < fuel ->
    pages_loop get_page include fuel page_num params offset all_data requested0
    = Some {| records := Ok (all_data ++ flat_map snd pages ++ last_items);
              requested :=
                requested0 ++
                expected_requests include params offset
                  (map (fun p => List.length (snd p)) pages) |}.
Proof.
  induction pages as [|[response items] pages IH];
    intros fuel page_num params offset all_data requested0 last last_items
           Hs Hlast Hfuel;
    (destruct fuel as [|fuel]; [simpl in Hfuel; lia|]).
  - simpl in Hs. cbn [pages_loop]. rewrite Hs, Hlast. reflexivity.
  - cbn [serves] in Hs. destruct Hs as (Hget & Hread & Hrest).
    cbn [pages_loop]. rewrite Hget, Hread.
    rewrite (IH fuel _ _ _ _ _ last last_items Hrest Hlast)
      by (simpl in Hfuel; lia).
    cbn [flat_map map expected_requests snd].
    now rewrite <- !List.app_assoc.
Qed.

Lemma with_include_keeps (params : dict) (k : string) :
  k <> "include"%string ->
  dict_get (with_include params include) k = dict_get params k.
Proof.
  intros H. unfold with_include. destruct include; [reflexivity|].
  apply dict_get_set_ne. congruence.
Qed.

(** Every request carries the capped page size and the number of items
    received so far as offset. *)
Lemma expected_requests_params (sizes : list nat) :
  forall (params : dict) (offset : Z) (cap : pyval) (k : nat) (p : dict),
    dict_get params "per_page" = Some cap ->
    nth_error (expected_requests include params offset sizes) k = Some p ->
    dict_get p "per_page" = Some cap /\
    dict_get p "offset" = Some (PInt (offset + items_before sizes k)).
Proof.
  unfold items_before.
  induction sizes as [|n sizes IH]; intros params offset cap k p Hcap Hk.
  - destruct k as [|k]; [|destruct k; discriminate].
    simpl in Hk. inversion Hk; subst. split.
    + rewrite dict_get_set_ne; [exact Hcap|discriminate].
    + rewrite dict_get_set_eq. simpl. now rewrite Z.add_0_r.
  - destruct k as [|k].
    + simpl in Hk. inversion Hk; subst. split.
      * rewrite dict_get_set_ne; [exact Hcap|discriminate].
      * rewrite dict_get_set_eq. simpl. now rewrite Z.add_0_r.
    + cbn [expected_requests nth_error] in Hk.
      assert (Hcap' : dict_get
                        (with_include (dict_set "offset" (PInt offset) params) include)
                        "per_page" = Some cap).
      { rewrite with_include_keeps by discriminate.
        rewrite dict_get_set_ne; [exact Hcap|discriminate]. }
      destruct (IH _ _ cap k p Hcap' Hk) as [H1 H2].
      split; [exact H1|]. rewrite H2. cbn [firstn list_sum].
      change (list_sum (n :: firstn k sizes)) with (n + list_sum (firstn k sizes)).
      rewrite Nat2Z.inj_add. do 2 f_equal. lia.
Qed.

End PaginationFacts.

(** When the loop goes on after a page, the offset grows by the number of
    items of that page. *)
Lemma read_page_size (response : pyval) (items : list pyval) (n : nat) :
  read_page response = Ok (items, Some n) -> n = List.length items.
Proof.
  unfold read_page. intros H. bind_inv H.
  destruct (negb (truthy x)); [discriminate|].
  bind_inv H. bind_inv H. bind_inv H. destruct (negb x2); [discriminate|].
  bind_inv H. destruct (negb (truthy x3)); [discriminate|].
  bind_inv H. inversion H; subst. clear H.
  destruct x; try discriminate E0; simpl in E0, E4;
    inversion E0; inversion E4; subst; rewrite ?length_map; try reflexivity.
  unfold chars. clear. induction s as [|c s IH]; simpl; congruence.
Qed.

(** C3.  Let the server answer the successive calls with pages that make the
    loop go on and then with a page that stops it.  Then, given enough fuel,
    [get_all_pages] returns the items of the pages concatenated in page order
    (the last page contributes its items, none when it has none), after
    requests that all carry [per_page = min(per_page, 100)] and whose offset
    is the number of items of the pages before.  The loop stops at a page
    whose data is absent, empty or otherwise falsy, and at a page whose
    links have no [next] entry or a falsy one; it goes on after a page with
    items and a truthy [next].  For three pages of two, one and zero items the
    result is the three items of the first two pages after three requests. *)
Theorem pagination_concatenates_pages
    (get_page : nat -> dict -> result pyval) (include : list string)
    (params : dict) (per_page : Z) :
  let capped := dict_set "per_page" (PInt (Z.min per_page 100)) params in
  (forall (pages : list (pyval * list pyval)) (last : pyval)
          (last_items : list pyval) (fuel : nat),
      serves get_page include 1 capped 0 pages last ->
      read_page last = Ok (last_items, None) ->
      List.length pages < fuel ->
      let sizes := map (fun p => List.length (snd p)) pages in
      get_all_pages get_page include fuel params per_page
      = Some {| records := Ok (flat_map snd pages ++ last_items);
                requested := expected_requests include capped 0 sizes |} /\
      forall k p,
        nth_error (expected_requests include capped 0 sizes) k = Some p ->
        dict_get p "per_page" = Some (PInt (Z.min per_page 100)) /\
        dict_get p "offset" = Some (PInt (items_before sizes k))) /\
  (forall d data,
      dict_get d "data" = Some data -> truthy data = false ->
      read_page (PDict d) = Ok ([], None)) /\
  (forall d, dict_get d "data" = None -> read_page (PDict d) = Ok ([], None)) /\
  (forall d items,
      dict_get d "data" = Some (PList items) -> items <> [] ->
      dict_get d "links" = None ->
      read_page (PDict d) = Ok (items, None)) /\
  (forall d items links,
      dict_get d "data" = Some (PList items) -> items <> [] ->
      dict_get d "links" = Some (PDict links) ->
      read_page (PDict d)
      = Ok (items,
            match dict_get links "next" with
            | Some next => if truthy next then Some (List.length items) else None
            | None => None
            end)) /\
  get_all_pages three_pages include 3 params per_page
  = Some {| records := Ok [PStr "a"; PStr "b"; PStr "c"];
            requested :=
              expected_requests include capped 0 [2; 1] |}.
Proof.
  intros capped. split.
  { intros pages last last_items fuel Hs Hlast Hfuel sizes. split.
    - unfold get_all_pages. fold capped.
      rewrite (pages_loop_serves get_page include pages fuel 1 capped 0 [] []
                 last last_items Hs Hlast Hfuel).
      reflexivity.
    - intros k p Hk.
      destruct (expected_requests_params include sizes capped 0
                  (PInt (Z.min per_page 100)) k p) as [H1 H2]; auto.
      unfold capped. apply dict_get_set_eq. }
  split.
  { intros d data Hd Ht. unfold read_page. simpl. now rewrite Hd, Ht. }
  split.
  { intros d Hd. unfold read_page. simpl. now rewrite Hd. }
  split.
  { intros d items Hd Hne Hl. unfold read_page. simpl. rewrite Hd, Hl.
    destruct items; [congruence|reflexivity]. }
  split.
  { intros d items links Hd Hne Hl. unfold read_page. simpl. rewrite Hd, Hl.
    destruct items as [|i items]; [congruence|]. simpl.
    destruct (dict_get links "next") as [next|]; [|reflexivity]. simpl.
    destruct (truthy next); reflexivity. }
  unfold get_all_pages. fold capped. cbn [pages_loop three_pages].
  reflexivity.
Qed.

(** The general part at the three pages of the example. *)
Lemma pagination_concatenates_pages_witness :
  get_all_pages three_pages [] 3 [] 250
  = Some {| records := Ok [PStr "a"; PStr "b"; PStr "c"];
            requested :=
              [[("per_page"%string, PInt 100); ("offset"%string, PInt 0)];
               [("per_page"%string, PInt 100); ("offset"%string, PInt 2)];
               [("per_page"%string, PInt 100); ("offset"%string, PInt 3)]] |}.
Proof.
  refine (proj1 (proj1 (pagination_concatenates_pages three_pages [] [] 250)
            [(PDict [("data"%string, PList [PStr "a"; PStr "b"]);
                     ("links"%string, PDict [("next"%string, PStr "page 2")])],
              [PStr "a"; PStr "b"]);
             (PDict [("data"%string, PList [PStr "c"]);
                     ("links"%string, PDict [("next"%string, PStr "page 3")])],
              [PStr "c"])]
            (PDict [("data"%string, PList [])]) [] 3 _ _ _)).
  - repeat split.
  - reflexivity.
  - simpl. lia.
Defined.

(** * The orchestrator *)

(** The fetch of an endpoint never raises: it gives what the endpoint
    contributes. *)
Lemma fetch_endpoint_run (env : environment) (name : string)
    (config : endpoint_config) (st : run_state) :
  _fetch_endpoint env name config st
  = (Ok (contributed env name),
     {| job := job st; last_data_refresh := last_data_refresh st;
        trace := trace st ++ [StepFetch name] |}).
Proof.
  unfold _fetch_endpoint, contributed, and_then, log, catch, lift, ret.
  destruct (fetch_body env name); reflexivity.
Qed.

Ltac unfold_run :=
  cbv beta iota zeta delta
    [run_sync run_sync_body catch and_then log update_job lift ret raise
     _init_client test_connection fetch_all db_commit
     stamp_last_data_refresh DASHBOARD_ENDPOINTS initial_state
     job last_data_refresh trace negb endpoint fst snd
     fatal_exception fallible_steps first_raised credential_step
     connection_test bind].

Ltac close_run :=
  cbv beta iota; repeat split;
  try reflexivity; try discriminate;
  try (cbv [total_contributed list_sum map fold_right fst DASHBOARD_ENDPOINTS
            records_fetched mark_completed];
       lia).

(** The handler, once the body has raised. *)
Ltac handle env :=
  cbv beta iota;
  destruct (log_failed env) as [[]|?];
  [destruct (commit env CommitFailed) as [[]|?]|];
  close_run.

(** The commit before a fetch, then the fetch, which gives what the endpoint
    contributes. *)
Ltac walk_fetch env i :=
  destruct (commit env (CommitProgress i)) as [[]|?]; [|handle env];
  cbv beta iota; rewrite fetch_endpoint_run; unfold_run.

(** Each step of the body that can fail the run, in order: the branch in
    which it raises goes to the handler. *)
Ltac walk_run env :=
  cbv zeta; unfold_run;
  destruct (commit env CommitStarted) as [[]|?]; [|handle env];
  cbv beta iota;
  destruct (has_credentials env) as [[|]|?]; [|handle env|handle env];
  cbv beta iota;
  destruct (decrypt_app_id env) as [?|?]; [|handle env];
  cbv beta iota;
  destruct (decrypt_secret env) as [?|?]; [|handle env];
  cbv beta iota;
  destruct (connection_probe env) as [?|?]; [|handle env];
  cbv beta iota;
  walk_fetch env 0; walk_fetch env 1; walk_fetch env 2; walk_fetch env 3;
  destruct (enrich_event_times env) as [[]|?]; [|handle env];
  cbv beta iota;
  destruct (enrich_checkins env) as [[]|?]; [|handle env];
  cbv beta iota;
  destruct (load_to_database env) as [[]|?]; [|handle env];
  cbv beta iota;
  destruct (commit env CommitCompleted) as [[]|?]; [|handle env];
  cbv beta iota;
  destruct (log_completed env) as [[]|?]; [|handle env];
  close_run.

(** C2, as the code has it.  The steps whose exception fails a run are, in
    order: the commit of the started job, the credential step (the tenant
    cannot be read, its credentials are missing, or a decryption raises), the
    connection test, the commit of the progress before each endpoint, the two
    enrichment stages, the load stage, the commit of the completed job, and
    the log line after it.  At the first of them that raises no later step of
    the body is taken and the handler is entered.  If the handler's log line
    goes through, the job is marked failed with the message of the exception
    and the handler commits: the run returns False when that commit goes
    through, and otherwise raises the exception of the commit.  If the
    handler's log line raises, its exception leaves the run and the job is not
    marked failed.  When none of these steps raises the run ends completed and
    returns True, whatever the fetches do: an endpoint whose fetch raises
    contributes zero records, the other endpoints their counts, and every
    step is taken. *)
Theorem run_sync_outcome (env : environment) :
  let final := run_sync env initial_state in
  match fatal_exception env with
  | Some (failing, e) =>
      match log_failed env with
      | Ok _ =>
          status (job (snd final)) = failed /\
          error_message (job (snd final)) = Some (exn_msg e) /\
          trace (snd final)
          = steps_through failing all_steps ++ [StepFailed; StepCommit CommitFailed] /\
          match commit env CommitFailed with
          | Ok _ => fst final = Ok false
          | Raise e' => fst final = Raise e'
          end
      | Raise e' =>
          fst final = Raise e' /\
          status (job (snd final)) <> failed /\
          error_message (job (snd final)) = None /\
          trace (snd final) = steps_through failing all_steps ++ [StepFailed]
      end
  | None =>
      fst final = Ok true /\
      status (job (snd final)) = completed /\
      error_message (job (snd final)) = None /\
      records_fetched (job (snd final)) = total_contributed env /\
      trace (snd final) = all_steps ++ [StepCompleted] /\
      last_data_refresh (snd final) = true
  end.
Proof.
  walk_run env.
Qed.

(** C2, counterexample: the database refuses the commit of the progress
    before the second endpoint.  The credentials are read and decrypted, the
    connection test passes and the load stage is never reached, yet the run
    fails with the message of the refused commit.  When the commit of the
    handler goes through the run returns False; when the database refuses
    that one too, the exception leaves [run_sync]. *)
Lemma refused_commit_fails_the_run :
  (fst (run_sync (env_with_failing_commit (Ok tt)) initial_state) = Ok false /\
   status (job (snd (run_sync (env_with_failing_commit (Ok tt)) initial_state)))
   = failed /\
   error_message (job (snd (run_sync (env_with_failing_commit (Ok tt)) initial_state)))
   = Some "server closed the connection unexpectedly"%string /\
   trace (snd (run_sync (env_with_failing_commit (Ok tt)) initial_state))
   = [StepStarted; StepCommit CommitStarted; StepInitClient; StepTestConnection;
      StepCommit (CommitProgress 0); StepFetch "people";
      StepCommit (CommitProgress 1); StepFailed; StepCommit CommitFailed]) /\
  fst (run_sync (env_with_failing_commit (Raise connection_lost)) initial_state)
  = Raise connection_lost /\
  credential_step (env_with_failing_commit (Ok tt)) = Ok tt /\
  connection_test (env_with_failing_commit (Ok tt)) = Ok tt /\
  load_to_database (env_with_failing_commit (Ok tt)) = Ok tt.
Proof. repeat split. Qed.

(** A fetch that raises: the run completes and the endpoint counts for zero. *)
Lemma failing_fetch_contributes_nothing :
  fst (run_sync env_with_failing_fetch initial_state) = Ok true /\
  status (job (snd (run_sync env_with_failing_fetch initial_state))) = completed /\
  records_fetched (job (snd (run_sync env_with_failing_fetch initial_state))) = 30.
Proof. repeat split. Qed.

(** * The flattener: further properties *)

(** ** A page with an item that is not an object *)

Lemma mapM_raises {A B : Type} (f : A -> result B) (ok : A -> bool) (l : list A) :
  (forall a, ok a = false -> exists e, f a = Raise e) ->
  forallb ok l = false -> exists e, mapM f l = Raise e.
Proof.
  intros Hf. induction l as [|a l IH]; simpl; [discriminate|].
  intros H. destruct (ok a) eqn:Ea.
  - cbn [andb] in H. destruct (f a) as [b|e]; [|eexists; reflexivity].
    destruct (IH H) as (e & ->). eexists. reflexivity.
  - destruct (Hf a Ea) as (e & ->). eexists. reflexivity.
Qed.

Lemma process_item_needs_object (lookup : dict) (item : pyval) :
  is_object_item item = false -> exists e, process_item lookup item = Raise e.
Proof.
  destruct item; simpl; try discriminate; intros _; eexists; reflexivity.
Qed.

(** X2.  One data item that is not a JSON object costs the whole page: the
    exception it raises is caught around the loop, and
    [process_jsonapi_response] returns no row at all, not even for the
    well-formed items before it. *)
Theorem non_object_item_empties_page (response : pyval) (endpoint : string)
    (items : list pyval) :
  data_items_of response = Ok items ->
  forallb is_object_item items = false ->
  process_jsonapi_response response endpoint = [].
Proof.
  intros Hitems Hbad. unfold process_jsonapi_response, process_jsonapi_response_body.
  unfold data_items_of in Hitems.
  destruct (py_get response "data" (PList [])) as [data|e]; [|reflexivity].
  cbn [bind] in *.
  destruct (py_get response "included" (PList [])) as [inc|e]; [|reflexivity].
  cbn [bind].
  destruct (py_iter inc) as [included|e]; [|reflexivity]. cbn [bind].
  destruct (build_included_lookup included) as [lookup|e]; [|reflexivity].
  cbn [bind]. rewrite Hitems. cbn [bind].
  destruct (mapM_raises (process_item lookup) is_object_item items
              (process_item_needs_object lookup) Hbad) as (e & ->).
  reflexivity.
Qed.

Lemma non_object_item_empties_page_witness :
  process_jsonapi_response response_with_text_item "/people/v2/people" = [].
Proof.
  apply (non_object_item_empties_page response_with_text_item "/people/v2/people"
           [person_with_structures; PStr "oops"]); reflexivity.
Defined.

(** ** Every cell is a scalar *)

Lemma scalar_row_set (k : string) (v : pyval) (d : dict) :
  is_complex v = false -> scalar_row d -> scalar_row (dict_set k v d).
Proof.
  unfold scalar_row. intros Hv. induction d as [|[k' v'] d IH]; simpl; intros H.
  - constructor; auto.
  - inversion H; subst. destruct (String.eqb k' k); constructor; auto.
Qed.

Lemma scalar_row_store (col : string) (v : pyval) (d : dict) :
  scalar_row d -> scalar_row (store_attribute col v d).
Proof.
  unfold store_attribute, convert_complex_type_to_json. intros H.
  destruct (is_complex v) eqn:E; apply scalar_row_set; auto.
Qed.

Lemma scalar_row_inline (rel_type : pyval) (attrs : list (string * pyval)) (d : dict) :
  scalar_row d -> scalar_row (inline_attributes rel_type attrs d).
Proof.
  unfold inline_attributes. revert d.
  induction attrs as [|kv attrs IH]; simpl; intros d H; [exact H|].
  apply IH. now apply scalar_row_store.
Qed.

Lemma scalar_state_rel_item (lookup : dict) (st st' : dict * list pyval)
    (rel_item : pyval) :
  scalar_reference rel_item = true ->
  scalar_state st -> process_rel_item lookup st rel_item = Ok st' ->
  scalar_state st'.
Proof.
  destruct st as [d ids]. unfold process_rel_item, scalar_state.
  intros Hs [Hd Hids] H. cbn [fst snd] in *.
  destruct rel_item as [| | | | | |rd]; try (inversion H; subst; now split).
  cbn [py_get bind] in H. cbn [scalar_reference] in Hs. unfold scalar_id in Hs.
  destruct (dict_get rd "id") as [rel_id|] eqn:Eid;
    [|cbn [truthy] in H; inversion H; subst; now split].
  destruct (truthy rel_id); [|inversion H; subst; now split].
  assert (Hids' : Forall (fun i => is_complex i = false) (ids ++ [rel_id])).
  { apply Forall_app. split; [exact Hids|]. constructor; [|constructor].
    now apply negb_true_iff in Hs. }
  destruct (dict_get lookup _) as [inc|]; [|inversion H; subst; now split].
  destruct (truthy inc); [|inversion H; subst; now split].
  bind_inv H. bind_inv H. inversion H; subst. cbn [fst snd].
  split; [|exact Hids']. now apply scalar_row_inline.
Qed.

Lemma scalar_state_rel_items (lookup : dict) (rel_items : list pyval) :
  forallb scalar_reference rel_items = true ->
  forall st st',
    scalar_state st -> foldM (process_rel_item lookup) rel_items st = Ok st' ->
    scalar_state st'.
Proof.
  induction rel_items as [|r rel_items IH]; simpl; intros Hs st st' Hst H.
  - now inversion H; subst.
  - apply andb_true_iff in Hs. destruct Hs as [Hr Hs]. bind_inv H.
    apply (IH Hs x st'); [|exact H].
    apply (scalar_state_rel_item lookup st x r Hr Hst E).
Qed.

Lemma scalar_row_store_rel_ids (rel_name : string) (ids : list pyval) (d : dict) :
  Forall (fun i => is_complex i = false) ids ->
  scalar_row d -> scalar_row (store_rel_ids rel_name ids d).
Proof.
  intros Hids Hd. unfold store_rel_ids. destruct ids as [|i ids]; [exact Hd|].
  inversion Hids; subst. apply scalar_row_set; [reflexivity|].
  destruct (Nat.eqb _ _); [|exact Hd]. now apply scalar_row_set.
Qed.

Lemma scalar_row_relationship (lookup : dict) (d d' : dict) (rel : string * pyval) :
  scalar_references (snd rel) = true ->
  scalar_row d -> process_relationship lookup d rel = Ok d' -> scalar_row d'.
Proof.
  destruct rel as [rel_name rel_data]. cbn [snd].
  unfold process_relationship, scalar_references, references_of.
  intros Hs Hd H.
  destruct (negb (truthy rel_data)); [now inversion H; subst|].
  bind_inv H. destruct (negb x); [now inversion H; subst|].
  bind_inv H. bind_inv H. destruct x1 as [d1 ids]. inversion H; subst.
  destruct rel_data as [| | | | | |rd]; try discriminate E0.
  cbn [py_getitem] in E0.
  destruct (dict_get rd "data") as [data|]; [|discriminate].
  inversion E0; subst.
  destruct (scalar_state_rel_items lookup _ Hs (d, []) (d1, ids)) as [H1 H2];
    [split; [exact Hd|constructor]|exact E1|].
  now apply scalar_row_store_rel_ids.
Qed.

Lemma scalar_row_relationships (lookup : dict) (rels : list (string * pyval)) :
  forallb (fun rel => scalar_references (snd rel)) rels = true ->
  forall d d',
    scalar_row d -> foldM (process_relationship lookup) rels d = Ok d' ->
    scalar_row d'.
Proof.
  induction rels as [|rel rels IH]; simpl; intros Hs d d' Hd H.
  - now inversion H; subst.
  - apply andb_true_iff in Hs. destruct Hs as [Hr Hs]. bind_inv H.
    apply (IH Hs x d'); [|exact H].
    apply (scalar_row_relationship lookup d x rel Hr Hd E).
Qed.

Lemma scalar_row_attributes (attrs : list (string * pyval)) (d : dict) :
  scalar_row d ->
  scalar_row (fold_left (fun dd kv => store_attribute (fst kv) (snd kv) dd) attrs d).
Proof.
  revert d. induction attrs as [|kv attrs IH]; simpl; intros d H; [exact H|].
  apply IH. now apply scalar_row_store.
Qed.

Lemma scalar_row_item (lookup : dict) (item : pyval) (row : dict) :
  scalar_ids item = true -> process_item lookup item = Ok row -> scalar_row row.
Proof.
  unfold process_item. intros Hs H.
  bind_inv H. bind_inv H. bind_inv H. bind_inv H. bind_inv H. bind_inv H.
  destruct item as [| | | | | |d]; try discriminate E.
  cbn [py_get] in E, E2. cbn [scalar_ids] in Hs.
  apply andb_true_iff in Hs. destruct Hs as [Hid Hrels].
  inversion E; subst. inversion E2; subst. clear E E2.
  eapply (scalar_row_relationships lookup x4); [| |exact H].
  - destruct (dict_get d "relationships") as [r|]; cbn [py_items] in E4.
    + destruct r; try discriminate E4. inversion E4; subst. exact Hrels.
    + inversion E4; subst. reflexivity.
  - apply scalar_row_attributes. constructor; [|constructor]. cbn [snd].
    unfold scalar_id in Hid. destruct (dict_get d "id"); [|reflexivity].
    now apply negb_true_iff in Hid.
Qed.

(** X3.  What the flattener hands on holds no list and no dictionary: when the
    ids of the page are scalars, every cell of every row is a scalar, the
    lists and dictionaries of the response having become JSON text. *)
Theorem flattened_cells_are_scalars (response : pyval) (endpoint : string) :
  all_scalar_ids response = true ->
  Forall scalar_row (process_jsonapi_response response endpoint).
Proof.
  unfold all_scalar_ids, data_items_of, process_jsonapi_response.
  intros Hs.
  destruct (process_jsonapi_response_body response) as [rows|e] eqn:E;
    [|constructor].
  unfold process_jsonapi_response_body in E.
  bind_inv E. bind_inv E. bind_inv E. bind_inv E. bind_inv E.
  rewrite E0 in Hs. cbn [bind] in Hs. rewrite E4 in Hs.
  apply mapM_Forall2 in E. revert Hs. clear -E.
  induction E as [|item row items rows Hrow _ IH]; intros Hs; constructor.
  - simpl in Hs. apply andb_true_iff in Hs.
    eapply scalar_row_item; [|exact Hrow]. tauto.
  - apply IH. simpl in Hs. apply andb_true_iff in Hs. tauto.
Qed.

Lemma flattened_cells_are_scalars_witness :
  Forall scalar_row
    (process_jsonapi_response response_with_structures "/people/v2/people").
Proof.
  apply (flattened_cells_are_scalars response_with_structures "/people/v2/people").
  reflexivity.
Defined.

(** ** The attributes of a data item *)

Lemma fold_store_other (attrs : list (string * pyval)) (c : string) (d : dict) :
  ~ In c (map fst attrs) ->
  dict_get (fold_left (fun dd kv => store_attribute (fst kv) (snd kv) dd) attrs d) c
  = dict_get d c.
Proof.
  revert d. induction attrs as [|kv attrs IH]; simpl; intros d Hn; [reflexivity|].
  rewrite IH; [|tauto]. apply store_attribute_other. tauto.
Qed.

Lemma store_attribute_same (col : string) (v : pyval) (d : dict) :
  dict_get (store_attribute col v d) col = Some (convert_complex_type_to_json v).
Proof.
  unfold store_attribute, convert_complex_type_to_json.
  destruct (is_complex v); now rewrite dict_get_set_eq.
Qed.

Lemma fold_store_attribute (attrs : list (string * pyval)) (name : string)
    (v : pyval) (d : dict) :
  NoDup (map fst attrs) -> In (name, v) attrs ->
  dict_get (fold_left (fun dd kv => store_attribute (fst kv) (snd kv) dd) attrs d) name
  = Some (convert_complex_type_to_json v).
Proof.
  revert d. induction attrs as [|kv attrs IH]; simpl; intros d Hnd Hin; [tauto|].
  inversion Hnd; subst. destruct Hin as [-> | Hin].
  - cbn [fst snd]. rewrite fold_store_other; [|assumption].
    apply store_attribute_same.
  - now apply IH.
Qed.

(** X4.  Every attribute of a data item is a column of its row: the column named
    after the attribute holds the value itself, or its JSON text when the
    value is a list or a dictionary, unless a relationship of the item writes
    a column of that name. *)
Theorem attributes_become_columns (response : pyval) (endpoint : string)
    (included_lookup : dict) (rows : list dict) (items : list pyval)
    (n : nat) (item : pyval) (attrs rels : list (string * pyval))
    (name : string) (v : pyval) :
  process_jsonapi_response_body response = Ok rows ->
  included_lookup_of response = Ok included_lookup ->
  data_items_of response = Ok items ->
  nth_error items n = Some item ->
  py_get item "attributes" (PDict []) = Ok (PDict attrs) ->
  py_get item "relationships" (PDict []) = Ok (PDict rels) ->
  NoDup (map fst attrs) -> In (name, v) attrs ->
  untouched_by included_lookup name rels ->
  exists row,
    nth_error (process_jsonapi_response response endpoint) n = Some row /\
    dict_get row name = Some (convert_complex_type_to_json v).
Proof.
  intros Hbody Hlookup Hitems Hn Hattrs Hrels Hnd Hin Hun.
  unfold process_jsonapi_response. rewrite Hbody.
  unfold process_jsonapi_response_body in Hbody.
  unfold included_lookup_of in Hlookup. unfold data_items_of in Hitems.
  bind_inv Hbody. bind_inv Hbody. bind_inv Hbody. bind_inv Hbody. bind_inv Hbody.
  rewrite E in Hitems. simpl in Hitems.
  rewrite E0 in Hlookup. simpl in Hlookup. rewrite E1 in Hlookup. simpl in Hlookup.
  assert (x2 = included_lookup) by congruence.
  assert (x3 = items) by congruence. subst.
  destruct (mapM_nth _ _ _ _ _ Hbody Hn) as (row & Hrow & Hitem).
  exists row. split; [exact Hrow|].
  unfold process_item in Hitem.
  bind_inv Hitem. bind_inv Hitem. bind_inv Hitem. bind_inv Hitem.
  bind_inv Hitem. bind_inv Hitem.
  rewrite Hattrs in E6. inversion E6; subst.
  rewrite Hrels in E7. inversion E7; subst.
  cbn [py_items] in E8, E9. inversion E8; subst. inversion E9; subst.
  rewrite (relationships_other _ _ _ _ _ Hitem Hun).
  now apply fold_store_attribute.
Qed.

Lemma attributes_become_columns_witness :
  exists row,
    nth_error (process_jsonapi_response response_with_structures "/people/v2/people") 0
    = Some row /\
    dict_get row "tags"
    = Some (convert_complex_type_to_json (PList [PStr "a"; PInt 2; PNone])).
Proof.
  eapply (attributes_become_columns response_with_structures "/people/v2/people"
            _ _ _ 0 person_with_structures _ [] "tags").
  - reflexivity.
  - reflexivity.
  - reflexivity.
  - reflexivity.
  - reflexivity.
  - reflexivity.
  - simpl. repeat constructor; simpl; intuition discriminate.
  - simpl. right. left. reflexivity.
  - constructor.
Defined.

(** * The explode step: further properties *)

Lemma strip_bracketed (body : list ascii) :
  strip (text ("["%char :: body ++ ["]"%char]))
  = text ("["%char :: body ++ ["]"%char]).
Proof.
  unfold strip. rewrite chars_text.
  change (lstrip_chars ("["%char :: body ++ ["]"%char]))
    with ("["%char :: body ++ ["]"%char]).
  change (rev ("["%char :: body ++ ["]"%char]))
    with (rev (body ++ ["]"%char]) ++ ["["%char]).
  rewrite rev_app_distr.
  change ((rev ["]"%char] ++ rev body) ++ ["["%char])
    with ("]"%char :: (rev body ++ ["["%char])).
  change (lstrip_chars ("]"%char :: (rev body ++ ["["%char])))
    with ("]"%char :: (rev body ++ ["["%char])).
  f_equal. cbn [rev]. rewrite rev_app_distr, rev_involutive. reflexivity.
Qed.

Lemma bracketed_text (body : list ascii) :
  let s := text ("["%char :: body ++ ["]"%char]) in
  String.eqb s "" = false /\ startswith s "[" = true /\ endswith s "]" = true.
Proof.
  cbv zeta. split; [reflexivity|]. split.
  - unfold startswith. rewrite chars_text. reflexivity.
  - unfold endswith. rewrite chars_text.
    change (rev ("["%char :: body ++ ["]"%char]))
      with (rev (body ++ ["]"%char]) ++ ["["%char]).
    rewrite rev_app_distr. reflexivity.
Qed.

(** X5.  The text the flattener stores under [{relation}_ids] is read back by
    [parse_event_time_ids] as the list of the ids it was written from,
    whatever [ast.literal_eval] does: the JSON branch of the parser accepts
    it. *)
Theorem stored_ids_parse_back (literal_eval : string -> result pyval)
    (rel_name : string) (ids : list pyval) (data_dict : dict) :
  ids <> [] -> forallb well_formed ids = true ->
  exists cell,
    dict_get (store_rel_ids rel_name ids data_dict) (rel_name ++ "_ids")%string
    = Some cell /\
    parse_event_time_ids json_loads literal_eval cell = Ok ids.
Proof.
  intros Hne Hwf. unfold store_rel_ids.
  destruct ids as [|i ids]; [congruence|].
  rewrite dict_get_set_eq. eexists. split; [reflexivity|].
  unfold convert_complex_type_to_json. cbn [is_complex].
  unfold parse_event_time_ids, json_dumps.
  change (json_encode (PList (i :: ids)))
    with ("["%char :: join_chars (chars ", ") (map json_encode (i :: ids))
            ++ ["]"%char]).
  rewrite strip_bracketed.
  destruct (bracketed_text (join_chars (chars ", ") (map json_encode (i :: ids))))
    as (H1 & H2 & H3).
  cbv zeta in H1, H2, H3. rewrite H1, H2, H3. cbn [andb orb].
  change (text ("["%char :: join_chars (chars ", ") (map json_encode (i :: ids))
                  ++ ["]"%char]))
    with (json_dumps (PList (i :: ids))).
  rewrite json_loads_dumps by exact Hwf. reflexivity.
Qed.

Lemma stored_ids_parse_back_witness :
  exists cell,
    dict_get (store_rel_ids "event_times" [PStr "12"; PStr "34"] [])
      "event_times_ids"%string = Some cell /\
    parse_event_time_ids json_loads literal_eval_fragment cell
    = Ok [PStr "12"; PStr "34"].
Proof.
  apply (stored_ids_parse_back literal_eval_fragment "event_times"
           [PStr "12"; PStr "34"] []); [discriminate|reflexivity].
Defined.

(** ** [_explode_checkins] on the tables of a run *)

Lemma replace_absent (name : string) (df' : DataFrame)
    (dataframes : list (string * DataFrame)) :
  ~ In name (map fst dataframes) ->
  map (fun t => if String.eqb (fst t) name then (fst t, df') else t) dataframes
  = dataframes.
Proof.
  induction dataframes as [|[n d] l IH]; simpl; intros Hn; [reflexivity|].
  destruct (String.eqb n name) eqn:E.
  - apply String.eqb_eq in E. tauto.
  - rewrite IH; tauto.
Qed.

Lemma replace_same (name : string) (df : DataFrame)
    (dataframes : list (string * DataFrame)) :
  NoDup (map fst dataframes) -> In (name, df) dataframes ->
  map (fun t => if String.eqb (fst t) name then (fst t, df) else t) dataframes
  = dataframes.
Proof.
  induction dataframes as [|[n d] l IH]; simpl; intros Hnd Hin; [reflexivity|].
  inversion Hnd; subst. destruct Hin as [Heq | Hin].
  - inversion Heq; subst. rewrite String.eqb_refl.
    now rewrite replace_absent.
  - destruct (String.eqb n name) eqn:E.
    + apply String.eqb_eq in E. subst. exfalso. apply H1.
      apply (in_map fst) in Hin. exact Hin.
    + now rewrite IH.
Qed.

Lemma find_named (name : string) (dataframes : list (string * DataFrame)) :
  match find (fun t => String.eqb (fst t) name) dataframes with
  | Some (n, df) => n = name /\ In (name, df) dataframes /\
                    forall df0, NoDup (map fst dataframes) ->
                                In (name, df0) dataframes -> df0 = df
  | None => ~ In name (map fst dataframes)
  end.
Proof.
  induction dataframes as [|[n d] l IH]; simpl; [tauto|].
  destruct (String.eqb n name) eqn:E.
  - apply String.eqb_eq in E. subst. split; [reflexivity|]. split; [now left|].
    intros df0 Hnd [Heq | Hin]; [congruence|].
    inversion Hnd; subst. exfalso. apply H1.
    apply (in_map fst) in Hin. exact Hin.
  - apply String.eqb_neq in E.
    destruct (find _ l) as [[n' df]|].
    + destruct IH as (-> & Hin & Huniq). split; [reflexivity|].
      split; [now right|]. intros df0 Hnd [Heq | Hin0]; [congruence|].
      inversion Hnd; subst. now apply Huniq.
    + intros [Heq | Hin]; [congruence|tauto].
Qed.

Lemma replace_others (name : string) (df' : DataFrame)
    (dataframes : list (string * DataFrame)) (n : string) (df : DataFrame) :
  n <> name ->
  (In (n, df)
      (map (fun t => if String.eqb (fst t) name then (fst t, df') else t) dataframes)
   <-> In (n, df) dataframes).
Proof.
  intros Hne. induction dataframes as [|[m d] l IH]; simpl; [tauto|].
  destruct (String.eqb m name) eqn:E.
  - apply String.eqb_eq in E. subst. cbn [fst].
    split; intros [Heq | Hin]; try (inversion Heq; congruence); right; tauto.
  - tauto.
Qed.

Lemma replace_names (name : string) (df' : DataFrame)
    (dataframes : list (string * DataFrame)) :
  map fst (map (fun t => if String.eqb (fst t) name then (fst t, df') else t)
             dataframes)
  = map fst dataframes.
Proof.
  rewrite map_map. apply map_ext. intros [n d]. cbn [fst].
  now destruct (String.eqb n name).
Qed.

Section ExplodeTables.

Variable json_loads_py : string -> result pyval.
Variable literal_eval : string -> result pyval.

Lemma explode_checkins_frame_total (df : DataFrame) :
  exists df', explode_checkins_frame json_loads_py literal_eval df = Ok df'.
Proof.
  unfold explode_checkins_frame.
  destruct (df_empty df); [eauto|].
  destruct (find_event_time_ids_col df) as [col|]; [|eauto].
  destruct (df_get df col) as [[vals|tz vals|dt vals]|]; eauto;
    unfold explode_by;
    destruct (mapM_parse_total json_loads_py literal_eval vals) as (parsed & -> & _);
    cbn [bind]; eauto.
Qed.

Lemma explode_checkins_frame_unchanged (df : DataFrame) :
  df_empty df = true \/ find_event_time_ids_col df = None ->
  explode_checkins_frame json_loads_py literal_eval df = Ok df.
Proof.
  unfold explode_checkins_frame. intros [H | H].
  - now rewrite H.
  - rewrite H. now destruct (df_empty df).
Qed.

End ExplodeTables.

(** X6.  [_explode_checkins] always returns.  It keeps the names and the order of
    the tables and changes no table other than the check-ins; and it changes
    nothing at all when there is no check-ins table, when that table is
    empty, or when it has none of the accepted link-ids columns. *)
Theorem explode_touches_only_checkins
    (json_loads_py literal_eval : string -> result pyval)
    (dataframes : list (string * DataFrame)) :
  exists dataframes',
    _explode_checkins json_loads_py literal_eval dataframes = Ok dataframes' /\
    map fst dataframes' = map fst dataframes /\
    (forall name df, name <> "PC_CHECKINS"%string ->
       (In (name, df) dataframes' <-> In (name, df) dataframes)) /\
    (~ In "PC_CHECKINS"%string (map fst dataframes) -> dataframes' = dataframes) /\
    (forall df,
       NoDup (map fst dataframes) -> In ("PC_CHECKINS"%string, df) dataframes ->
       df_empty df = true \/ find_event_time_ids_col df = None ->
       dataframes' = dataframes) /\
    _explode_checkins json_loads_py literal_eval tables_without_link_ids
    = Ok tables_without_link_ids.
Proof.
  unfold _explode_checkins at 1.
  pose proof (find_named "PC_CHECKINS"%string dataframes) as Hfind.
  destruct (find _ dataframes) as [[n df]|].
  - destruct Hfind as (-> & Hin & Huniq).
    destruct (explode_checkins_frame_total json_loads_py literal_eval df)
      as (df' & Hdf).
    rewrite Hdf. cbn [bind]. eexists. split; [reflexivity|].
    split; [apply replace_names|].
    split; [intros name d Hne; now apply replace_others|].
    split.
    + intros Hn. exfalso. apply Hn. apply (in_map fst) in Hin. exact Hin.
    + split; [|reflexivity].
      intros df0 Hnd Hin0 Hskip.
      rewrite (Huniq df0 Hnd Hin0) in Hskip.
      rewrite (explode_checkins_frame_unchanged json_loads_py literal_eval df Hskip)
        in Hdf.
      inversion Hdf; subst. now apply replace_same.
  - exists dataframes. split; [reflexivity|]. split; [reflexivity|].
    split; [tauto|]. split; [reflexivity|]. split; [reflexivity|].
    reflexivity.
Qed.

(** * Type inference: further properties *)

Lemma existsb_filter_false {A : Type} (f g : A -> bool) (l : list A) :
  existsb f l = false -> existsb f (filter g l) = false.
Proof.
  induction l as [|x l IH]; simpl; [reflexivity|]. intros H.
  apply orb_false_iff in H as [Hx Hl].
  destruct (g x); simpl; [rewrite Hx; cbn [orb]|]; now apply IH.
Qed.

Lemma existsb_firstn_false {A : Type} (f : A -> bool) (n : nat) (l : list A) :
  existsb f l = false -> existsb f (firstn n l) = false.
Proof.
  revert l. induction n as [|n IH]; intros [|x l] H; simpl; try reflexivity.
  simpl in H. apply orb_false_iff in H as [Hx Hl]. rewrite Hx.
  cbn [orb]. now apply IH.
Qed.

Lemma boolean_column_type_scalar (s : Series) :
  existsb is_complex (object_values s) = false ->
  exists t, boolean_column_type s = Ok t.
Proof.
  intros H. unfold boolean_column_type.
  destruct (negb (is_object s)); [eauto|].
  destruct (head_n 20 (dropna (object_values s))) as [|v sample] eqn:E; [eauto|].
  unfold series_unique.
  assert (Hs : existsb is_complex (v :: sample) = false).
  { rewrite <- E. unfold head_n, dropna.
    now apply existsb_firstn_false, existsb_filter_false. }
  rewrite Hs. cbn [bind].
  destruct (_ && _); eauto.
Qed.

Lemma column_type_scalar (col : string) (s : Series) :
  existsb is_complex (object_values s) = false ->
  exists t, column_type col s = Ok t.
Proof.
  intros H. unfold column_type.
  destruct (_ || _); [eauto|].
  destruct (any_in bool_patterns (lower col));
    [now apply boolean_column_type_scalar|].
  destruct (_ || _); [eauto|].
  destruct (any_in numeric_patterns (lower col)); [eauto|].
  destruct (is_object s); [eauto|].
  destruct (is_bool_dtype s); [eauto|].
  destruct (is_int_dtype s); [eauto|].
  destruct (is_float_dtype s); eauto.
Qed.

(** X7.  On a table none of whose cells is a list or a dictionary, which is what
    the flattener produces, [generate_dtype_mapping] does not raise, and it
    gives a type to every column, in the order of the columns. *)
Theorem dtype_mapping_of_scalar_frame (df : DataFrame) :
  scalar_frame df = true ->
  exists mapping,
    generate_dtype_mapping df = Ok mapping /\ map fst mapping = df_columns df.
Proof.
  unfold generate_dtype_mapping, scalar_frame, df_columns.
  induction df as [|[col s] df IH]; simpl; intros H; [eauto|].
  apply andb_true_iff in H as [Hs Hdf]. apply negb_true_iff in Hs.
  destruct (column_type_scalar col s Hs) as (t & ->). cbn [bind].
  destruct (IH Hdf) as (mapping & -> & Hm). cbn [bind].
  eexists. split; [reflexivity|]. simpl. now rewrite Hm.
Qed.

Lemma dtype_mapping_of_scalar_frame_witness :
  exists mapping,
    generate_dtype_mapping example_table = Ok mapping /\
    map fst mapping = df_columns example_table.
Proof.
  apply (dtype_mapping_of_scalar_frame example_table). reflexivity.
Defined.

Lemma column_type_raises_type_error (col : string) (s : Series) (e : exn) :
  column_type col s = Raise e -> exn_kind e = TypeError.
Proof.
  unfold column_type.
  destruct (_ || _); [discriminate|].
  destruct (any_in bool_patterns (lower col)).
  - unfold boolean_column_type.
    destruct (negb (is_object s)); [discriminate|].
    destruct (head_n 20 (dropna (object_values s))); [discriminate|].
    unfold series_unique. destruct (existsb is_complex _).
    + intros H. inversion H. reflexivity.
    + cbn [bind]. destruct (_ && _); discriminate.
  - destruct (_ || _); [discriminate|].
    destruct (any_in numeric_patterns (lower col)); [discriminate|].
    destruct (is_object s); [discriminate|].
    destruct (is_bool_dtype s); [discriminate|].
    destruct (is_int_dtype s); [discriminate|].
    destruct (is_float_dtype s); discriminate.
Qed.

(** X8.  A column with a boolean-looking name is typed from the distinct values
    of its sample, and [Series.unique] cannot hash a list or a dictionary:
    when such a column, of dtype object and not an id column, holds one among
    its first twenty values that are not missing, [generate_dtype_mapping]
    raises a [TypeError] and gives no mapping at all. *)
Theorem structure_in_flag_column_raises (df : DataFrame) (col : string)
    (vals : list pyval) :
  In (col, ObjectSeries vals) df ->
  endswith col "_id" = false -> endswith col "_ids" = false ->
  any_in bool_patterns (lower col) = true ->
  existsb is_complex (head_n 20 (dropna vals)) = true ->
  exists e, generate_dtype_mapping df = Raise e /\ exn_kind e = TypeError.
Proof.
  intros Hin Hid Hids Hflag Hc. unfold generate_dtype_mapping.
  induction df as [|[c s] df IH]; [destruct Hin|].
  cbn [mapM fst snd]. cbn [In] in Hin.
  destruct (column_type c s) as [t|e] eqn:E.
  - cbn [bind]. destruct Hin as [Heq | Hin].
    + exfalso. inversion Heq; subst. unfold column_type in E.
      rewrite Hid, Hids, Hflag in E. cbn [orb] in E.
      unfold boolean_column_type in E. cbn [is_object negb object_values] in E.
      destruct (head_n 20 (dropna vals)) as [|v sample]; [discriminate Hc|].
      unfold series_unique in E. rewrite Hc in E. discriminate E.
    + destruct (IH Hin) as (e & -> & He). eexists. split; [reflexivity|exact He].
  - cbn [bind]. eexists. split; [reflexivity|].
    eapply column_type_raises_type_error; eauto.
Qed.

Lemma structure_in_flag_column_raises_witness :
  exists e, generate_dtype_mapping table_with_list_flag = Raise e /\
            exn_kind e = TypeError.
Proof.
  apply (structure_in_flag_column_raises table_with_list_flag "is_member"
           [PStr "true"; PList [PStr "x"]]).
  - right. left. reflexivity.
  - reflexivity.
  - reflexivity.
  - reflexivity.
  - reflexivity.
Defined.

(** * Timezone normalisation: further properties *)

Section ConvertShape.

Variable known_timezone : string -> bool.
Variable to_datetime_utc : list pyval -> result (list (option Z)).

(** [pd.to_datetime] returns one instant, or NaT, per value. *)
Hypothesis to_datetime_length :
  forall vals parsed,
    to_datetime_utc vals = Ok parsed -> List.length parsed = List.length vals.

Lemma convert_column_keeps (target : string) (s : Series) :
  keeps_rows s (convert_column to_datetime_utc target s).
Proof.
  assert (Hsame : keeps_rows s s).
  { unfold keeps_rows. split; [reflexivity|]. destruct s; eauto. }
  unfold convert_column.
  destruct (series_all_na s); [exact Hsame|].
  destruct s as [vals|tz vals|dt vals]; [| |exact Hsame].
  - destruct (head_n 50 (dropna vals)) as [|v sample]; [exact Hsame|].
    unfold convert_object_column.
    destruct (negb _); [exact Hsame|].
    destruct (to_datetime_utc (v :: sample)) as [parsed|e]; [|exact Hsame].
    cbn [bind]. destruct (_ <=? _)%nat; [|exact Hsame].
    destruct (existsb has_time_info _); [|exact Hsame].
    destruct (to_datetime_utc vals) as [parsed_full|e] eqn:E; [|exact Hsame].
    cbn [bind]. destruct (0 <? count_notna parsed_full)%nat; [|exact Hsame].
    split; [|exact I]. cbn [series_length]. now apply to_datetime_length.
  - split; [reflexivity|]. eauto.
Qed.

End ConvertShape.

(** X9.  [convert_timestamps_to_timezone] keeps the shape of the table: the same
    columns in the same order, each with as many rows as before.  A column of
    a numeric or boolean dtype is returned as it is, and a datetime column
    keeps its instants: only its zone changes. *)
Theorem timezone_conversion_keeps_rows
    (known_timezone : string -> bool)
    (to_datetime_utc : list pyval -> result (list (option Z)))
    (df df' : DataFrame) (df_name target_timezone : string) :
  (forall vals parsed,
      to_datetime_utc vals = Ok parsed -> List.length parsed = List.length vals) ->
  convert_timestamps_to_timezone known_timezone to_datetime_utc
    df df_name target_timezone = Ok df' ->
  df_columns df' = df_columns df /\
  Forall2 (fun c c' => keeps_rows (snd c) (snd c')) df df'.
Proof.
  intros Hlen. unfold convert_timestamps_to_timezone.
  destruct (known_timezone target_timezone); [|discriminate].
  intros H. inversion H; subst. clear H. split.
  - unfold df_columns. rewrite map_map. reflexivity.
  - induction df as [|[c s] df IH]; simpl; constructor; [|exact IH].
    cbn [snd]. now apply convert_column_keeps.
Qed.

Lemma timezone_conversion_keeps_rows_witness :
  df_columns example_table_converted = df_columns example_table /\
  Forall2 (fun c c' => keeps_rows (snd c) (snd c')) example_table
    example_table_converted.
Proof.
  apply (timezone_conversion_keeps_rows (fun _ => true) example_to_datetime
           example_table example_table_converted "PC_PEOPLE" "US/Central").
  - intros vals parsed H. inversion H. apply length_map.
  - reflexivity.
Defined.

(** X10.  After [convert_timestamps_to_timezone] no datetime column that holds an
    instant is left without a zone or in another zone: every datetime column
    of the result is in the target zone, unless all its values are NaT. *)
Theorem timestamps_end_in_target_zone
    (known_timezone : string -> bool)
    (to_datetime_utc : list pyval -> result (list (option Z)))
    (df df' : DataFrame) (df_name target_timezone : string) :
  convert_timestamps_to_timezone known_timezone to_datetime_utc
    df df_name target_timezone = Ok df' ->
  Forall (fun c => in_zone_or_empty target_timezone (snd c)) df'.
Proof.
  unfold convert_timestamps_to_timezone.
  destruct (known_timezone target_timezone); [|discriminate].
  intros H. inversion H; subst. clear H.
  apply Forall_forall. intros [name s'] Hin.
  apply in_map_iff in Hin. destruct Hin as ([n s] & Heq & _).
  inversion Heq; subst. cbn [snd].
  destruct (convert_column_shape to_datetime_utc target_timezone s)
    as [Hsame | (vals & Hconv & _)].
  - rewrite Hsame. unfold in_zone_or_empty.
    destruct s as [vals|tz vals|dt vals]; auto.
    unfold convert_column in Hsame. cbn [series_all_na] in Hsame.
    destruct (forallb is_nat vals) eqn:E; [now left|].
    right. inversion Hsame. congruence.
  - rewrite Hconv. unfold in_zone_or_empty. now right.
Qed.

Lemma timestamps_end_in_target_zone_witness :
  Forall (fun c => in_zone_or_empty "US/Central" (snd c)) example_table_converted.
Proof.
  apply (timestamps_end_in_target_zone (fun _ => true) example_to_datetime
           example_table example_table_converted "PC_PEOPLE" "US/Central").
  reflexivity.
Defined.

(** * The client: further properties *)

Section GetSoundness.

Variable session_get : nat -> request -> attempt.

Lemma get_loop_returns (remaining : nat) :
  forall (retry_count : nat) (req : request) (waits : list Z)
         (sent0 : list request) (body : pyval),
    returned (get_loop session_get remaining retry_count req waits sent0) = Ok body ->
    exists k, retry_count <= k < retry_count + remaining /\
              classify (session_get k req) = Success body.
Proof.
  induction remaining as [|remaining IH];
    intros retry_count req waits sent0 body H; [discriminate H|].
  cbn [get_loop] in H.
  destruct (classify (session_get retry_count req)) as [b|w|e|e] eqn:E.
  - cbn [returned] in H. inversion H; subst. exists retry_count. split; [lia|exact E].
  - destruct (IH _ _ _ _ _ H) as (k & Hk & Hc). exists k. split; [lia|exact Hc].
  - destruct (max_retries <=? S retry_count)%nat; [discriminate H|].
    destruct (IH _ _ _ _ _ H) as (k & Hk & Hc). exists k. split; [lia|exact Hc].
  - discriminate H.
Qed.

End GetSoundness.

Lemma of_exception_not_success (e : exn) (body : pyval) :
  of_exception e <> Success body.
Proof. unfold of_exception. destruct (exn_kind e); discriminate. Qed.

Lemma classify_success (a : attempt) (body : pyval) :
  classify a = Success body ->
  exists r, a = Returns r /\
            (status_code r < 400 \/ 600 <= status_code r) /\
            json r = Ok body /\ exists d, body = PDict d.
Proof.
  unfold classify. destruct a as [r|e].
  - destruct (Nat.eqb (status_code r) 429).
    + destruct (_handle_rate_limit r); [discriminate|].
      intros H. now apply of_exception_not_success in H.
    + destruct (after_response r) as [json_data|e] eqn:E;
        [|intros H; now apply of_exception_not_success in H].
      intros H. inversion H; subst. clear H. exists r. split; [reflexivity|].
      unfold after_response, raise_for_status in E.
      destruct ((400 <=? status_code r)%nat && (status_code r <? 600)%nat) eqn:Es;
        [discriminate E|].
      cbn [bind] in E. bind_inv E. bind_inv E. bind_inv E. bind_inv E. bind_inv E.
      inversion E; subst. split; [|split; [exact E0|]].
      * apply andb_false_iff in Es as [Hs | Hs].
        -- apply Nat.leb_gt in Hs. now left.
        -- apply Nat.ltb_ge in Hs. now right.
      * destruct body; try discriminate E1. eauto.
  - intros H. now apply of_exception_not_success in H.
Qed.

(** X11.  [get] never hands back the body of an error response: when it returns,
    what it returns is the JSON body, an object, of one of its at most five
    attempts, and that attempt was answered with a status outside 400 to 599. *)
Theorem get_returns_a_successful_body (session_get : nat -> request -> attempt)
    (endpoint : string) (params : dict) (include : list string) (body : pyval) :
  returned (get session_get endpoint params include) = Ok body ->
  exists k r,
    k < 5 /\
    session_get k ((BASE_URL ++ endpoint)%string, with_include params include)
    = Returns r /\
    (status_code r < 400 \/ 600 <= status_code r) /\
    json r = Ok body /\ exists d, body = PDict d.
Proof.
  unfold get. intros H.
  destruct (get_loop_returns session_get _ _ _ _ _ _ H) as (k & Hk & Hc).
  destruct (classify_success _ _ Hc) as (r & Hr & Hs & Hj & Hd).
  exists k, r. unfold max_retries in Hk. repeat split; auto. lia.
Qed.

Lemma get_returns_a_successful_body_witness :
  exists k r,
    k < 5 /\
    session_error_then_ok k
      ((BASE_URL ++ "/people/v2/people")%string, with_include [] [])
    = Returns r /\
    (status_code r < 400 \/ 600 <= status_code r) /\
    json r = Ok two_people /\ exists d, two_people = PDict d.
Proof.
  apply (get_returns_a_successful_body session_error_then_ok "/people/v2/people"
           [] [] two_people).
  reflexivity.
Defined.

(** ** A page that fails *)

Section PaginationFailureFacts.

Variable get_page : nat -> dict -> result pyval.
Variable include : list string.

Lemma pages_loop_raises (pages : list (pyval * list pyval)) :
  forall (fuel page_num : nat) (params : dict) (offset : Z)
         (all_data : list pyval) (requested0 : list dict) (e : exn),
    serves_then_raises get_page include page_num params offset pages e ->
    List.length pages < fuel ->
    pages_loop get_page include fuel page_num params offset all_data requested0
    = Some {| records := Raise e;
              requested :=
                requested0 ++
                expected_requests include params offset
                  (map (fun p => List.length (snd p)) pages) |}.
Proof.
  induction pages as [|[response items] pages IH];
    intros fuel page_num params offset all_data requested0 e Hs Hfuel;
    (destruct fuel as [|fuel]; [simpl in Hfuel; lia|]).
  - cbn [serves_then_raises] in Hs. cbn [pages_loop].
    destruct (get_page page_num (dict_set "offset" (PInt offset) params))
      as [response|e0].
    + cbn [bind] in Hs. rewrite Hs. reflexivity.
    + cbn [bind] in Hs. inversion Hs; subst. reflexivity.
  - cbn [serves_then_raises] in Hs. destruct Hs as (Hget & Hread & Hrest).
    cbn [pages_loop]. rewrite Hget, Hread.
    rewrite (IH fuel _ _ _ _ _ e Hrest) by (simpl in Hfuel; lia).
    cbn [map expected_requests snd].
    now rewrite <- !List.app_assoc.
Qed.

End PaginationFailureFacts.

(** X13.  [get_all_pages] returns all the pages or nothing: when a call of [get]
    raises, or returns a response the loop cannot read, after any number of
    pages that were read, the exception leaves [get_all_pages] and the items
    of the pages already read are not returned.  A page whose [links] is null
    is such a response. *)
Theorem failed_page_fails_pagination
    (get_page : nat -> dict -> result pyval) (include : list string)
    (params : dict) (per_page : Z)
    (pages : list (pyval * list pyval)) (e : exn) (fuel : nat) :
  serves_then_raises get_page include 1
    (dict_set "per_page" (PInt (Z.min per_page 100)) params) 0 pages e ->
  List.length pages < fuel ->
  get_all_pages get_page include fuel params per_page
  = Some {| records := Raise e;
            requested :=
              expected_requests include
                (dict_set "per_page" (PInt (Z.min per_page 100)) params) 0
                (map (fun p => List.length (snd p)) pages) |}.
Proof.
  intros Hs Hfuel. unfold get_all_pages.
  now rewrite (pages_loop_raises get_page include pages fuel 1 _ 0 [] [] e Hs Hfuel).
Qed.

Lemma failed_page_fails_pagination_witness :
  get_all_pages page_then_null_links [] 5 [] 100
  = Some {| records := Raise (Exn TypeError "");
            requested :=
              [[("per_page"%string, PInt 100); ("offset"%string, PInt 0)];
               [("per_page"%string, PInt 100); ("offset"%string, PInt 2)]] |}.
Proof.
  refine (failed_page_fails_pagination page_then_null_links [] [] 100
            [(PDict [("data"%string, PList [PStr "a"; PStr "b"]);
                     ("links"%string, PDict [("next"%string, PStr "page 2")])],
              [PStr "a"; PStr "b"])]
            (Exn TypeError "") 5 _ _).
  - repeat split.
  - simpl. lia.
Defined.

(** * The orchestrator: the job record *)

Lemma run_sync_job_record (env : environment) :
  let final := run_sync env initial_state in
  started_at (job (snd final)) = true /\
  total_endpoints (job (snd final)) = Some 4 /\
  match fatal_exception env with
  | Some (failing, _) =>
      match log_failed env with
      | Ok _ =>
          status (job (snd final)) = failed /\
          completed_at (job (snd final)) = true /\
          (after_mark_completed failing = false ->
             records_fetched (job (snd final)) = 0 /\
             last_data_refresh (snd final) = false) /\
          (failing = StepLogCompleted ->
             records_fetched (job (snd final)) = total_contributed env /\
             last_data_refresh (snd final) = true)
      | Raise _ => True
      end
  | None =>
      status (job (snd final)) = completed /\
      completed_endpoints (job (snd final)) = 3 /\
      current_endpoint (job (snd final)) = Some "/check-ins/v2/event_times"%string
  end.
Proof.
  walk_run env; intros; try discriminate;
    cbv [total_contributed list_sum map fold_right fst DASHBOARD_ENDPOINTS
         records_fetched mark_completed mark_failed job snd];
    repeat split; lia.
Qed.

(** X14.  The progress a completed job shows is one short.  [update_progress] is
    called before each fetch with the number of endpoints fetched so far and
    never after the last one: a run that completes leaves
    [completed_endpoints] at 3 of the 4 [total_endpoints], and
    [current_endpoint] still naming the last endpoint. *)
Theorem completed_run_shows_three_of_four (env : environment) :
  fatal_exception env = None ->
  status (job (snd (run_sync env initial_state))) = completed /\
  total_endpoints (job (snd (run_sync env initial_state))) = Some 4 /\
  completed_endpoints (job (snd (run_sync env initial_state))) = 3 /\
  current_endpoint (job (snd (run_sync env initial_state)))
  = Some "/check-ins/v2/event_times"%string.
Proof.
  intros H. pose proof (run_sync_job_record env) as R.
  cbv zeta in R. rewrite H in R. tauto.
Qed.

Lemma completed_run_shows_three_of_four_witness :
  status (job (snd (run_sync env_with_failing_fetch initial_state))) = completed /\
  total_endpoints (job (snd (run_sync env_with_failing_fetch initial_state)))
  = Some 4 /\
  completed_endpoints (job (snd (run_sync env_with_failing_fetch initial_state)))
  = 3 /\
  current_endpoint (job (snd (run_sync env_with_failing_fetch initial_state)))
  = Some "/check-ins/v2/event_times"%string.
Proof.
  apply (completed_run_shows_three_of_four env_with_failing_fetch). reflexivity.
Defined.

(** X15.  Where the count of a failed job comes from.  [mark_completed] alone
    writes [records_fetched], and [mark_failed] leaves it as it is.  A run
    that fails at a step before [mark_completed] is marked failed with
    [records_fetched] at 0, even if every endpoint had been fetched before
    the failure, and the tenant's [last_data_refresh] is not stamped.  A run
    whose log line after the final commit raises has already been marked
    completed and committed: the handler then marks it failed, and the job
    ends failed while it holds the full count and the tenant is stamped as
    refreshed. *)
Theorem count_of_a_failed_run (env : environment) (failing : step) (e : exn) :
  fatal_exception env = Some (failing, e) ->
  log_failed env = Ok tt ->
  status (job (snd (run_sync env initial_state))) = failed /\
  started_at (job (snd (run_sync env initial_state))) = true /\
  completed_at (job (snd (run_sync env initial_state))) = true /\
  (after_mark_completed failing = false ->
     records_fetched (job (snd (run_sync env initial_state))) = 0 /\
     last_data_refresh (snd (run_sync env initial_state)) = false) /\
  (failing = StepLogCompleted ->
     records_fetched (job (snd (run_sync env initial_state)))
     = total_contributed env /\
     last_data_refresh (snd (run_sync env initial_state)) = true).
Proof.
  intros H L. pose proof (run_sync_job_record env) as R.
  cbv zeta in R. rewrite H, L in R. tauto.
Qed.

Lemma count_of_a_failed_run_witness :
  status (job (snd (run_sync env_with_failing_log initial_state))) = failed /\
  records_fetched (job (snd (run_sync env_with_failing_log initial_state))) = 40 /\
  last_data_refresh (snd (run_sync env_with_failing_log initial_state)) = true.
Proof.
  pose proof (count_of_a_failed_run env_with_failing_log StepLogCompleted
                (Exn PlainException "cannot refresh the tenant")
                eq_refl eq_refl) as (Hs & _ & _ & _ & Hlog).
  destruct (Hlog eq_refl) as [Hn Hr].
  split; [exact Hs|]. split; [exact Hn|exact Hr].
Defined.

(** The load stage raises after every endpoint was fetched: the failed job
    shows no record. *)
Lemma failed_load_shows_no_record :
  status (job (snd (run_sync env_with_failing_load initial_state))) = failed /\
  records_fetched (job (snd (run_sync env_with_failing_load initial_state))) = 0 /\
  total_contributed env_with_failing_load = 40.
Proof. repeat split. Qed.

(** * Schema names *)

Lemma text_length (l : list ascii) : String.length (text l) = List.length l.
Proof. induction l as [|c l IH]; simpl; congruence. Qed.

Lemma name_letter_is_lower (c : ascii) :
  is_name_char c = true -> is_alpha_char c = true -> is_ascii_lower c = true.
Proof.
  destruct c as [[] [] [] [] [] [] [] []]; intros H1 H2;
    try discriminate H1; try discriminate H2; reflexivity.
Qed.

Lemma forallb_firstn {A : Type} (f : A -> bool) (n : nat) (l : list A) :
  forallb f l = true -> forallb f (firstn n l) = true.
Proof.
  revert l. induction n as [|n IH]; intros [|x l] H; simpl; try reflexivity.
  simpl in H. apply andb_true_iff in H as [Hx Hl]. rewrite Hx. now apply IH.
Qed.

Lemma forallb_filter_same {A : Type} (f : A -> bool) (l : list A) :
  forallb f (filter f l) = true.
Proof.
  induction l as [|x l IH]; simpl; [reflexivity|].
  destruct (f x) eqn:E; simpl; [rewrite E|]; exact IH.
Qed.

Lemma filter_two_underscores (a b c : list ascii) :
  filter is_name_char (a ++ "_"%char :: b ++ "_"%char :: c)
  = filter is_name_char a ++
    "_"%char :: filter is_name_char b ++ "_"%char :: filter is_name_char c.
Proof.
  rewrite filter_app. cbn [filter]. change (is_name_char "_"%char) with true.
  cbv iota. rewrite filter_app. cbn [filter].
  change (is_name_char "_"%char) with true. reflexivity.
Qed.

(** X16.  [generate_schema_name] always returns, and what it returns can be
    written between brackets in a SQL statement: a name of 3 to 100
    characters, all of them lower-case ASCII letters, digits or underscores,
    the first one a letter.  The name of the docstring is obtained for its
    example; three empty texts give [c___], and a name that starts with a
    digit is prefixed. *)
Theorem schema_name_is_an_identifier (church_name city state : string) :
  (exists name first rest,
     generate_schema_name church_name city state = Some name /\
     chars name = first :: rest /\
     is_ascii_lower first = true /\
     forallb is_name_char (chars name) = true /\
     3 <= String.length name <= 100) /\
  generate_schema_name "Grace Fellowship" "Paradise" "TX" = Some "gf_paradise_tx"%string /\
  generate_schema_name "" "" "" = Some "c___"%string /\
  generate_schema_name " 1st  Baptist Church " "St. Paul" "mn "
  = Some "c_1bc_stpaul_mn"%string.
Proof.
  split; [|repeat split].
  unfold generate_schema_name.
  set (a := flat_map initial_of (split_words (chars (strip church_name)) [])).
  set (b := filter is_ascii_alnum (chars (lower (strip city)))).
  set (c := firstn 2 (chars (lower (strip state)))).
  pose proof (forallb_filter_same is_name_char
                (a ++ "_"%char :: b ++ "_"%char :: c)) as Hall.
  rewrite filter_two_underscores in *.
  set (tail := "_"%char :: filter is_name_char b ++
               "_"%char :: filter is_name_char c) in *.
  assert (Htail : 2 <= List.length tail).
  { unfold tail. cbn [List.length]. rewrite length_app. cbn [List.length]. lia. }
  destruct (filter is_name_char a) as [|x fa].
  - (* no initial survives: the name starts with an underscore *)
    cbn [List.app]. unfold tail at 1.
    change (negb (is_alpha_char "_"%char)) with true. cbv iota. fold tail.
    exists (text (firstn 100 (chars "c_" ++ tail))), "c"%char,
      (firstn 99 ("_"%char :: tail)).
    split; [reflexivity|]. rewrite chars_text, text_length.
    split; [reflexivity|]. split; [reflexivity|].
    split; [apply forallb_firstn; exact Hall|].
    rewrite length_firstn. cbn [List.length chars list_ascii_of_string List.app].
    lia.
  - cbn [List.app] in *.
    assert (Hx : is_name_char x = true).
    { cbn [forallb] in Hall. now apply andb_true_iff in Hall as [H _]. }
    destruct (is_alpha_char x) eqn:Ealpha; cbn [negb].
    + exists (text (firstn 100 (x :: fa ++ tail))), x, (firstn 99 (fa ++ tail)).
      split; [reflexivity|]. rewrite chars_text, text_length.
      split; [reflexivity|]. split; [now apply name_letter_is_lower|].
      split; [now apply forallb_firstn|].
      rewrite length_firstn. cbn [List.length]. rewrite length_app. lia.
    + exists (text (firstn 100 (chars "c_" ++ x :: fa ++ tail))), "c"%char,
        (firstn 99 ("_"%char :: x :: fa ++ tail)).
      split; [reflexivity|]. rewrite chars_text, text_length.
      split; [reflexivity|]. split; [reflexivity|].
      split; [apply forallb_firstn; exact Hall|].
      rewrite length_firstn.
      cbn [List.length chars list_ascii_of_string List.app]. lia.
Qed.

(** * The load stage *)

Section LoadFacts.

Variable schema_exists : string -> result bool.
Variable execute : statement -> result unit.

Lemma load_tables_loaded (schema : string) (dataframes : list (string * DataFrame)) :
  Forall (loads execute schema) dataframes ->
  forall committed,
    load_tables execute schema dataframes committed
    = (committed ++ loaded_statements schema dataframes, Ok tt).
Proof.
  induction 1 as [|[table_name df] rest Ht _ IH]; intros committed.
  - cbn [load_tables loaded_statements]. now rewrite List.app_nil_r.
  - cbn [load_tables loaded_statements snd fst]. unfold table_statements.
    cbn [fst snd]. destruct Ht as [Hempty | (dtype & Hdrop & Hmap & Hwrite)].
    + cbn [snd] in Hempty. rewrite Hempty, IH.
      now destruct (generate_dtype_mapping df).
    + cbn [fst snd] in *. destruct (df_empty df).
      * rewrite IH. now rewrite Hmap.
      * rewrite Hdrop, Hmap, Hwrite, IH. cbn [List.app].
        now rewrite <- !List.app_assoc.
Qed.

Lemma load_tables_app (schema : string) (before after : list (string * DataFrame)) :
  Forall (loads execute schema) before ->
  forall committed,
    load_tables execute schema (before ++ after) committed
    = load_tables execute schema after
        (committed ++ loaded_statements schema before).
Proof.
  induction 1 as [|[table_name df] rest Ht _ IH]; intros committed.
  - cbn [List.app loaded_statements]. now rewrite List.app_nil_r.
  - cbn [List.app load_tables loaded_statements snd fst]. unfold table_statements.
    cbn [fst snd]. destruct Ht as [Hempty | (dtype & Hdrop & Hmap & Hwrite)].
    + cbn [snd] in Hempty. rewrite Hempty, IH.
      now destruct (generate_dtype_mapping df).
    + cbn [fst snd] in *. destruct (df_empty df).
      * rewrite IH. now rewrite Hmap.
      * rewrite Hdrop, Hmap, Hwrite, IH. cbn [List.app].
        now rewrite <- !List.app_assoc.
Qed.

End LoadFacts.

(** X17.  The load stage drops a destination table before it knows that it can
    write it, and nothing is rolled back.  When the schema exists and the
    tables before [table_name] load, and the type mapping of the table or its
    bulk write raises, the stage raises that exception having committed the
    statements of the tables before it and the drop of the table itself: the
    old copy of the table is gone and no new one is written, the tables
    loaded earlier stay loaded, and the tables after it are not touched. *)
Theorem failed_write_leaves_table_dropped
    (schema_exists : string -> result bool) (execute : statement -> result unit)
    (schema : string) (before after : list (string * DataFrame))
    (table_name : string) (df : DataFrame) (e : exn) :
  schema_exists schema = Ok true ->
  Forall (loads execute schema) before ->
  df_empty df = false ->
  execute (drop_table schema table_name) = Ok tt ->
  (dtype <- generate_dtype_mapping df ;;
   execute (ToSql schema table_name df dtype)) = Raise e ->
  _load_to_database schema_exists execute schema
    (before ++ (table_name, df) :: after)
  = (loaded_statements schema before ++ [drop_table schema table_name], Raise e).
Proof.
  intros Hschema Hbefore Hne Hdrop Hfail.
  unfold _load_to_database, _ensure_schema_exists. rewrite Hschema.
  rewrite (load_tables_app execute schema before _ Hbefore).
  cbn [load_tables List.app]. rewrite Hne, Hdrop.
  destruct (generate_dtype_mapping df) as [dtype|e0]; cbn [bind] in Hfail.
  - now rewrite Hfail.
  - now inversion Hfail.
Qed.

Lemma failed_write_leaves_table_dropped_witness :
  _load_to_database schema_present always_executes "gf_paradise_tx" tables_of_a_run
  = (loaded_statements "gf_paradise_tx" (firstn 2 tables_of_a_run)
       ++ [drop_table "gf_paradise_tx" "PC_CHECKINS"],
     Raise (Exn TypeError "")).
Proof.
  apply (failed_write_leaves_table_dropped schema_present always_executes
           "gf_paradise_tx" (firstn 2 tables_of_a_run) [] "PC_CHECKINS"
           table_with_list_flag (Exn TypeError "")).
  - reflexivity.
  - apply Forall_cons; [|apply Forall_cons; [|apply Forall_nil]].
    + right. eexists. repeat split.
    + left. reflexivity.
  - reflexivity.
  - reflexivity.
  - reflexivity.
Defined.

(** X18.  When every table loads, the stage commits, for each table that is not
    empty and in the order of the dictionary, the drop of the destination
    table followed by its bulk write, after creating the schema if the query
    did not find it; an empty table costs no statement, so its destination
    table, if there is one from an earlier run, is left as it was. *)
Theorem load_replaces_each_nonempty_table
    (schema_exists : string -> result bool) (execute : statement -> result unit)
    (schema : string) (dataframes : list (string * DataFrame)) (found : bool) :
  schema_exists schema = Ok found ->
  (found = false -> execute (create_schema schema) = Ok tt) ->
  Forall (loads execute schema) dataframes ->
  _load_to_database schema_exists execute schema dataframes
  = ((if found then [] else [create_schema schema])
       ++ loaded_statements schema dataframes, Ok tt).
Proof.
  intros Hschema Hcreate Hall.
  unfold _load_to_database, _ensure_schema_exists. rewrite Hschema.
  destruct found.
  - now rewrite (load_tables_loaded execute schema dataframes Hall).
  - rewrite (Hcreate eq_refl).
    now rewrite (load_tables_loaded execute schema dataframes Hall).
Qed.

Lemma load_replaces_each_nonempty_table_witness :
  _load_to_database schema_present always_executes "gf_paradise_tx"
    (firstn 2 tables_of_a_run)
  = ((if true then [] else [create_schema "gf_paradise_tx"])
       ++ loaded_statements "gf_paradise_tx" (firstn 2 tables_of_a_run), Ok tt).
Proof.
  apply (load_replaces_each_nonempty_table schema_present always_executes
           "gf_paradise_tx" (firstn 2 tables_of_a_run) true).
  - reflexivity.
  - discriminate.
  - apply Forall_cons; [|apply Forall_cons; [|apply Forall_nil]].
    + right. eexists. repeat split.
    + left. reflexivity.
Defined.

(** * Derived date and time columns *)

Lemma in_columns_app (name : string) (df extra : DataFrame) :
  in_columns name (df ++ extra) = in_columns name df || in_columns name extra.
Proof.
  unfold in_columns, df_columns. now rewrite map_app, existsb_app.
Qed.

Lemma in_columns_In (name : string) (df : DataFrame) :
  in_columns name df = true <-> In name (df_columns df).
Proof.
  unfold in_columns. rewrite existsb_exists. split.
  - intros (x & Hx & E). apply String.eqb_eq in E. now subst.
  - intros H. exists name. split; [exact H|apply String.eqb_refl].
Qed.

Lemma df_get_app (df extra : DataFrame) (col : string) :
  In col (df_columns df) -> df_get (df ++ extra) col = df_get df col.
Proof.
  induction df as [|[n s] df IH]; simpl; [tauto|].
  intros [-> | H].
  - now rewrite String.eqb_refl.
  - destruct (String.eqb n col); [reflexivity|now apply IH].
Qed.

Lemma df_get_in (df : DataFrame) (col : string) (s : Series) :
  df_get df col = Some s -> In col (df_columns df).
Proof.
  induction df as [|[n s0] df IH]; simpl; [discriminate|].
  destruct (String.eqb n col) eqn:E.
  - apply String.eqb_eq in E. now left.
  - intros H. right. now apply IH.
Qed.

Lemma derived_name_not_at (base : string) :
  endswith (base ++ "_date") "_at" = false /\
  endswith (base ++ "_time") "_at" = false.
Proof.
  unfold endswith. rewrite !chars_append, !rev_app_distr. split; reflexivity.
Qed.

Section DerivedFacts.

Variable dt_date : option string -> list (option Z) -> result (list pyval).
Variable dt_time : option string -> list (option Z) -> result (list pyval).

Let derive := derive_columns dt_date dt_time.

(** A column is added under a name the table does not have yet. *)
Lemma add_if_absent_appends (name : string) (values : result (list pyval))
    (df : DataFrame) :
  add_if_absent name values df = df \/
  exists vals,
    values = Ok vals /\ in_columns name df = false /\
    add_if_absent name values df = df ++ [(name, ObjectSeries vals)].
Proof.
  unfold add_if_absent. destruct (in_columns name df) eqn:E; [now left|].
  destruct values as [vals|e]; [|now left]. right. eauto.
Qed.

Lemma settled_stable (df : DataFrame) (col : string) :
  settled dt_date dt_time df col -> derive df col = df.
Proof.
  unfold settled, derive, derive_columns. intros [H | H].
  - now rewrite H.
  - destruct (negb (endswith col "_at")); [reflexivity|].
    destruct (df_get df col) as [[vals|tz vals|dt vals]|]; try reflexivity.
    destruct H as [Hd Ht].
    assert (E : add_if_absent (without_at col ++ "_date") (dt_date tz vals) df = df).
    { unfold add_if_absent. destruct Hd as [-> | (e & ->)]; [reflexivity|].
      match goal with |- (if ?b then _ else _) = _ => now destruct b end. }
    rewrite E. unfold add_if_absent.
    destruct Ht as [-> | (e & ->)]; [reflexivity|].
    match goal with |- (if ?b then _ else _) = _ => now destruct b end.
Qed.

Lemma settled_mono (df extra : DataFrame) (col : string) :
  In col (df_columns df) ->
  settled dt_date dt_time df col -> settled dt_date dt_time (df ++ extra) col.
Proof.
  unfold settled. intros Hin [H | H]; [now left|]. right.
  rewrite (df_get_app df extra col Hin).
  destruct (df_get df col) as [[vals|tz vals|dt vals]|]; try exact I.
  destruct H as [Hd Ht]. rewrite !in_columns_app. split.
  - destruct Hd as [-> | Hd]; [now left|now right].
  - destruct Ht as [-> | Ht]; [now left|now right].
Qed.

(** One iteration appends at most two columns, under names the table does
    not have, and leaves nothing to derive from its column. *)
Lemma derive_step (df : DataFrame) (col : string) :
  In col (df_columns df) ->
  exists extra,
    derive df col = df ++ extra /\
    settled dt_date dt_time (df ++ extra) col /\
    Forall (fun c =>
              in_columns (fst c) df = false /\
              exists tz vals,
                df_get df col = Some (DatetimeSeries tz vals) /\
                endswith col "_at" = true /\
                (fst c = (without_at col ++ "_date")%string \/
                 fst c = (without_at col ++ "_time")%string)) extra.
Proof.
  intros Hin. unfold derive, derive_columns, settled.
  destruct (endswith col "_at") eqn:Eat; cbn [negb];
    [|exists []; rewrite List.app_nil_r; repeat split; auto].
  destruct (df_get df col) as [[vals|tz vals|dt vals]|] eqn:Eget;
    try (exists []; rewrite List.app_nil_r; rewrite Eget;
         repeat split; auto; fail).
  set (date_col := (without_at col ++ "_date")%string).
  set (time_col := (without_at col ++ "_time")%string).
  assert (Hne : String.eqb time_col date_col = false).
  { apply String.eqb_neq. unfold time_col, date_col. intros H.
    apply append_inj_r in H. discriminate H. }
  destruct (add_if_absent_appends date_col (dt_date tz vals) df)
    as [E1 | (d & Hd & Hnd & E1)].
  - rewrite E1.
    assert (Hdate : in_columns date_col df = true \/
                    exists e, dt_date tz vals = Raise e).
    { unfold add_if_absent in E1. destruct (in_columns date_col df); [now left|].
      destruct (dt_date tz vals) as [d|e]; [|right; eauto].
      exfalso. apply (f_equal (@List.length _)) in E1.
      rewrite length_app in E1. simpl in E1. lia. }
    destruct (add_if_absent_appends time_col (dt_time tz vals) df)
      as [E2 | (t & Ht & Hnt & E2)].
    + rewrite E2. exists []. rewrite List.app_nil_r, Eget.
      split; [reflexivity|]. split; [|constructor]. right. split; [exact Hdate|].
      unfold add_if_absent in E2. destruct (in_columns time_col df); [now left|].
      destruct (dt_time tz vals) as [t|e]; [|right; eauto].
      exfalso. apply (f_equal (@List.length _)) in E2.
      rewrite length_app in E2. simpl in E2. lia.
    + rewrite E2. exists [(time_col, ObjectSeries t)].
      rewrite (df_get_app df _ col Hin), Eget.
      split; [reflexivity|]. split.
      * right. rewrite !in_columns_app. split.
        -- destruct Hdate as [-> | Hdate]; [now left|now right].
        -- left. unfold in_columns at 2. simpl. rewrite String.eqb_refl.
           now rewrite orb_true_r.
      * constructor; [|constructor]. cbn [fst]. split; [exact Hnt|].
        exists tz, vals. auto.
  - rewrite E1.
    destruct (add_if_absent_appends time_col (dt_time tz vals)
                (df ++ [(date_col, ObjectSeries d)]))
      as [E2 | (t & Ht & Hnt & E2)].
    + rewrite E2. exists [(date_col, ObjectSeries d)].
      rewrite (df_get_app df _ col Hin), Eget.
      split; [reflexivity|]. split.
      * right. rewrite !in_columns_app. split.
        -- left. unfold in_columns at 2. simpl. rewrite String.eqb_refl.
           now rewrite orb_true_r.
        -- unfold add_if_absent in E2. rewrite in_columns_app in E2.
           destruct (in_columns time_col df || in_columns time_col _) eqn:Ein;
             [now left|].
           destruct (dt_time tz vals) as [t|e]; [|right; eauto].
           exfalso. apply (f_equal (@List.length _)) in E2.
           rewrite !length_app in E2. simpl in E2. lia.
      * constructor; [|constructor]. cbn [fst]. split; [exact Hnd|].
        exists tz, vals. auto.
    + rewrite E2. rewrite <- List.app_assoc. cbn [List.app].
      exists [(date_col, ObjectSeries d); (time_col, ObjectSeries t)].
      rewrite (df_get_app df _ col Hin), Eget.
      split; [reflexivity|]. split.
      * right. rewrite !in_columns_app. split; left.
        -- unfold in_columns at 2. simpl. rewrite String.eqb_refl.
           now rewrite orb_true_r.
        -- unfold in_columns at 2. simpl. rewrite String.eqb_refl.
           now rewrite !orb_true_r.
      * rewrite in_columns_app in Hnt. apply orb_false_iff in Hnt as [Hnt _].
        constructor; [|constructor; [|constructor]]; cbn [fst];
          (split; [assumption|]); exists tz, vals; auto.
Qed.

(** The loop over the columns [cols] of the starting table [df0], from a
    table that extends it. *)
Lemma derive_loop (df0 : DataFrame) (cols : list string) :
  incl cols (df_columns df0) ->
  forall acc,
    Forall (fun c => in_columns (fst c) df0 = false /\
                     derived_from df0 (fst c)) acc ->
    exists acc',
      fold_left derive cols (df0 ++ acc) = df0 ++ acc' /\
      Forall (fun c => in_columns (fst c) df0 = false /\
                       derived_from df0 (fst c)) acc' /\
      (forall col, In col cols -> settled dt_date dt_time (df0 ++ acc') col).
Proof.
  induction cols as [|col cols IH]; intros Hincl acc Hacc.
  - exists acc. cbn [fold_left]. repeat split; auto. intros col [].
  - assert (Hcol : In col (df_columns df0)) by (apply Hincl; now left).
    assert (Hcol' : In col (df_columns (df0 ++ acc))).
    { unfold df_columns. rewrite map_app. apply in_or_app. now left. }
    destruct (derive_step (df0 ++ acc) col Hcol') as (extra & E & Hs & Hx).
    cbn [fold_left]. rewrite E, <- List.app_assoc.
    destruct (IH (fun c H => Hincl c (or_intror H)) (acc ++ extra))
      as (acc' & Ef & Hacc' & Hset).
    { apply Forall_app. split; [exact Hacc|].
      revert Hx. apply Forall_impl. intros c (Hn & tz & vals & Hget & Hat & Hname).
      rewrite in_columns_app in Hn. apply orb_false_iff in Hn as [Hn _].
      split; [exact Hn|]. exists col, tz, vals.
      rewrite (df_get_app df0 acc col Hcol) in Hget. auto. }
    exists acc'. split; [exact Ef|]. split; [exact Hacc'|].
    intros c [<- | Hc]; [|now apply Hset].
    (* the column just processed stays settled while the table grows *)
    assert (Hgrow : exists more, df0 ++ acc' = (df0 ++ acc ++ extra) ++ more).
    { clear -Ef. revert Ef. generalize (df0 ++ acc ++ extra). clear.
      induction cols as [|c cols IH]; intros df Ef.
      - cbn [fold_left] in Ef. exists []. now rewrite List.app_nil_r.
      - cbn [fold_left] in Ef.
        destruct (in_dec string_dec c (df_columns df)) as [Hc | Hc].
        + destruct (derive_step df c Hc) as (x & Ex & _ & _).
          rewrite Ex in Ef. destruct (IH _ Ef) as (more & Hm).
          exists (x ++ more). now rewrite List.app_assoc.
        + assert (Ex : derive df c = df).
          { unfold derive, derive_columns.
            destruct (negb (endswith c "_at")); [reflexivity|].
            destruct (df_get df c) as [s|] eqn:Eg; [|reflexivity].
            apply df_get_in in Eg. contradiction. }
          rewrite Ex in Ef. now apply IH. }
    destruct Hgrow as (more & ->).
    apply settled_mono.
    + unfold df_columns. rewrite !map_app. apply in_or_app. now left.
    + rewrite <- List.app_assoc in Hs. exact Hs.
Qed.

Lemma settled_fold (df : DataFrame) (cols : list string) :
  (forall col, In col cols -> settled dt_date dt_time df col) ->
  fold_left derive cols df = df.
Proof.
  induction cols as [|col cols IH]; intros H; [reflexivity|].
  cbn [fold_left]. rewrite settled_stable by (apply H; now left).
  apply IH. intros c Hc. apply H. now right.
Qed.

Lemma derived_not_at (df0 : DataFrame) (name : string) :
  derived_from df0 name -> endswith name "_at" = false.
Proof.
  intros (col & tz & vals & _ & _ & [-> | ->]); apply derived_name_not_at.
Qed.

End DerivedFacts.

(** X19.  [add_derived_date_columns] only appends.  The columns of the table it is
    given come back unchanged and in their order, followed by the new
    columns; every new column is the [_date] or the [_time] column of a
    datetime column whose name ends with [_at], and its name is one the
    table did not have: no existing column is ever replaced. *)
Theorem derived_columns_are_appended
    (dt_date dt_time : option string -> list (option Z) -> result (list pyval))
    (df : DataFrame) (df_name : string) :
  exists added,
    add_derived_date_columns dt_date dt_time df df_name = df ++ added /\
    Forall (fun c => in_columns (fst c) df = false /\ derived_from df (fst c))
      added.
Proof.
  unfold add_derived_date_columns.
  destruct (derive_loop dt_date dt_time df (df_columns df) (incl_refl _) [])
    as (acc & E & Hacc & _); [constructor|].
  rewrite List.app_nil_r in E. exists acc. split; [exact E|exact Hacc].
Qed.

(** X20.  Deriving twice adds nothing: applied to its own result,
    [add_derived_date_columns] returns that result. *)
Theorem derived_columns_idempotent
    (dt_date dt_time : option string -> list (option Z) -> result (list pyval))
    (df : DataFrame) (df_name : string) :
  add_derived_date_columns dt_date dt_time
    (add_derived_date_columns dt_date dt_time df df_name) df_name
  = add_derived_date_columns dt_date dt_time df df_name.
Proof.
  unfold add_derived_date_columns at 2 3.
  destruct (derive_loop dt_date dt_time df (df_columns df) (incl_refl _) [])
    as (acc & E & Hacc & Hset); [constructor|].
  rewrite List.app_nil_r in E. rewrite E.
  unfold add_derived_date_columns. apply settled_fold.
  intros col Hcol. unfold df_columns in Hcol. rewrite map_app in Hcol.
  apply in_app_or in Hcol as [Hcol | Hcol]; [now apply Hset|].
  left. apply in_map_iff in Hcol as (c & <- & Hc).
  rewrite Forall_forall in Hacc. destruct (Hacc c Hc) as [_ Hd].
  now apply (derived_not_at df).
Qed.

(** * Preparation for storage *)

Section PrepareFacts.

Variable json_loads_py : string -> result pyval.
Variable literal_eval : string -> result pyval.
Variable isna_of_list : list pyval -> result bool.
Variable infer_series : list pyval -> Series.

Lemma serialized_calls_for_nothing (v : pyval) :
  already_serialized json_loads_py v ->
  calls_for_conversion json_loads_py literal_eval v = Ok false.
Proof.
  destruct v; cbn [already_serialized calls_for_conversion]; try reflexivity;
    try contradiction.
  intros [-> | (parsed & ->)]; [reflexivity|].
  now destruct (looks_bracketed (strip s)).
Qed.

Lemma serialized_needs_no_conversion (sample : list pyval) :
  Forall (already_serialized json_loads_py) sample ->
  needs_conversion json_loads_py literal_eval sample = Ok false.
Proof.
  induction 1 as [|v sample Hv _ IH]; [reflexivity|].
  cbn [needs_conversion]. rewrite (serialized_calls_for_nothing v Hv).
  exact IH.
Qed.

Lemma Forall_head_dropna (P : pyval -> Prop) (n : nat) (vals : list pyval) :
  Forall P vals -> Forall P (head_n n (dropna vals)).
Proof.
  intros H. apply Forall_forall. intros v Hv.
  apply head_n_incl in Hv. unfold dropna in Hv. apply filter_In in Hv as [Hv _].
  revert v Hv. now apply Forall_forall.
Qed.

Lemma serialized_column_unchanged (s : Series) :
  Forall (already_serialized json_loads_py) (object_values s) ->
  prepare_column json_loads_py literal_eval isna_of_list infer_series s = Ok s.
Proof.
  destruct s as [vals|tz vals|dt vals]; try reflexivity.
  cbn [object_values prepare_column]. intros H.
  pose proof (Forall_head_dropna _ 100 vals H) as Hs.
  destruct (head_n 100 (dropna vals)) as [|v sample]; [reflexivity|].
  now rewrite (serialized_needs_no_conversion _ Hs).
Qed.

Lemma calls_for_conversion_returns (v : pyval) :
  (forall s e, json_loads_py s = Raise e -> exn_kind e = ValueError) ->
  exists b, calls_for_conversion json_loads_py literal_eval v = Ok b.
Proof.
  intros Hjson. destruct v; cbn [calls_for_conversion]; eauto.
  destruct (looks_bracketed (strip s)); [|eauto].
  destruct (json_loads_py (strip s)) as [parsed|e] eqn:E; [eauto|].
  rewrite (Hjson _ _ E). destruct (literal_eval (strip s)); eauto.
Qed.

Lemma needs_conversion_returns (sample : list pyval) :
  (forall s e, json_loads_py s = Raise e -> exn_kind e = ValueError) ->
  exists b, needs_conversion json_loads_py literal_eval sample = Ok b.
Proof.
  intros Hjson. induction sample as [|v sample IH]; cbn [needs_conversion];
    [eauto|].
  destruct (calls_for_conversion_returns v Hjson) as (b & ->). cbn [bind].
  destruct b; [eauto|exact IH].
Qed.

Lemma prepare_column_prepared (s : Series) :
  (forall t e, json_loads_py t = Raise e -> exn_kind e = ValueError) ->
  exists s',
    prepare_column json_loads_py literal_eval isna_of_list infer_series s = Ok s' /\
    prepared literal_eval isna_of_list infer_series s s'.
Proof.
  intros Hjson. unfold prepared.
  destruct s as [vals|tz vals|dt vals]; cbn [prepare_column]; eauto.
  destruct (head_n 100 (dropna vals)) as [|v sample]; [eauto|].
  destruct (needs_conversion_returns (v :: sample) Hjson) as (b & ->).
  cbn [bind]. destruct b; [|eauto].
  destruct (mapM _ vals) as [converted|e] eqn:E; [|eauto].
  eexists. split; [reflexivity|]. right. eauto.
Qed.

End PrepareFacts.

(** X21.  [prepare_dataframe_for_sql] changes nothing in a table that is already
    fit for storage: when no value of its object columns is a list or a
    dictionary and every text between brackets is one [json.loads] reads,
    as the JSON texts written by the flattener are, the table is returned as
    it is, whatever the other library calls do. *)
Theorem serialized_table_is_unchanged
    (json_loads_py literal_eval : string -> result pyval)
    (isna_of_list : list pyval -> result bool)
    (infer_series : list pyval -> Series)
    (df : DataFrame) (df_name : string) :
  Forall (fun c => Forall (already_serialized json_loads_py)
                     (object_values (snd c))) df ->
  prepare_dataframe_for_sql json_loads_py literal_eval isna_of_list infer_series
    df df_name = Ok df.
Proof.
  unfold prepare_dataframe_for_sql.
  induction 1 as [|[name s] df Hs _ IH]; [reflexivity|].
  cbn [mapM fst snd] in *.
  rewrite (serialized_column_unchanged json_loads_py literal_eval isna_of_list
             infer_series s Hs).
  cbn [bind]. now rewrite IH.
Qed.

Lemma serialized_table_is_unchanged_witness :
  prepare_dataframe_for_sql json_loads literal_eval_fragment
    (fun _ => raise_of ValueError) ObjectSeries flattened_table "PC_PEOPLE"
  = Ok flattened_table.
Proof.
  apply (serialized_table_is_unchanged json_loads literal_eval_fragment
           (fun _ => raise_of ValueError) ObjectSeries flattened_table "PC_PEOPLE").
  repeat (apply Forall_cons || apply Forall_nil); cbn [snd object_values];
    repeat (apply Forall_cons || apply Forall_nil);
    cbn [already_serialized]; try exact I;
    try (left; reflexivity); right; eexists; reflexivity.
Defined.

(** X22.  When [json.loads] raises nothing but [ValueError], which is what it
    raises on a text that is not JSON, [prepare_dataframe_for_sql] returns:
    the table has the same columns in the same order, and each column is
    either untouched or, for a column of dtype object, replaced as a whole by
    the series of its converted values.  A column in which the conversion of
    any value raises is left entirely as it was. *)
Theorem prepared_table_keeps_its_columns
    (json_loads_py literal_eval : string -> result pyval)
    (isna_of_list : list pyval -> result bool)
    (infer_series : list pyval -> Series)
    (df : DataFrame) (df_name : string) :
  (forall t e, json_loads_py t = Raise e -> exn_kind e = ValueError) ->
  exists df',
    prepare_dataframe_for_sql json_loads_py literal_eval isna_of_list
      infer_series df df_name = Ok df' /\
    df_columns df' = df_columns df /\
    Forall2 (fun c c' => prepared literal_eval isna_of_list infer_series
                           (snd c) (snd c')) df df'.
Proof.
  intros Hjson. unfold prepare_dataframe_for_sql, df_columns.
  induction df as [|[name s] df (df' & E & Hc & Hp)].
  - exists []. repeat split; constructor.
  - cbn [mapM fst snd].
    destruct (prepare_column_prepared json_loads_py literal_eval isna_of_list
                infer_series s Hjson) as (s' & -> & Hs).
    cbn [bind]. rewrite E. cbn [bind].
    exists ((name, s') :: df'). split; [reflexivity|]. split.
    + cbn [map fst]. now rewrite Hc.
    + constructor; [exact Hs|exact Hp].
Qed.

Lemma json_loads_raises_value_error (t : string) (e : exn) :
  json_loads t = Raise e -> exn_kind e = ValueError.
Proof.
  unfold json_loads. destruct (json_decode (chars t)); [discriminate|].
  intros H. inversion H. reflexivity.
Qed.

Lemma prepared_table_keeps_its_columns_witness :
  exists df',
    prepare_dataframe_for_sql json_loads literal_eval_fragment
      (fun _ => raise_of ValueError) ObjectSeries table_with_list_flag
      "PC_CHECKINS" = Ok df' /\
    df_columns df' = df_columns table_with_list_flag /\
    Forall2 (fun c c' => prepared literal_eval_fragment
                           (fun _ => raise_of ValueError) ObjectSeries
                           (snd c) (snd c')) table_with_list_flag df'.
Proof.
  apply (prepared_table_keeps_its_columns json_loads literal_eval_fragment
           (fun _ => raise_of ValueError) ObjectSeries table_with_list_flag
           "PC_CHECKINS").
  exact json_loads_raises_value_error.
Defined.

(** * The fetch of one endpoint *)

Section FetchFacts.

Import EndpointFetch.

Variable get_page : nat -> dict -> result pyval.
Variable endpoint : string.

Lemma fetch_pages_served (pages : list pyval) :
  forall (fuel page_num : nat) (offset : Z) (all_data : list dict),
    pages_served get_page endpoint page_num offset pages ->
    List.length pages <= fuel ->
    fetch_pages get_page endpoint (fuel + 1) page_num offset all_data
    = fetch_pages get_page endpoint (fuel + 1 - List.length pages)
        (page_num + List.length pages) (offset_after offset pages)
        (all_data ++ rows_of endpoint pages).
Proof.
  induction pages as [|response pages IH];
    intros fuel page_num offset all_data Hs Hfuel.
  - cbn [List.length offset_after rows_of flat_map].
    now rewrite Nat.sub_0_r, Nat.add_0_r, List.app_nil_r.
  - cbn [pages_served] in Hs.
    destruct Hs as (Hget & Hrows & Hnext & n & Hn & Hrest).
    cbn [List.length] in Hfuel. destruct fuel as [|fuel]; [lia|].
    cbn [Nat.add fetch_pages]. rewrite Hget.
    destruct (process_jsonapi_response response endpoint) as [|row rows] eqn:E;
      [congruence|].
    rewrite Hnext, Hn.
    rewrite (IH fuel (S page_num) _ _ Hrest) by lia.
    cbn [List.length offset_after]. unfold rows_of. cbn [flat_map].
    rewrite Hn, E.
    replace (S fuel + 1 - S (List.length pages))
      with (fuel + 1 - List.length pages) by lia.
    replace (page_num + S (List.length pages))
      with (S page_num + List.length pages) by lia.
    now rewrite <- List.app_assoc.
Qed.

End FetchFacts.

(** X23.  A request that fails costs the whole endpoint.  When [get] raises on any
    page, after any number of pages that were fetched and flattened, the
    exception is caught around the whole method: [_fetch_endpoint] returns 0,
    stores no table, and the rows of the pages already fetched are dropped. *)
Theorem failed_request_discards_endpoint
    (lib : EndpointFetch.library) (get_page : nat -> dict -> result pyval)
    (now : Z) (endpoint table_name data_timezone : string)
    (pages : list pyval) (e : exn) (fuel : nat)
    (dataframes : list (string * DataFrame)) :
  EndpointFetch.pages_served get_page endpoint 1 0 pages ->
  get_page (1 + List.length pages)
    (EndpointFetch.page_params (EndpointFetch.offset_after 0 pages)) = Raise e ->
  List.length pages < fuel ->
  EndpointFetch._fetch_endpoint lib get_page now endpoint table_name
    data_timezone fuel dataframes
  = Some (0, dataframes).
Proof.
  intros Hs Hfail Hfuel. unfold EndpointFetch._fetch_endpoint.
  replace fuel with (fuel - 1 + 1) by lia.
  rewrite (fetch_pages_served get_page endpoint pages (fuel - 1) 1 0 [] Hs)
    by lia.
  replace (fuel - 1 + 1 - List.length pages)
    with (S (fuel - 1 - List.length pages)) by lia.
  cbn [EndpointFetch.fetch_pages]. rewrite Hfail. reflexivity.
Qed.

Lemma failed_request_discards_endpoint_witness :
  EndpointFetch._fetch_endpoint EndpointFetch.example_library
    EndpointFetch.page_then_timeout 0 "/people/v2/people" "PC_PEOPLE"
    "US/Central" 5 []
  = Some (0, []).
Proof.
  refine (failed_request_discards_endpoint EndpointFetch.example_library
            EndpointFetch.page_then_timeout 0 "/people/v2/people" "PC_PEOPLE"
            "US/Central"
            [PDict [("data"%string,
                     PList [EndpointFetch.person "1"; EndpointFetch.person "2"]);
                    ("links"%string, PDict [("next"%string, PStr "page 2")])]]
            (Exn RequestException "read timed out") 5 [] _ _ _).
  - cbn [EndpointFetch.pages_served]. split; [reflexivity|].
    split; [discriminate|]. split; [reflexivity|].
    exists 2. split; [reflexivity|exact I].
  - reflexivity.
  - simpl. lia.
Defined.

(** X24.  The fetch ends at the first page that gives no row or links to no next
    page, and what it stores is built from the rows of the pages up to that
    one.  A page that cannot be flattened gives no row, so it ends the fetch
    like an empty page: its own items and all the pages after it are left
    out, without an error. *)
Theorem fetch_ends_at_first_rowless_page
    (lib : EndpointFetch.library) (get_page : nat -> dict -> result pyval)
    (now : Z) (endpoint table_name data_timezone : string)
    (pages : list pyval) (last : pyval) (fuel : nat)
    (dataframes : list (string * DataFrame)) :
  EndpointFetch.pages_served get_page endpoint 1 0 pages ->
  get_page (1 + List.length pages)
    (EndpointFetch.page_params (EndpointFetch.offset_after 0 pages)) = Ok last ->
  EndpointFetch.last_page endpoint last ->
  List.length pages < fuel ->
  EndpointFetch._fetch_endpoint lib get_page now endpoint table_name
    data_timezone fuel dataframes
  = Some
      match EndpointFetch.store_rows lib now table_name data_timezone
              (EndpointFetch.rows_of endpoint (pages ++ [last])) dataframes with
      | Ok outcome => outcome
      | Raise _ => (0, dataframes)
      end.
Proof.
  intros Hs Hlast Hend Hfuel. unfold EndpointFetch._fetch_endpoint.
  replace fuel with (fuel - 1 + 1) by lia.
  rewrite (fetch_pages_served get_page endpoint pages (fuel - 1) 1 0 [] Hs)
    by lia.
  replace (fuel - 1 + 1 - List.length pages)
    with (S (fuel - 1 - List.length pages)) by lia.
  cbn [EndpointFetch.fetch_pages]. rewrite Hlast.
  unfold EndpointFetch.rows_of. rewrite flat_map_app. cbn [flat_map List.app].
  rewrite List.app_nil_r.
  destruct (process_jsonapi_response last endpoint) as [|row rows] eqn:E.
  - rewrite List.app_nil_r. cbn [bind].
    now destruct (EndpointFetch.store_rows _ _ _ _ _ _).
  - destruct Hend as [Hend | Hend]; [congruence|].
    rewrite Hend. cbn [bind].
    now destruct (EndpointFetch.store_rows _ _ _ _ _ _).
Qed.

Lemma fetch_ends_at_first_rowless_page_witness :
  EndpointFetch._fetch_endpoint EndpointFetch.example_library
    EndpointFetch.page_then_broken_page 0 "/people/v2/people" "PC_PEOPLE"
    "US/Central" 5 []
  = Some
      match EndpointFetch.store_rows EndpointFetch.example_library 0
              "PC_PEOPLE" "US/Central"
              (EndpointFetch.rows_of "/people/v2/people"
                 ([PDict [("data"%string,
                           PList [EndpointFetch.person "1"; EndpointFetch.person "2"]);
                          ("links"%string, PDict [("next"%string, PStr "page 2")])]]
                  ++ [PDict [("data"%string,
                              PList [EndpointFetch.person "3"; PStr "oops"]);
                             ("links"%string,
                              PDict [("next"%string, PStr "page 3")])]]))
              [] with
      | Ok outcome => outcome
      | Raise _ => (0, [])
      end.
Proof.
  refine (fetch_ends_at_first_rowless_page EndpointFetch.example_library
            EndpointFetch.page_then_broken_page 0 "/people/v2/people" "PC_PEOPLE"
            "US/Central"
            [PDict [("data"%string,
                     PList [EndpointFetch.person "1"; EndpointFetch.person "2"]);
                    ("links"%string, PDict [("next"%string, PStr "page 2")])]]
            (PDict [("data"%string,
                     PList [EndpointFetch.person "3"; PStr "oops"]);
                    ("links"%string, PDict [("next"%string, PStr "page 3")])])
            5 [] _ _ _ _).
  - cbn [EndpointFetch.pages_served]. split; [reflexivity|].
    split; [discriminate|]. split; [reflexivity|].
    exists 2. split; [reflexivity|exact I].
  - reflexivity.
  - left. reflexivity.
  - simpl. lia.
Defined.

(** The pages of the example: the second page holds a text among its items,
    so the table is built from the two people of the first page only. *)
Lemma broken_page_truncates_fetch :
  EndpointFetch._fetch_endpoint EndpointFetch.example_library
    EndpointFetch.page_then_broken_page 7 "/people/v2/people" "PC_PEOPLE"
    "US/Central" 5 []
  = Some (2, [("PC_PEOPLE"%string,
               [("Person_id"%string, ObjectSeries [PStr "1"; PStr "2"]);
                ("load_timestamp"%string,
                 DatetimeSeries (Some "UTC"%string) [Some 7%Z; Some 7%Z])])]).
Proof. reflexivity. Qed.

(** * Enrichment of the event times *)

Lemma get_table_set_other (name table_name : string) (df : DataFrame)
    (dataframes : list (string * DataFrame)) :
  name <> table_name ->
  get_table name (EndpointFetch.set_table table_name df dataframes)
  = get_table name dataframes.
Proof.
  intros Hne. induction dataframes as [|[n d] rest IH]; simpl.
  - apply String.eqb_neq in Hne. rewrite String.eqb_sym. now rewrite Hne.
  - destruct (String.eqb n table_name) eqn:E; simpl.
    + apply String.eqb_eq in E. subst.
      assert (String.eqb table_name name = false) as ->
        by (apply String.eqb_neq; congruence).
      reflexivity.
    + destruct (String.eqb n name); [reflexivity|exact IH].
Qed.

Lemma set_table_names (table_name : string) (df df0 : DataFrame)
    (dataframes : list (string * DataFrame)) :
  get_table table_name dataframes = Some df0 ->
  map fst (EndpointFetch.set_table table_name df dataframes) = map fst dataframes.
Proof.
  induction dataframes as [|[n d] rest IH]; simpl; [discriminate|].
  destruct (String.eqb n table_name) eqn:E; simpl.
  - apply String.eqb_eq in E. now subst.
  - intros H. now rewrite IH.
Qed.

(** X25.  [_enrich_event_times] can change one table only.  When it returns, the
    tables of the run have the same names in the same order and every table
    other than the event times is the one it was; and nothing at all changes
    when a table is missing or empty, when an id column is not found, or when
    the event times already have their [event_name] and [event_frequency]
    columns, so that enriching a second time merges nothing. *)
Theorem enrichment_changes_only_event_times
    (merge_left : DataFrame -> DataFrame -> string -> result DataFrame)
    (dataframes dataframes' : list (string * DataFrame)) :
  _enrich_event_times merge_left dataframes = Ok dataframes' ->
  map fst dataframes' = map fst dataframes /\
  (forall name, name <> "PC_EVENT_TIMES"%string ->
     get_table name dataframes' = get_table name dataframes) /\
  (nothing_to_enrich dataframes -> dataframes' = dataframes).
Proof.
  unfold _enrich_event_times, nothing_to_enrich.
  destruct (get_table "PC_EVENT_TIMES" dataframes) as [event_times_df|] eqn:Et;
    [|intros H; inversion H; auto].
  destruct (get_table "PC_EVENTS" dataframes) as [events_df|];
    [|intros H; inversion H; auto].
  destruct (df_empty event_times_df) eqn:E1; cbn [orb];
    [intros H; inversion H; auto|].
  destruct (df_empty events_df) eqn:E2; [intros H; inversion H; auto|].
  destruct (first_column _ event_times_df) as [event_id_col|];
    [|intros H; inversion H; auto].
  destruct (first_column _ events_df) as [events_id_col|];
    [|intros H; inversion H; auto].
  unfold merge_events.
  destruct (in_columns "event_name" event_times_df) eqn:En;
  destruct (in_columns "event_frequency" event_times_df) eqn:Ef;
  destruct (in_columns "name" events_df);
  destruct (in_columns "frequency" events_df);
  cbn [andb negb List.app List.length Nat.eqb];
  try (intros H; inversion H; auto; fail);
  intros H; bind_inv H; bind_inv H; inversion H; subst; clear H;
  (split; [now apply (set_table_names _ _ event_times_df)|]);
  (split; [intros name Hne; now apply get_table_set_other|]);
  intros [Hskip | [Hskip | [Hskip | [Hskip | [Hskip1 Hskip2]]]]]; discriminate.
Qed.

Lemma enrichment_changes_only_event_times_witness :
  map fst enriched_tables = map fst tables_to_enrich /\
  (forall name, name <> "PC_EVENT_TIMES"%string ->
     get_table name enriched_tables = get_table name tables_to_enrich) /\
  (nothing_to_enrich tables_to_enrich -> enriched_tables = tables_to_enrich).
Proof.
  apply (enrichment_changes_only_event_times merge_aligned
           tables_to_enrich enriched_tables).
  reflexivity.
Defined.

(** Enriching the enriched tables merges nothing. *)
Lemma enrichment_of_enriched_tables :
  _enrich_event_times merge_aligned tables_to_enrich = Ok enriched_tables /\
  _enrich_event_times merge_aligned enriched_tables = Ok enriched_tables.
Proof. split; reflexivity. Qed.

(** * The types of the derived columns *)

Lemma contains_chars_app_r (sub l1 l2 : list ascii) :
  contains_chars sub l2 = true -> contains_chars sub (l1 ++ l2) = true.
Proof.
  intros H. induction l1 as [|c l1 IH]; [exact H|].
  cbn [List.app contains_chars]. rewrite IH. apply orb_true_r.
Qed.

Lemma lower_append (a b : string) : lower (a ++ b) = (lower a ++ lower b)%string.
Proof.
  unfold lower. apply chars_inj.
  rewrite chars_text, (chars_append (text _)), !chars_text, chars_append.
  apply map_app.
Qed.

(** X26.  The [_date] column that [add_derived_date_columns] derives from a
    datetime column is stored as a date: [generate_dtype_mapping] types it
    [Date] whatever it holds, unless its name contains one of the boolean
    markers, which are tested first, or contains [time]. *)
Theorem derived_date_column_is_a_date (col : string) (s : Series) :
  any_in bool_patterns (lower (without_at col ++ "_date")) = false ->
  str_contains "time" (lower (without_at col ++ "_date")) = false ->
  column_type (without_at col ++ "_date") s = Ok Date.
Proof.
  intros Hflag Htime. unfold column_type.
  assert (Hid : endswith (without_at col ++ "_date") "_id" = false).
  { unfold endswith. rewrite chars_append, rev_app_distr. reflexivity. }
  assert (Hids : endswith (without_at col ++ "_date") "_ids" = false).
  { unfold endswith. rewrite chars_append, rev_app_distr. reflexivity. }
  rewrite Hid, Hids, Hflag. cbn [orb].
  assert (Hdate : str_contains "date" (lower (without_at col ++ "_date")) = true).
  { rewrite lower_append. unfold str_contains. rewrite chars_append.
    apply contains_chars_app_r. reflexivity. }
  rewrite Hdate. cbn [orb]. unfold date_column_type.
  now rewrite Hdate, Htime.
Qed.

Lemma derived_date_column_is_a_date_witness :
  column_type (without_at "created_at" ++ "_date")
    (ObjectSeries [PStr "2024-01-07"]) = Ok Date.
Proof.
  apply (derived_date_column_is_a_date "created_at"); reflexivity.
Defined.
